(** * kilorules cache generators: a shallow embedding

    The repository holds two command line generators,
    [cache_generator.py] (SQL schema, SQL queries and generated Go files)
    and [api_cache_generator.py] (an OpenAPI document and one generated Go
    file).  Both hash their inputs, index them line by line with regular
    expressions, store the indices as JSON documents and write one cache
    document per query or operation.

    Conventions of the embedding:
    - text is ASCII: a [string] is the Python [str], character classes
      ([\s], [\w], [str.strip], [str.upper]) are the ASCII ones; a file
      that exists can be read and decoded;
    - a file system is a function from paths (relative to the configured
      base path) to contents; the cache directory is a separate name space;
    - Python [int] is [Z], a [dict] is an association list in insertion
      order, an exception is the [Raise] branch of [result];
    - progress messages are not modelled, diagnostics are. *)

From Stdlib Require Import ZArith List String Ascii Bool Lia Permutation.
Import ListNotations.

Open Scope string_scope.
Open Scope list_scope.
Open Scope Z_scope.

(* ================================================================== *)
(** * Python primitives *)
(* ================================================================== *)

Module Py.

(** ** Exceptions *)

Inductive exn :=
| FileNotFoundError (path : string)
| IndexError
| KeyError (key : string)
| TypeError.

Inductive result (A : Type) :=
| Ok (a : A)
| Raise (e : exn).
Arguments Ok {A} a.
Arguments Raise {A} e.

Definition bind {A B} (m : result A) (f : A -> result B) : result B :=
  match m with
  | Ok a => f a
  | Raise e => Raise e
  end.

Fixpoint mapM {A B} (f : A -> result B) (l : list A) : result (list B) :=
  match l with
  | [] => Ok []
  | x :: xs =>
      bind (f x) (fun y => bind (mapM f xs) (fun ys => Ok (y :: ys)))
  end.

(** ** Characters *)

Definition code (c : ascii) : N := N_of_ascii c.

Definition between (lo hi : N) (c : ascii) : bool :=
  ((lo <=? code c) && (code c <=? hi))%N.

(** [str.isspace] and the regular expression class [\s] on ASCII:
    TAB..CR, FS..US and the space. *)
Definition isspace (c : ascii) : bool :=
  between 9 13 c || between 28 32 c.

Definition isdigit (c : ascii) : bool := between 48 57 c.
Definition isupper (c : ascii) : bool := between 65 90 c.
Definition islower (c : ascii) : bool := between 97 122 c.

(** The class [\w] on ASCII, also [[A-Za-z0-9_]]. *)
Definition isword (c : ascii) : bool :=
  isdigit c || isupper c || islower c || Ascii.eqb c "_".

Definition newline : ascii := "010".
Definition carriage_return : ascii := "013".

Definition lower_char (c : ascii) : ascii :=
  if isupper c then ascii_of_N (code c + 32) else c.

Definition upper_char (c : ascii) : ascii :=
  if islower c then ascii_of_N (code c - 32) else c.

(** ** Strings *)

Fixpoint map_string (f : ascii -> ascii) (s : string) : string :=
  match s with
  | EmptyString => EmptyString
  | String c r => String (f c) (map_string f r)
  end.

Definition lower : string -> string := map_string lower_char.
Definition upper : string -> string := map_string upper_char.

(** Truth value of a [str]. *)
Definition nonempty (s : string) : bool :=
  match s with
  | EmptyString => false
  | String _ _ => true
  end.

(** Truth value of an [Optional[str]]: false on [None] and on [""]. *)
Definition truthy (o : option string) : bool :=
  match o with
  | Some s => nonempty s
  | None => false
  end.

Fixpoint lstrip_where (p : ascii -> bool) (s : string) : string :=
  match s with
  | EmptyString => EmptyString
  | String c r => if p c then lstrip_where p r else s
  end.

Fixpoint rstrip_where (p : ascii -> bool) (s : string) : string :=
  match s with
  | EmptyString => EmptyString
  | String c r =>
      match rstrip_where p r with
      | EmptyString => if p c then EmptyString else String c EmptyString
      | r' => String c r'
      end
  end.

(** [s.strip()] *)
Definition strip (s : string) : string :=
  rstrip_where isspace (lstrip_where isspace s).

(** [s.rstrip('\n')] *)
Definition rstrip_newline (s : string) : string :=
  rstrip_where (Ascii.eqb newline) s.

(** [s.startswith(p)] *)
Definition startswith (p s : string) : bool := String.prefix p s.

(** [sub in s] *)
Fixpoint contains (sub s : string) : bool :=
  String.prefix sub s
  || match s with
     | EmptyString => false
     | String _ r => contains sub r
     end.

(** [s.count(c)] for a one character [c]. *)
Fixpoint count (c : ascii) (s : string) : Z :=
  match s with
  | EmptyString => 0
  | String d r => (if Ascii.eqb c d then 1 else 0) + count c r
  end.

(** [sep.join(l)] *)
Fixpoint join (sep : string) (l : list string) : string :=
  match l with
  | [] => EmptyString
  | [x] => x
  | x :: xs => (x ++ sep ++ join sep xs)%string
  end.

Fixpoint drop (n : nat) (s : string) : string :=
  match n, s with
  | O, _ => s
  | S _, EmptyString => EmptyString
  | S m, String _ r => drop m r
  end.

(** [s.split(sep, 1)[1]] for an [s] that holds [sep]: the text after the
    first occurrence ([None] when there is none, where Python raises). *)
Fixpoint after_first (sep s : string) : option string :=
  if String.prefix sep s then Some (drop (String.length sep) s)
  else match s with
       | EmptyString => None
       | String _ r => after_first sep r
       end.

(** ** Reading text files *)

(** Text mode with universal newlines: [\r\n] and [\r] are read as
    [\n]. *)
Fixpoint universal_newlines (s : string) : string :=
  match s with
  | EmptyString => EmptyString
  | String c r =>
      if Ascii.eqb c carriage_return then
        match r with
        | String d r' =>
            if Ascii.eqb d newline
            then String newline (universal_newlines r')
            else String newline (universal_newlines r)
        | EmptyString => String newline EmptyString
        end
      else String c (universal_newlines r)
  end.

(** [f.readlines()] on already translated text: every line keeps its
    newline, the last one may lack it. *)
Fixpoint splitlines_keepends (s : string) : list string :=
  match s with
  | EmptyString => []
  | String c r =>
      if Ascii.eqb c newline then String c EmptyString :: splitlines_keepends r
      else match splitlines_keepends r with
           | [] => [String c EmptyString]
           | l :: ls => String c l :: ls
           end
  end.

Definition readlines (content : string) : list string :=
  splitlines_keepends (universal_newlines content).

(** ** Lists *)

(** [l[i]] with Python's negative indices. *)
Definition index {A} (l : list A) (i : Z) : result A :=
  let n := Z.of_nat (List.length l) in
  let j := if i <? 0 then i + n else i in
  if (j <? 0) || (n <=? j) then Raise IndexError
  else match nth_error l (Z.to_nat j) with
       | Some x => Ok x
       | None => Raise IndexError
       end.

(** [range(a, b)] *)
Definition range (a b : Z) : list Z :=
  List.map (fun k => a + Z.of_nat k) (seq 0 (Z.to_nat (b - a))).

(** A bound of a slice of a list of [n] elements: a negative one counts
    from the end, and both kinds are cut to [0..n]. *)
Definition slice_bound (n i : Z) : Z :=
  if i <? 0 then Z.max (i + n) 0 else Z.min i n.

(** [l[a:b]] *)
Definition slice {A} (l : list A) (a b : Z) : list A :=
  let n := Z.of_nat (List.length l) in
  firstn (Z.to_nat (slice_bound n b - slice_bound n a))
         (skipn (Z.to_nat (slice_bound n a)) l).

(** ** Paths *)

Fixpoint split_on (sep : ascii) (s : string) : list string :=
  match s with
  | EmptyString => [EmptyString]
  | String c r =>
      if Ascii.eqb c sep then EmptyString :: split_on sep r
      else match split_on sep r with
           | [] => [String c EmptyString]
           | p :: ps => String c p :: ps
           end
  end.

(** [Path(p).name]: the last component, empty and [.] components
    dropped. *)
Definition path_name (p : string) : string :=
  last (filter (fun c => nonempty c && negb (String.eqb c "."))
               (split_on "/" p)) EmptyString.

Fixpoint rfind_dot (s : string) (i : nat) (found : option nat) : option nat :=
  match s with
  | EmptyString => found
  | String c r => rfind_dot r (S i) (if Ascii.eqb c "." then Some i else found)
  end.

Fixpoint take (n : nat) (s : string) : string :=
  match n, s with
  | O, _ => EmptyString
  | S _, EmptyString => EmptyString
  | S m, String c r => String c (take m r)
  end.

(** [Path(p).stem]: the name without its last suffix; a dot in first or
    last position starts no suffix. *)
Definition path_stem (p : string) : string :=
  let name := path_name p in
  match rfind_dot name 0 None with
  | Some i =>
      if ((0 <? i) && (i <? String.length name - 1))%nat then take i name
      else name
  | None => name
  end.

End Py.

Notation "x <- m ;; k" := (Py.bind m (fun x => k))
  (at level 61, m at next level, right associativity).

(* ================================================================== *)
(** * Regular expressions *)
(* ================================================================== *)

(** The fragment of Python's [re] the generators use, with its
    backtracking semantics: greedy repetition of a character class,
    ordered alternation, capture groups, [^], [$] and [\b]. *)

Module Re.

Inductive regex :=
| Eps
| Chr (p : ascii -> bool)
| Many (p : ascii -> bool)
| Cat (r1 r2 : regex)
| Alt (r1 r2 : regex)
| Grp (r : regex)
| Bol
| Eol
| Wb.

(** Greedy [p*]: the longest run first, then shorter ones. *)
Fixpoint many {A} (p : ascii -> bool) (prev : option ascii) (s : string)
         (k : option ascii -> string -> option A) : option A :=
  match s with
  | String c r =>
      if p c then
        match many p (Some c) r k with
        | Some a => Some a
        | None => k prev s
        end
      else k prev s
  | EmptyString => k prev s
  end.

(** [$] without [MULTILINE]: the end, or just before a final newline. *)
Definition at_eol (s : string) : bool :=
  match s with
  | EmptyString => true
  | String c EmptyString => Ascii.eqb c Py.newline
  | _ => false
  end.

Definition word_before (prev : option ascii) : bool :=
  match prev with
  | Some c => Py.isword c
  | None => false
  end.

Definition word_after (s : string) : bool :=
  match s with
  | String c _ => Py.isword c
  | EmptyString => false
  end.

(** The text between two positions of one string. *)
Definition taken (s rest : string) : string :=
  Py.take (String.length s - String.length rest) s.

(** [run r prev s caps k]: match [r] at the position before [s], whose
    previous character is [prev]; [k] receives the position after the
    match and the groups closed so far. *)
Fixpoint run {A} (r : regex) (prev : option ascii) (s : string)
         (caps : list string)
         (k : option ascii -> string -> list string -> option A) : option A :=
  match r with
  | Eps => k prev s caps
  | Chr p =>
      match s with
      | String c s' => if p c then k (Some c) s' caps else None
      | EmptyString => None
      end
  | Many p => many p prev s (fun prev' s' => k prev' s' caps)
  | Cat r1 r2 =>
      run r1 prev s caps (fun prev' s' caps' => run r2 prev' s' caps' k)
  | Alt r1 r2 =>
      match run r1 prev s caps k with
      | Some a => Some a
      | None => run r2 prev s caps k
      end
  | Grp r1 =>
      run r1 prev s caps
          (fun prev' s' caps' => k prev' s' (caps' ++ [taken s s']))
  | Bol =>
      match prev with
      | None => k prev s caps
      | Some _ => None
      end
  | Eol => if at_eol s then k prev s caps else None
  | Wb =>
      if xorb (word_before prev) (word_after s) then k prev s caps else None
  end.

Definition finish (_ : option ascii) (rest : string) (caps : list string)
  : option (list string * string) := Some (caps, rest).

(** [pattern.match(s)]: the groups of a match at the start of [s]. *)
Definition match_ (r : regex) (s : string) : option (list string) :=
  option_map fst (run r None s [] finish).

Definition group (n : nat) (caps : list string) : string :=
  nth (n - 1) caps EmptyString.

(** Group 1 of [pattern.match(s)]. *)
Definition match1 (r : regex) (s : string) : option string :=
  option_map (group 1) (match_ r s).

Definition matches (r : regex) (s : string) : bool :=
  match match_ r s with
  | Some _ => true
  | None => false
  end.

(** [pattern.findall(s)] for a pattern with one group: group 1 of the
    successive matches, each search resuming where the last match
    ended.  [skip] counts the characters of the last match still to
    pass. *)
Fixpoint findall_from (r : regex) (prev : option ascii) (s : string)
         (skip : nat) {struct s} : list string :=
  match skip with
  | S n =>
      match s with
      | String c s' => findall_from r (Some c) s' n
      | EmptyString => []
      end
  | O =>
      match run r prev s [] finish with
      | Some (caps, rest) =>
          group 1 caps ::
          match s with
          | String c s' =>
              findall_from r (Some c) s'
                (String.length s - String.length rest - 1)
          | EmptyString => []
          end
      | None =>
          match s with
          | String c s' => findall_from r (Some c) s' 0
          | EmptyString => []
          end
      end
  end.

Definition findall (r : regex) (s : string) : list string :=
  findall_from r None s 0.

(** ** Pattern syntax *)

Fixpoint cat (l : list regex) : regex :=
  match l with
  | [] => Eps
  | [r] => r
  | r :: rs => Cat r (cat rs)
  end.

Fixpoint alt (l : list regex) : regex :=
  match l with
  | [] => Chr (fun _ => false)
  | [r] => r
  | r :: rs => Alt r (alt rs)
  end.

(** A literal. *)
Fixpoint lit (s : string) : regex :=
  match s with
  | EmptyString => Eps
  | String c EmptyString => Chr (Ascii.eqb c)
  | String c r => Cat (Chr (Ascii.eqb c)) (lit r)
  end.

(** A literal under [(?i)] or [re.IGNORECASE]. *)
Fixpoint liti (s : string) : regex :=
  match s with
  | EmptyString => Eps
  | String c EmptyString =>
      Chr (fun d => Ascii.eqb (Py.lower_char c) (Py.lower_char d))
  | String c r =>
      Cat (Chr (fun d => Ascii.eqb (Py.lower_char c) (Py.lower_char d)))
          (liti r)
  end.

Definition plus (p : ascii -> bool) : regex := Cat (Chr p) (Many p).
Definition opt (r : regex) : regex := Alt r Eps.

(** [\s], [\s*], [\s+], [\w+] and [.] *)
Definition s1 : regex := Chr Py.isspace.
Definition s_star : regex := Many Py.isspace.
Definition s_plus : regex := plus Py.isspace.
Definition w_plus : regex := plus Py.isword.
Definition dot (c : ascii) : bool := negb (Ascii.eqb c Py.newline).

End Re.

(* ================================================================== *)
(** * Dictionaries, sets and JSON documents *)
(* ================================================================== *)

(** A Python [dict] with [str] keys: the items in insertion order.
    Assigning to a key that is present keeps its position. *)

Module Dict.

Definition t (V : Type) : Type := list (string * V).

Definition empty {V} : t V := [].

Fixpoint get {V} (k : string) (d : t V) : option V :=
  match d with
  | [] => None
  | (k', v) :: r => if String.eqb k' k then Some v else get k r
  end.

(** [d[k] = v] *)
Fixpoint set {V} (k : string) (v : V) (d : t V) : t V :=
  match d with
  | [] => [(k, v)]
  | (k', v') :: r =>
      if String.eqb k' k then (k, v) :: r else (k', v') :: set k v r
  end.

(** [k in d] *)
Definition mem {V} (k : string) (d : t V) : bool :=
  match get k d with
  | Some _ => true
  | None => false
  end.

Definition keys {V} (d : t V) : list string := List.map fst d.
Definition values {V} (d : t V) : list V := List.map snd d.

(** [{k: f(v) for k, v in items}] *)
Definition of_items {V} (items : list (string * V)) : t V :=
  fold_left (fun d kv => set (fst kv) (snd kv) d) items empty.

Definition map_values {V W} (f : V -> W) (d : t V) : t W :=
  List.map (fun kv => (fst kv, f (snd kv))) d.

(** What every dictionary built by [set] satisfies. *)
Definition wf {V} (d : t V) : Prop := NoDup (keys d).

End Dict.

(** A Python [set] of [str]: its elements in insertion order.  The order
    in which it is iterated is not this one, see [set_order] below. *)

Module PySet.

Definition t : Type := list string.

Definition mem (x : string) (s : t) : bool := existsb (String.eqb x) s.

Definition add (x : string) (s : t) : t :=
  if mem x s then s else s ++ [x].

End PySet.

(** The documents [json.dump] writes and [json.load] reads. *)

#[warnings="-register-all"]
Inductive json :=
| JNull
| JInt (z : Z)
| JStr (s : string)
| JArr (l : list json)
| JObj (d : Dict.t json).

Module Json.
Import Py.

(** [j[k]] *)
Definition item (k : string) (j : json) : result json :=
  match j with
  | JObj d =>
      match Dict.get k d with
      | Some v => Ok v
      | None => Raise (KeyError k)
      end
  | _ => Raise TypeError
  end.

(** [j.get(k, default)] *)
Definition get_default (k : string) (default : json) (j : json) : result json :=
  match j with
  | JObj d =>
      match Dict.get k d with
      | Some v => Ok v
      | None => Ok default
      end
  | _ => Raise TypeError
  end.

(** [j.items()] *)
Definition items (j : json) : result (list (string * json)) :=
  match j with
  | JObj d => Ok d
  | _ => Raise TypeError
  end.

(** The typed fields of the dataclasses: a document of another shape
    does not load. *)
Definition as_int (j : json) : result Z :=
  match j with
  | JInt z => Ok z
  | _ => Raise TypeError
  end.

Definition as_str (j : json) : result string :=
  match j with
  | JStr s => Ok s
  | _ => Raise TypeError
  end.

End Json.

(** Both source files declare the same [FileRange] dataclass. *)

Record FileRange := mkRange { start_line : Z; end_line : Z }.

Definition FileRange_to_dict (r : FileRange) : json :=
  JObj [("start_line", JInt (start_line r)); ("end_line", JInt (end_line r))].

(** [FileRange(start_line=r["start_line"], end_line=r["end_line"])] *)
Definition FileRange_of_json (r : json) : Py.result FileRange :=
  s <- Py.bind (Json.item "start_line" r) Json.as_int ;;
  e <- Py.bind (Json.item "end_line" r) Json.as_int ;;
  Py.Ok (mkRange s e).

(** The file system below the base path: the content of each file that
    exists. *)
Definition filesystem : Type := string -> option string.

(** What the generators print about missing inputs and failed units. *)
Inductive diagnostic :=
| FileMissing (path : string)
| UnitFailed (name : string) (e : Py.exn).

(** The fingerprint check both generators share
    ([CacheGenerator._should_update_file],
    [ApiCacheGenerator._should_reindex]): the answer, the table after the
    call and what was printed. *)
Section Fingerprint.

Variable sha256_hexdigest : string -> string.

Definition differs (stored : option string) (current : string) : bool :=
  match stored with
  | Some h => negb (String.eqb h current)
  | None => true
  end.

Definition should_reindex (fs : filesystem) (hashes : Dict.t string)
           (rel_key path : string)
  : bool * Dict.t string * list diagnostic :=
  match fs path with
  | None => (false, hashes, [FileMissing path])
  | Some content =>
      let current := sha256_hexdigest content in
      let stored := Dict.get rel_key hashes in
      if differs stored current
      then (true, Dict.set rel_key current hashes, [])
      else (false, hashes, [])
  end.

End Fingerprint.

(* ================================================================== *)
(** * The generator object and the cache directory *)
(* ================================================================== *)

(** Both generators keep the same mutable state: the table of hashes in
    memory, its stored copy, and the documents of the (flat) cache
    directory, keyed by file name. *)

Module Runtime.
Import Py.
Record state := mkState {
  hashes : Dict.t string;                 (* [self.hashes] *)
  hashes_file : option (Dict.t string);   (* [hashes.json] *)
  cache_dir : Dict.t json;                (* the other documents, by name *)
  written : list (string * json);         (* unit caches saved, oldest first *)
  printed : list diagnostic
}.

(** A computation that reads and writes the state and may raise; what
    it wrote before raising stays written. *)
Definition M (A : Type) : Type := state -> result A * state.

Definition ret {A} (a : A) : M A := fun s => (Ok a, s).

Definition bindM {A B} (m : M A) (f : A -> M B) : M B :=
  fun s =>
    match m s with
    | (Ok a, s') => f a s'
    | (Raise e, s') => (Raise e, s')
    end.

Definition lift {A} (r : result A) : M A := fun s => (r, s).

(** [try: m except Exception as e: handler(e)] *)
Definition try_except {A} (m : M A) (handler : exn -> M A) : M A :=
  fun s =>
    match m s with
    | (Ok a, s') => (Ok a, s')
    | (Raise e, s') => handler e s'
    end.

Definition print (d : diagnostic) : M unit :=
  fun s => (Ok tt, mkState (hashes s) (hashes_file s) (cache_dir s)
                           (written s) (printed s ++ [d])).

Definition write_document (name : string) (doc : json) : M unit :=
  fun s => (Ok tt, mkState (hashes s) (hashes_file s)
                           (Dict.set name doc (cache_dir s))
                           (written s) (printed s)).

Notation "x <~ m ;; k" := (bindM m (fun x => k))
  (at level 61, m at next level, right associativity).

(** [self._save_hashes()] *)
Definition _save_hashes : M unit :=
  fun s => (Ok tt, mkState (hashes s) (Some (hashes s)) (cache_dir s)
                           (written s) (printed s)).

(** A unit cache document saved under [name]. *)
Definition write_cache (name : string) (doc : json) : M unit :=
  fun s => (Ok tt, mkState (hashes s) (hashes_file s)
                           (Dict.set name doc (cache_dir s))
                           (written s ++ [(name, doc)]) (printed s)).

(** [self.hashes = self._load_hashes()] *)
Definition _load_hashes : M unit :=
  fun s =>
    (Ok tt, mkState (match hashes_file s with
                     | Some h => h
                     | None => Dict.empty
                     end)
                    (hashes_file s) (cache_dir s) (written s) (printed s)).

(** The state a new generator object starts from. *)
Definition fresh (stored_hashes : option (Dict.t string)) (dir : Dict.t json)
  : state := mkState Dict.empty stored_hashes dir [] [].

Section Shared.

Variable sha256_hexdigest : string -> string.
Variable fs : filesystem.

Definition open_text (path : string) : result string :=
  match fs path with
  | Some content => Ok content
  | None => Raise (FileNotFoundError path)
  end.

Definition exists_ (path : string) : bool :=
  match fs path with
  | Some _ => true
  | None => false
  end.

(** The fingerprint check on the generator's own table. *)
Definition check_fingerprint (rel_key path : string) : M bool :=
  fun s =>
    match should_reindex sha256_hexdigest fs (hashes s) rel_key path with
    | (answer, table, out) =>
        (Ok answer, mkState table (hashes_file s) (cache_dir s)
                            (written s) (printed s ++ out))
    end.

End Shared.

End Runtime.

(* ================================================================== *)
(** * cache_generator.py *)
(* ================================================================== *)

Module CacheGenerator.
Import Py Re Runtime.

(** ** Data classes *)

Record FileIndex := mkIndex {
  file_path : string;
  total_lines : Z;
  ranges : Dict.t FileRange
}.

Record TableDependency := mkTable {
  table_name : string;
  table_range : FileRange;
  table_file : string;
  table_sql : string
}.

Record GeneratedCode := mkGenerated {
  gen_type : string;
  gen_name : string;
  gen_code : string;
  gen_range : FileRange;
  gen_file : string
}.

Record QueryCache := mkQueryCache {
  query_name : string;
  query_sql : string;
  query_range : FileRange;
  query_file : string;
  tables : list TableDependency;
  generated_code : list GeneratedCode
}.

(** [EntityType.FUNCTION.value] and [EntityType.STRUCT.value] *)
Definition EntityType_FUNCTION : string := "function".
Definition EntityType_STRUCT : string := "struct".

Definition FileIndex_to_dict (i : FileIndex) : json :=
  JObj [("file_path", JStr (file_path i));
        ("total_lines", JInt (total_lines i));
        ("ranges", JObj (Dict.map_values FileRange_to_dict (ranges i)))].

Definition TableDependency_to_dict (t : TableDependency) : json :=
  JObj [("table_name", JStr (table_name t));
        ("range", FileRange_to_dict (table_range t));
        ("file", JStr (table_file t));
        ("table_sql", JStr (table_sql t))].

Definition GeneratedCode_to_dict (g : GeneratedCode) : json :=
  JObj [("type", JStr (gen_type g));
        ("name", JStr (gen_name g));
        ("code", JStr (gen_code g));
        ("range", FileRange_to_dict (gen_range g));
        ("file", JStr (gen_file g))].

Definition QueryCache_to_dict (c : QueryCache) : json :=
  JObj [("query_name", JStr (query_name c));
        ("query_sql", JStr (query_sql c));
        ("query_range", FileRange_to_dict (query_range c));
        ("query_file", JStr (query_file c));
        ("tables", JArr (List.map TableDependency_to_dict (tables c)));
        ("generated_code",
         JArr (List.map GeneratedCode_to_dict (generated_code c)))].

(** The index a stored document gives back, as [generate] rebuilds it:
    [FileIndex(file_path=data["file_path"], total_lines=...,
    ranges={name: FileRange(...) for name, r in data["ranges"].items()})] *)
Definition FileIndex_of_json (data : json) : result FileIndex :=
  fp <- bind (Json.item "file_path" data) Json.as_str ;;
  tl <- bind (Json.item "total_lines" data) Json.as_int ;;
  rs <- bind (Json.item "ranges" data) Json.items ;;
  rs' <- mapM (fun kv => r <- FileRange_of_json (snd kv) ;; Ok (fst kv, r)) rs ;;
  Ok (mkIndex fp tl (Dict.of_items rs')).

(** ** Patterns *)

(** [(?i)^\s*create\s+table\s+(?:if\s+not\s+exists\s+)?(\w+)] *)
Definition create_table_pattern : regex :=
  cat [Bol; s_star; liti "create"; s_plus; liti "table"; s_plus;
       opt (cat [liti "if"; s_plus; liti "not"; s_plus; liti "exists"; s_plus]);
       Grp w_plus].

(** [(?i)^\s*create\s+type\s+(\w+)] *)
Definition create_type_pattern : regex :=
  cat [Bol; s_star; liti "create"; s_plus; liti "type"; s_plus; Grp w_plus].

(** [(?i)^\s*create\s+function\s+(\w+)] *)
Definition create_function_pattern : regex :=
  cat [Bol; s_star; liti "create"; s_plus; liti "function"; s_plus; Grp w_plus].

(** [^--\s*name:\s*(\w+)\s*:(\w+)] *)
Definition query_pattern : regex :=
  cat [Bol; lit "--"; s_star; lit "name:"; s_star; Grp w_plus; s_star;
       lit ":"; Grp w_plus].

(** [^func\s+(?:\([^)]+\)\s+)?(\w+)] *)
Definition func_pattern : regex :=
  cat [Bol; lit "func"; s_plus;
       opt (cat [lit "("; plus (fun c => negb (Ascii.eqb c ")")); lit ")";
                 s_plus]);
       Grp w_plus].

(** [^type\s+(\w+)\s+struct] *)
Definition struct_pattern : regex :=
  cat [Bol; lit "type"; s_plus; Grp w_plus; s_plus; lit "struct"].

(** [^type\s+(\w+)\s+interface] *)
Definition interface_pattern : regex :=
  cat [Bol; lit "type"; s_plus; Grp w_plus; s_plus; lit "interface"].

(** [^(?:const|var)\s+(\w+)]; [index_generated_file] compiles it and
    never uses it. *)
Definition const_pattern : regex :=
  cat [Bol; Alt (lit "const") (lit "var"); s_plus; Grp w_plus].

(** [^type\s+(\w+)\s+] *)
Definition type_pattern : regex :=
  cat [Bol; lit "type"; s_plus; Grp w_plus; s_plus].

(** ** Range extraction *)

(** The loop variables of the three scans. *)
Record scan := mkScan {
  line_num : Z;
  current_entity_name : option string;
  current_entity_start : Z;
  in_entity : bool;               (* [in_definition] in the schema scan *)
  brace_count : Z;
  index_ranges : Dict.t FileRange
}.

Definition scan_start : scan := mkScan 0 None 0 false 0 Dict.empty.

(** [index.ranges[name] = FileRange(start_line=start, end_line=e)] *)
Definition record_range (s : scan) (name : string) (e : Z) : Dict.t FileRange :=
  Dict.set name (mkRange (current_entity_start s) e) (index_ranges s).

(** *** schema.sql *)

(** The body shared by the three [if match:] blocks of
    [index_schema_file]. *)
Definition schema_open (s : scan) (n : Z) (name : string) : scan :=
  let rs :=
    match current_entity_name s with
    | Some cur =>
        if nonempty cur && in_entity s then record_range s cur (n - 1)
        else index_ranges s
    | None => index_ranges s
    end in
  mkScan n (Some name) n true (brace_count s) rs.

Definition schema_step (s : scan) (line : string) : scan :=
  let n := line_num s + 1 in
  let stripped := strip line in
  match match1 create_table_pattern line with
  | Some name => schema_open s n name
  | None =>
  match match1 create_type_pattern line with
  | Some name => schema_open s n name
  | None =>
  match match1 create_function_pattern line with
  | Some name => schema_open s n name
  | None =>
      if in_entity s && startswith ";" stripped then
        let rs :=
          match current_entity_name s with
          | Some cur =>
              if nonempty cur then record_range s cur n else index_ranges s
          | None => index_ranges s
          end in
        mkScan n None (current_entity_start s) false (brace_count s) rs
      else
        mkScan n (current_entity_name s) (current_entity_start s)
               (in_entity s) (brace_count s) (index_ranges s)
  end end end.

(** The last entity, closed at the last line read. *)
Definition scan_flush (s : scan) : Dict.t FileRange :=
  match current_entity_name s with
  | Some cur =>
      if nonempty cur && in_entity s then record_range s cur (line_num s)
      else index_ranges s
  | None => index_ranges s
  end.

Definition scan_schema (lines : list string) : Dict.t FileRange :=
  scan_flush (fold_left schema_step lines scan_start).

(** *** query.sql *)

Definition query_step (s : scan) (line : string) : scan :=
  let n := line_num s + 1 in
  match match1 query_pattern line with
  | Some name =>
      let rs :=
        match current_entity_name s with
        | Some cur =>
            if nonempty cur then record_range s cur (n - 1)
            else index_ranges s
        | None => index_ranges s
        end in
      mkScan n (Some name) n (in_entity s) (brace_count s) rs
  | None =>
      mkScan n (current_entity_name s) (current_entity_start s)
             (in_entity s) (brace_count s) (index_ranges s)
  end.

Definition query_flush (s : scan) : Dict.t FileRange :=
  match current_entity_name s with
  | Some cur =>
      if nonempty cur then record_range s cur (line_num s) else index_ranges s
  | None => index_ranges s
  end.

Definition scan_queries (lines : list string) : Dict.t FileRange :=
  query_flush (fold_left query_step lines scan_start).

(** *** generated Go files *)

(** [line.count('{') - line.count('}')] *)
Definition brace_delta (line : string) : Z := count "{" line - count "}" line.

(** An [if match:] block of [index_generated_file]; [guard] is the
    condition under which the entity that was open is recorded, [bc] the
    brace count the block leaves. *)
Definition generated_open (s : scan) (n : Z) (name : string)
           (guard : bool) (bc : Z) : scan :=
  let rs :=
    match current_entity_name s with
    | Some cur =>
        if nonempty cur && in_entity s && guard
        then record_range s cur (n - 1)
        else index_ranges s
    | None => index_ranges s
    end in
  mkScan n (Some name) n true bc rs.

Definition generated_step (s : scan) (line : string) : scan :=
  let n := line_num s + 1 in
  let trimmed := strip line in
  let bc := brace_count s + brace_delta line in
  match match1 func_pattern trimmed with
  | Some name => generated_open s n name true (brace_delta line)
  | None =>
  match match1 struct_pattern trimmed with
  | Some name => generated_open s n name (bc =? 0) (brace_delta line)
  | None =>
  match match1 interface_pattern trimmed with
  | Some name => generated_open s n name (bc =? 0) (brace_delta line)
  | None =>
  match (if negb (contains "struct" trimmed) && negb (contains "interface" trimmed)
         then match1 type_pattern trimmed else None) with
  | Some name => generated_open s n name (bc =? 0) bc
  | None =>
      if in_entity s && (bc =? 0) && nonempty trimmed
         && negb (startswith "//" trimmed) then
        let rs :=
          match current_entity_name s with
          | Some cur =>
              if nonempty cur then record_range s cur n else index_ranges s
          | None => index_ranges s
          end in
        mkScan n None (current_entity_start s) false bc rs
      else
        mkScan n (current_entity_name s) (current_entity_start s)
               (in_entity s) bc (index_ranges s)
  end end end end.

Definition scan_generated (lines : list string) : Dict.t FileRange :=
  scan_flush (fold_left generated_step lines scan_start).

(** The index of a file that is (re)indexed: its relative path, the
    number of lines [readlines] gives and the ranges of the scan. *)
Definition index_of (scanner : list string -> Dict.t FileRange)
           (relative_path content : string) : FileIndex :=
  let lines := readlines content in
  mkIndex relative_path (Z.of_nat (List.length lines)) (scanner lines).

Section Generator.

(** [hashlib.sha256(bytes).hexdigest()] *)
Variable sha256_hexdigest : string -> string.

(** The order in which a [set] holding the given elements (listed in
    insertion order) is iterated; it follows the hashes of the
    strings, which change from one process to the next. *)
Variable set_order : list string -> list string.

(** [self.config], the loaded [config.json]. *)
Variable config : json.

Variable fs : filesystem.

Definition config_str (key : string) : result string :=
  bind (Json.item key config) Json.as_str.

(** [self.config["generated"][key]] as a path *)
Definition config_generated (key : string) : result string :=
  g <- Json.item "generated" config ;;
  bind (Json.item key g) Json.as_str.

Definition _should_update_file (file_path relative_path : string) : M bool :=
  check_fingerprint sha256_hexdigest fs relative_path file_path.

(** [[lines[i].rstrip('\n') for i in range(start_line - 1,
    min(end_line, len(lines)))]] *)
Definition read_lines_of (lines : list string) (start_line end_line : Z)
  : result (list string) :=
  mapM (fun i => l <- index lines i ;; Ok (rstrip_newline l))
       (range (start_line - 1)
              (Z.min end_line (Z.of_nat (List.length lines)))).

Definition _read_file_lines (file_path : string) (start_line end_line : Z)
  : result (list string) :=
  content <- open_text fs file_path ;;
  read_lines_of (readlines content) start_line end_line.

Definition _read_file_range_content (file_path : string) (r : FileRange)
  : result string :=
  lines <- _read_file_lines file_path (start_line r) (end_line r) ;;
  Ok (join (String newline EmptyString) lines).

(** [index_schema_file], [index_query_file] and [index_generated_file]
    differ in the path and in the scan. *)
Definition index_file (scanner : list string -> Dict.t FileRange)
           (path : string) : M (option FileIndex) :=
  changed <~ _should_update_file path path ;;
  if negb changed then ret None
  else
    content <~ lift (open_text fs path) ;;
    ret (Some (index_of scanner path content)).

Definition index_schema_file : M (option FileIndex) :=
  schema_path <~ lift (config_str "schema_file") ;;
  index_file scan_schema schema_path.

Definition index_query_file : M (option FileIndex) :=
  query_path <~ lift (config_str "query_file") ;;
  index_file scan_queries query_path.

Definition index_generated_file (file_path : string) : M (option FileIndex) :=
  index_file scan_generated file_path.

(** *** Table dependencies *)

Definition table_patterns : list regex :=
  [ cat [Wb; liti "FROM"; s_plus; Grp w_plus];
    cat [Wb; liti "JOIN"; s_plus; Grp w_plus];
    cat [Wb; liti "INTO"; s_plus; Grp w_plus];
    cat [Wb; liti "UPDATE"; s_plus; Grp w_plus];
    cat [Wb; liti "DELETE"; s_plus; liti "FROM"; s_plus; Grp w_plus];
    cat [Wb; liti "INSERT"; s_plus; liti "INTO"; s_plus; Grp w_plus] ].

Definition sql_keywords : list string :=
  [ "SELECT"; "FROM"; "WHERE"; "JOIN"; "INNER"; "LEFT"; "RIGHT"; "FULL";
    "OUTER"; "ON"; "AS"; "AND"; "OR"; "NOT"; "IN"; "EXISTS"; "UNION";
    "INSERT"; "UPDATE"; "DELETE"; "INTO"; "SET"; "VALUES"; "WITH";
    "GROUP"; "ORDER"; "BY"; "HAVING"; "LIMIT"; "OFFSET"; "DISTINCT";
    "ALL"; "ANY"; "CASE"; "WHEN"; "THEN"; "ELSE"; "END"; "CAST";
    "COALESCE"; "NULL"; "TRUE"; "FALSE"; "IS"; "LIKE"; "ILIKE";
    "BETWEEN"; "ASC"; "DESC" ].

(** The [tables] set once the two nested loops are through. *)
Definition table_candidates (query_sql : string) : PySet.t :=
  fold_left
    (fun tables pattern =>
       fold_left
         (fun tables m =>
            let table_name := strip m in
            if negb (PySet.mem (upper table_name) sql_keywords)
            then PySet.add table_name tables
            else tables)
         (findall pattern query_sql) tables)
    table_patterns [].

Fixpoint table_dependencies (schema_path : string) (schema_index : FileIndex)
         (names : list string) : result (list TableDependency) :=
  match names with
  | [] => Ok []
  | table_name :: rest =>
      match Dict.get table_name (ranges schema_index) with
      | Some table_range =>
          table_sql <- _read_file_range_content schema_path table_range ;;
          deps <- table_dependencies schema_path schema_index rest ;;
          Ok (mkTable table_name table_range schema_path table_sql :: deps)
      | None => table_dependencies schema_path schema_index rest
      end
  end.

Definition extract_table_dependencies (query_sql : string)
           (schema_index : FileIndex) : result (list TableDependency) :=
  let tables := table_candidates query_sql in
  schema_path <- config_str "schema_file" ;;
  table_dependencies schema_path schema_index (set_order tables).

(** *** Generated code of a query *)

(** The first index of [generated_indices.values()] made from
    [relative]. *)
Definition index_for (relative : string)
           (generated_indices : Dict.t FileIndex) : option FileIndex :=
  find (fun idx => String.eqb (file_path idx) relative)
       (Dict.values generated_indices).

Fixpoint related_structs (models_go_path query_name : string)
         (items : list (string * FileRange)) : result (list GeneratedCode) :=
  match items with
  | [] => Ok []
  | (entity_name, entity_range) :: rest =>
      if contains (lower query_name) (lower entity_name)
         || contains (lower entity_name) (lower query_name)
      then
        code_content <- _read_file_range_content models_go_path entity_range ;;
        more <- related_structs models_go_path query_name rest ;;
        Ok (mkGenerated EntityType_STRUCT entity_name code_content
                        entity_range models_go_path :: more)
      else related_structs models_go_path query_name rest
  end.

Definition extract_generated_code (query_name : string)
           (generated_indices : Dict.t FileIndex) : result (list GeneratedCode) :=
  query_go_path <- config_generated "query_sql_go" ;;
  from_query_go <-
    (if exists_ fs query_go_path then
       match index_for query_go_path generated_indices with
       | Some query_go_index =>
           match Dict.get query_name (ranges query_go_index) with
           | Some code_range =>
               code_content <- _read_file_range_content query_go_path code_range ;;
               Ok [mkGenerated EntityType_FUNCTION query_name code_content
                               code_range query_go_path]
           | None => Ok []
           end
       | None => Ok []
       end
     else Ok []) ;;
  models_go_path <- config_generated "models_sql_go" ;;
  from_models_go <-
    (if exists_ fs models_go_path then
       match index_for models_go_path generated_indices with
       | Some models_go_index =>
           related_structs models_go_path query_name (ranges models_go_index)
       | None => Ok []
       end
     else Ok []) ;;
  Ok (from_query_go ++ from_models_go).

Definition generate_query_cache (query_name : string) (query_range : FileRange)
           (schema_index : FileIndex) (generated_indices : Dict.t FileIndex)
  : result QueryCache :=
  query_path <- config_str "query_file" ;;
  query_sql <- _read_file_range_content query_path query_range ;;
  tables <- extract_table_dependencies query_sql schema_index ;;
  generated_code <- extract_generated_code query_name generated_indices ;;
  Ok (mkQueryCache query_name query_sql query_range query_path
                   tables generated_code).

(** *** Persistence *)

Definition save_index (index : FileIndex) (filename : string) : M unit :=
  write_document filename (FileIndex_to_dict index).

Definition cache_file_name (query_name : string) : string :=
  (query_name ++ ".cache.json")%string.

Definition save_query_cache (cache : QueryCache) : M unit :=
  write_cache (cache_file_name (query_name cache)) (QueryCache_to_dict cache).

(** [if index_file.exists(): data = json.load(f); FileIndex(...)] *)
Definition load_index (filename : string) : M (option FileIndex) :=
  fun s =>
    match Dict.get filename (cache_dir s) with
    | Some data =>
        match FileIndex_of_json data with
        | Ok index => (Ok (Some index), s)
        | Raise e => (Raise e, s)
        end
    | None => (Ok None, s)
    end.

Definition index_file_name (gen_file_path : string) : string :=
  (path_stem gen_file_path ++ ".index.json")%string.

(** *** [generate] *)

(** The first loop over [self.config["generated"].items()]. *)
Fixpoint index_generated (items : list (string * json))
         (generated_indices : Dict.t FileIndex) : M (Dict.t FileIndex) :=
  match items with
  | [] => ret generated_indices
  | (gen_file_key, gen_file_path) :: rest =>
      gen_path <~ lift (Json.as_str gen_file_path) ;;
      if exists_ fs gen_path then
        gen_index <~ index_generated_file gen_path ;;
        match gen_index with
        | Some index =>
            _ <~ save_index index (index_file_name gen_path) ;;
            index_generated rest (Dict.set gen_file_key index generated_indices)
        | None => index_generated rest generated_indices
        end
      else index_generated rest generated_indices
  end.

(** The second one, for the files that were not indexed anew. *)
Fixpoint load_generated (items : list (string * json))
         (generated_indices : Dict.t FileIndex) : M (Dict.t FileIndex) :=
  match items with
  | [] => ret generated_indices
  | (gen_file_key, gen_file_path) :: rest =>
      if negb (Dict.mem gen_file_key generated_indices) then
        gen_path <~ lift (Json.as_str gen_file_path) ;;
        loaded <~ load_index (index_file_name gen_path) ;;
        match loaded with
        | Some index =>
            load_generated rest (Dict.set gen_file_key index generated_indices)
        | None => load_generated rest generated_indices
        end
      else load_generated rest generated_indices
  end.

(** The loop over [query_index.ranges.items()]; a query whose cache
    raises is reported and skipped. *)
Fixpoint generate_caches (queries : list (string * FileRange))
         (schema_index : FileIndex) (generated_indices : Dict.t FileIndex)
  : M unit :=
  match queries with
  | [] => ret tt
  | (query_name, query_range) :: rest =>
      _ <~ try_except
             (cache <~ lift (generate_query_cache query_name query_range
                               schema_index generated_indices) ;;
              save_query_cache cache)
             (fun e => print (UnitFailed query_name e)) ;;
      generate_caches rest schema_index generated_indices
  end.

Definition or_load (index : option FileIndex) (filename : string)
  : M (option FileIndex) :=
  match index with
  | Some i => ret (Some i)
  | None => load_index filename
  end.

Definition generate : M unit :=
  schema_index <~ index_schema_file ;;
  _ <~ match schema_index with
       | Some index => save_index index "schema.sql.index.json"
       | None => ret tt
       end ;;
  query_index <~ index_query_file ;;
  _ <~ match query_index with
       | Some index => save_index index "query.sql.index.json"
       | None => ret tt
       end ;;
  generated <~ lift (bind (Json.item "generated" config) Json.items) ;;
  generated_indices <~ index_generated generated Dict.empty ;;
  schema_index <~ or_load schema_index "schema.sql.index.json" ;;
  query_index <~ or_load query_index "query.sql.index.json" ;;
  generated_indices <~ load_generated generated generated_indices ;;
  _ <~ match query_index, schema_index with
       | Some q, Some s => generate_caches (ranges q) s generated_indices
       | _, _ => ret tt
       end ;;
  _save_hashes.

(** [CacheGenerator(config_path)]: the configuration must name the
    base path and the cache directory; the stored hashes are loaded. *)
Definition init : M unit :=
  _ <~ lift (Json.item "base_path" config) ;;
  _ <~ lift (Json.item "cache_dir" config) ;;
  _load_hashes.

(** One run of the program over a cache directory: a new generator
    object, then [generate].  [Raise] is the error exit. *)
Definition run (stored_hashes : option (Dict.t string)) (dir : Dict.t json)
  : result unit * state :=
  (_ <~ init ;; generate) (fresh stored_hashes dir).

End Generator.

End CacheGenerator.

(* ================================================================== *)
(** * api_cache_generator.py *)
(* ================================================================== *)

Module ApiCacheGenerator.
Import Py Re Runtime.

(** ** Data classes *)

Record PathEntry := mkPath {
  operation_id : string;
  method : string;
  path : string;
  path_range : FileRange
}.

Record SchemaEntry := mkSchema {
  schema_name : string;
  schema_range : FileRange
}.

Record BoilerplateEntity := mkEntity {
  entity_type : string;      (* struct, func, const, var, type *)
  entity_name : string;
  entity_file : string;
  entity_range : FileRange;
  entity_code : string
}.

Definition PathEntry_to_dict (e : PathEntry) : json :=
  JObj [("operation_id", JStr (operation_id e));
        ("method", JStr (method e));
        ("path", JStr (path e));
        ("range", FileRange_to_dict (path_range e))].

Definition SchemaEntry_to_dict (e : SchemaEntry) : json :=
  JObj [("name", JStr (schema_name e));
        ("range", FileRange_to_dict (schema_range e))].

Definition BoilerplateEntity_to_dict (e : BoilerplateEntity) : json :=
  JObj [("type", JStr (entity_type e));
        ("name", JStr (entity_name e));
        ("file", JStr (entity_file e));
        ("range", FileRange_to_dict (entity_range e));
        ("code", JStr (entity_code e))].

(** ** Patterns *)

(** [^\s{4}(get|post|put|delete|patch|options|head):\s*$], IGNORECASE *)
Definition method_re : regex :=
  cat [Bol; s1; s1; s1; s1;
       Grp (alt [liti "get"; liti "post"; liti "put"; liti "delete";
                 liti "patch"; liti "options"; liti "head"]);
       lit ":"; s_star; Eol].

(** [^\s{2}(/.+):\s*$] *)
Definition path_re : regex :=
  cat [Bol; s1; s1; Grp (cat [lit "/"; plus dot]); lit ":"; s_star; Eol].

(** [^\s{4}(\w+):\s*$] *)
Definition schema_header_re : regex :=
  cat [Bol; s1; s1; s1; s1; Grp w_plus; lit ":"; s_star; Eol].

(** [^type\s+(\w+)\s+struct\b] *)
Definition struct_re : regex :=
  cat [Bol; lit "type"; s_plus; Grp w_plus; s_plus; lit "struct"; Wb].

(** [^func\s+\(siw \*ServerInterfaceWrapper\)\s+(\w+)\s*\(] *)
Definition func_re : regex :=
  cat [Bol; lit "func"; s_plus; lit "(siw *ServerInterfaceWrapper)"; s_plus;
       Grp w_plus; s_star; lit "("].

(** [^(const|var)\s+(\w+)\b] *)
Definition const_var_re : regex :=
  cat [Bol; Grp (Alt (lit "const") (lit "var")); s_plus; Grp w_plus; Wb].

(** [^type\s+(\w+)\s+[^\s]+] *)
Definition type_re : regex :=
  cat [Bol; lit "type"; s_plus; Grp w_plus; s_plus;
       plus (fun c => negb (isspace c))].

(** [#/components/schemas/([A-Za-z0-9_]+)] *)
Definition schema_ref_re : regex :=
  cat [lit "#/components/schemas/"; Grp (plus isword)].

(** ** Low-level file helpers *)

(** [_read_range] on the lines of the file. *)
Definition read_range_of (lines : list string) (fr : FileRange) : string :=
  let start := Z.max (start_line fr) 1 - 1 in
  let end_ := Z.min (end_line fr) (Z.of_nat (List.length lines)) in
  join EmptyString (slice lines start end_).

(** ** Indexing the paths of taskflow.yaml *)

(** [path_re.match(l) or l.strip().startswith("components:")] *)
Definition ends_operation (l : string) : bool :=
  matches path_re l || startswith "components:" (strip l).

(** The innermost loop, over [k]: the last line before the next path or
    [components:]. *)
Fixpoint extend_range (lines : list string) (k : Z) (end_line : Z) : Z :=
  match lines with
  | [] => end_line
  | l :: rest =>
      if ends_operation l then end_line
      else extend_range rest (k + 1) (k + 1)
  end.

(** The loop over [j]: the first [operationId:] of the method block, if
    any, is entered in [paths]. *)
Fixpoint scan_operation (lines : list string) (j : Z)
         (current_path_line : Z) (current_path current_method : string)
         (paths : Dict.t PathEntry) : Dict.t PathEntry :=
  match lines with
  | [] => paths
  | l2 :: rest =>
      let s2 := strip l2 in
      let lineno2 := j + 1 in
      if ends_operation l2 then paths
      else if startswith "operationId:" s2 then
        match after_first "operationId:" s2 with
        | Some parts =>
            let op_id := strip parts in
            let op_start := current_path_line in
            let end_line := extend_range rest (j + 1) lineno2 in
            if nonempty op_id
            then Dict.set op_id
                   (mkPath op_id current_method current_path
                           (mkRange op_start end_line)) paths
            else paths
        | None => paths
        end
      else scan_operation rest (j + 1) current_path_line current_path
                          current_method paths
  end.

(** The loop variables of [index_paths].  [current_path_line] is [None]
    in Python until the first path key; it is read under
    [current_path] only, which is assigned with it. *)
Record paths_scan := mkPathsScan {
  paths_section_started : bool;
  current_path_line : Z;
  current_path : option string;
  current_method : option string;
  paths : Dict.t PathEntry
}.

Definition paths_scan_start : paths_scan :=
  mkPathsScan false 0 None None Dict.empty.

Fixpoint paths_loop (lines : list string) (i : Z) (st : paths_scan)
  : Dict.t PathEntry :=
  match lines with
  | [] => paths st
  | line :: rest =>
      let stripped := strip line in
      let lineno := i + 1 in
      if negb (paths_section_started st) && String.eqb stripped "paths:" then
        paths_loop rest (i + 1)
          (mkPathsScan true (current_path_line st) (current_path st)
                       (current_method st) (paths st))
      else if negb (paths_section_started st) then paths_loop rest (i + 1) st
      else if startswith "components:" stripped then paths st
      else
        match match1 path_re line with
        | Some p =>
            paths_loop rest (i + 1)
              (mkPathsScan true lineno (Some p) None (paths st))
        | None =>
            match match1 method_re line, current_path st with
            | Some m, Some cur =>
                if nonempty cur then
                  let current_method := upper m in
                  paths_loop rest (i + 1)
                    (mkPathsScan true (current_path_line st) (Some cur)
                       (Some current_method)
                       (scan_operation rest (i + 1) (current_path_line st)
                                       cur current_method (paths st)))
                else paths_loop rest (i + 1) st
            | _, _ => paths_loop rest (i + 1) st
            end
        end
  end.

Definition scan_paths (lines : list string) : Dict.t PathEntry :=
  paths_loop lines 0 paths_scan_start.

(** ** Indexing the schemas of taskflow.yaml *)

(** The two [break] conditions of the inner loop of [index_schemas]. *)
Definition ends_schema (l2 : string) : bool :=
  let s2 := rstrip_newline l2 in
  matches schema_header_re l2
  || (nonempty (strip s2) && negb (startswith "      " s2)
      && negb (startswith "    " s2)).

(** The loop over [i]; at a schema header the loop over [j] runs to the
    end of the schema and the outer loop resumes there ([i = j]). *)
Fixpoint schemas_loop (lines : list string) (i : Z) (schemas_started : bool)
         (schemas : Dict.t SchemaEntry) {struct lines} : Dict.t SchemaEntry :=
  match lines with
  | [] => schemas
  | line :: rest =>
      let stripped := strip line in
      let lineno := i + 1 in
      if negb schemas_started && String.eqb stripped "schemas:" then
        schemas_loop rest (i + 1) true schemas
      else if negb schemas_started then
        schemas_loop rest (i + 1) schemas_started schemas
      else
        match match1 schema_header_re line with
        | Some name =>
            let start := lineno in
            (fix inner (ls : list string) (j : Z) (end_ : Z) {struct ls}
               : Dict.t SchemaEntry :=
               let found :=
                 Dict.set name (mkSchema name (mkRange start end_)) schemas in
               match ls with
               | [] => found
               | l2 :: r2 =>
                   if ends_schema l2
                   then schemas_loop ls j schemas_started found
                   else inner r2 (j + 1) (j + 1)
               end) rest (i + 1) start
        | None => schemas_loop rest (i + 1) schemas_started schemas
        end
  end.

Definition scan_schemas (lines : list string) : Dict.t SchemaEntry :=
  schemas_loop lines 0 false Dict.empty.

(** ** Indexing boilerplate.gen.go *)

Record entities_scan := mkEntitiesScan {
  current_name : option string;
  current_type : option string;
  current_start : Z;
  brace_count : Z;
  entities : Dict.t BoilerplateEntity
}.

Definition entities_scan_start : entities_scan :=
  mkEntitiesScan None None 0 0 Dict.empty.

(** [line.count("{") - line.count("}")] *)
Definition brace_delta (line : string) : Z := count "{" line - count "}" line.

Section Boilerplate.

(** The path of the file, relative to the base path, and its lines
    ([_read_range] reads them again for the code of each entity). *)
Variable file : string.
Variable lines : list string.

(** The entity that is open, with the range and code the five closing
    blocks and the final flush give it. *)
Definition close_entity (st : entities_scan) (guard : bool) (end_line : Z)
  : Dict.t BoilerplateEntity :=
  match current_name st, current_type st with
  | Some name, Some type =>
      if nonempty name && nonempty type && guard then
        let fr := mkRange (current_start st) end_line in
        let code := read_range_of lines fr in
        Dict.set name (mkEntity type name file fr code) (entities st)
      else entities st
  | _, _ => entities st
  end.

(** [lineno - 1 if lineno > current_start else current_start] *)
Definition end_before (st : entities_scan) (lineno : Z) : Z :=
  if current_start st <? lineno then lineno - 1 else current_start st.

Definition entities_step (st : entities_scan) (i : Z) (line : string)
  : entities_scan :=
  let stripped := strip line in
  let lineno := i + 1 in
  let bc := brace_count st + brace_delta line in
  let m_struct := match_ struct_re line in
  let m_func := match_ func_re line in
  let m_const := match_ const_var_re line in
  let m_type := match_ type_re line in
  match m_func with
  | Some g =>
      mkEntitiesScan (Some (group 1 g)) (Some "func") lineno (brace_delta line)
        (close_entity st true (end_before st lineno))
  | None =>
  match m_struct with
  | Some g =>
      mkEntitiesScan (Some (group 1 g)) (Some "struct") lineno
        (brace_delta line)
        (close_entity st (bc =? 0) (end_before st lineno))
  | None =>
  match m_const with
  | Some g =>
      mkEntitiesScan (Some (group 2 g)) (Some (group 1 g)) lineno bc
        (close_entity st (bc =? 0) (end_before st lineno))
  | None =>
  match (if matches struct_re line then None else m_type) with
  | Some g =>
      mkEntitiesScan (Some (group 1 g)) (Some "type") lineno bc
        (close_entity st (bc =? 0) (end_before st lineno))
  | None =>
      if truthy (current_name st) && truthy (current_type st) && (bc =? 0)
         && nonempty stripped && negb (startswith "//" stripped)
      then mkEntitiesScan None None (current_start st) bc
             (close_entity st true (end_before st lineno))
      else mkEntitiesScan (current_name st) (current_type st)
             (current_start st) bc (entities st)
  end end end end.

Fixpoint entities_loop (rest : list string) (i : Z) (st : entities_scan)
  : entities_scan :=
  match rest with
  | [] => st
  | line :: rest' => entities_loop rest' (i + 1) (entities_step st i line)
  end.

Definition scan_entities : Dict.t BoilerplateEntity :=
  let total_lines := Z.of_nat (List.length lines) in
  close_entity (entities_loop lines 0 entities_scan_start) true total_lines.

End Boilerplate.

(** ** The stored indices *)

Definition index_document (file_path : string) (total_lines : Z)
           (key : string) (entries : Dict.t json) : json :=
  JObj [("file_path", JStr file_path);
        ("total_lines", JInt total_lines);
        (key, JObj entries)].

(** [FileRange(r["start_line"], r["end_line"])] *)
Definition range_of (r : json) : result FileRange :=
  s <- bind (Json.item "start_line" r) Json.as_int ;;
  e <- bind (Json.item "end_line" r) Json.as_int ;;
  Ok (mkRange s e).

(** The loop [for key, info in data.get(section, {}).items()] of the
    three loaders, [entry] building the value stored under [key]. *)
Definition load_entries {V} (section : string)
           (entry : string -> json -> result V) (data : json)
  : result (Dict.t V) :=
  items <- bind (Json.get_default section (JObj Dict.empty) data) Json.items ;;
  entries <- mapM (fun kv => v <- entry (fst kv) (snd kv) ;; Ok (fst kv, v)) items ;;
  Ok (Dict.of_items entries).

Definition PathEntry_of_json (op_id : string) (info : json) : result PathEntry :=
  r <- Json.item "range" info ;;
  m <- bind (Json.item "method" info) Json.as_str ;;
  p <- bind (Json.item "path" info) Json.as_str ;;
  fr <- range_of r ;;
  Ok (mkPath op_id m p fr).

Definition SchemaEntry_of_json (name : string) (info : json) : result SchemaEntry :=
  r <- Json.item "range" info ;;
  fr <- range_of r ;;
  Ok (mkSchema name fr).

Definition BoilerplateEntity_of_json (name : string) (info : json)
  : result BoilerplateEntity :=
  r <- Json.item "range" info ;;
  t <- bind (Json.item "type" info) Json.as_str ;;
  f <- bind (Json.item "file" info) Json.as_str ;;
  fr <- range_of r ;;
  c <- bind (Json.get_default "code" (JStr EmptyString) info) Json.as_str ;;
  Ok (mkEntity t name f fr c).

Definition paths_document (spec_file : string) (total_lines : Z)
           (paths : Dict.t PathEntry) : json :=
  index_document spec_file total_lines "paths"
                 (Dict.map_values PathEntry_to_dict paths).

Definition schemas_document (spec_file : string) (total_lines : Z)
           (schemas : Dict.t SchemaEntry) : json :=
  index_document spec_file total_lines "schemas"
                 (Dict.map_values SchemaEntry_to_dict schemas).

Definition entities_document (boilerplate_file : string) (total_lines : Z)
           (entities : Dict.t BoilerplateEntity) : json :=
  index_document boilerplate_file total_lines "entities"
                 (Dict.map_values BoilerplateEntity_to_dict entities).

Definition load_paths : json -> result (Dict.t PathEntry) :=
  load_entries "paths" PathEntry_of_json.

Definition load_schemas : json -> result (Dict.t SchemaEntry) :=
  load_entries "schemas" SchemaEntry_of_json.

Definition load_entities : json -> result (Dict.t BoilerplateEntity) :=
  load_entries "entities" BoilerplateEntity_of_json.

(** ** Reference resolution *)

(** The [dict] literal [_extract_schema_dependencies] appends for a
    referenced schema. *)
Record SchemaDependency := mkDependency {
  dep_name : string;
  dep_range : FileRange;
  dep_file : string;
  dep_schema_yaml : string
}.

Definition SchemaDependency_to_dict (d : SchemaDependency) : json :=
  JObj [("name", JStr (dep_name d));
        ("range", FileRange_to_dict (dep_range d));
        ("file", JStr (dep_file d));
        ("schema_yaml", JStr (dep_schema_yaml d))].

Definition related (op_id name : string) : bool :=
  String.eqb name op_id || startswith op_id name || contains op_id name.

Definition _extract_boilerplate_entities_for_op (op_id : string)
           (boilerplate_index : Dict.t BoilerplateEntity) : list json :=
  List.map (fun kv => BoilerplateEntity_to_dict (snd kv))
           (filter (fun kv => related op_id (fst kv)) boilerplate_index).

(** ** The generator *)

Section Generator.

Variable sha256_hexdigest : string -> string.
Variable fs : filesystem.

(** [self.spec_file] and [self.boilerplate_file], set by [__init__]. *)
Variable spec_file : string.
Variable boilerplate_file : string.

Definition _should_reindex (rel_key path : string) : M bool :=
  check_fingerprint sha256_hexdigest fs rel_key path.

Definition _read_all_lines (path : string) : result (list string) :=
  content <- open_text fs path ;;
  Ok (readlines content).

Definition _read_range (path : string) (fr : FileRange) : result string :=
  lines <- _read_all_lines path ;;
  Ok (read_range_of lines fr).

(** What [index_paths], [index_schemas] and [index_boilerplate] share:
    an unchanged file whose index document exists is loaded from it;
    otherwise the file is scanned and the document written. *)
Definition index_with {V} (rel_key path index_name : string)
           (load : json -> result (Dict.t V))
           (scan : list string -> Dict.t V)
           (document : Z -> Dict.t V -> json) : M (Dict.t V) :=
  changed <~ _should_reindex rel_key path ;;
  fun s =>
    match (if changed then None else Dict.get index_name (cache_dir s)) with
    | Some data => lift (load data) s
    | None =>
        (lines <~ lift (_read_all_lines path) ;;
         let total_lines := Z.of_nat (List.length lines) in
         let found := scan lines in
         _ <~ write_document index_name (document total_lines found) ;;
         ret found) s
    end.

Definition index_paths : M (Dict.t PathEntry) :=
  index_with "taskflow.yaml" spec_file "taskflow.paths.index.json"
             load_paths scan_paths (paths_document spec_file).

Definition index_schemas : M (Dict.t SchemaEntry) :=
  index_with "taskflow.yaml.schemas" spec_file "taskflow.schemas.index.json"
             load_schemas scan_schemas (schemas_document spec_file).

Definition index_boilerplate : M (Dict.t BoilerplateEntity) :=
  index_with "boilerplate.gen.go" boilerplate_file
             "boilerplate.gen.go.index.json"
             load_entities (scan_entities boilerplate_file)
             (entities_document boilerplate_file).

(** The loop of [_extract_schema_dependencies] over the matches. *)
Fixpoint schema_dependencies (schema_index : Dict.t SchemaEntry)
         (refs : list string) (seen : PySet.t)
  : result (list SchemaDependency) :=
  match refs with
  | [] => Ok []
  | m :: rest =>
      if PySet.mem m seen then schema_dependencies schema_index rest seen
      else
        let seen' := PySet.add m seen in
        match Dict.get m schema_index with
        | Some entry =>
            schema_yaml <- _read_range spec_file (schema_range entry) ;;
            deps <- schema_dependencies schema_index rest seen' ;;
            Ok (mkDependency m (schema_range entry) spec_file schema_yaml
                  :: deps)
        | None => schema_dependencies schema_index rest seen'
        end
  end.

Definition _extract_schema_dependencies (op_block : string)
           (schema_index : Dict.t SchemaEntry)
  : result (list SchemaDependency) :=
  schema_dependencies schema_index (findall schema_ref_re op_block) [].

Definition cache_file_name (op_id : string) : string :=
  (op_id ++ ".api.cache.json")%string.

Definition operation_cache (op : PathEntry)
           (schema_index : Dict.t SchemaEntry)
           (boilerplate_index : Dict.t BoilerplateEntity) : result json :=
  op_block <- _read_range spec_file (path_range op) ;;
  schemas <- _extract_schema_dependencies op_block schema_index ;;
  let boilerplate_entities :=
    _extract_boilerplate_entities_for_op (operation_id op) boilerplate_index in
  Ok (JObj [("operation_id", JStr (operation_id op));
            ("path", JStr (path op));
            ("method", JStr (method op));
            ("spec_file", JStr spec_file);
            ("path_range", FileRange_to_dict (path_range op));
            ("path_yaml", JStr op_block);
            ("schemas", JArr (List.map SchemaDependency_to_dict schemas));
            ("boilerplate",
             JObj [("file", JStr boilerplate_file);
                   ("entities", JArr boilerplate_entities)])]).

Definition generate_operation_cache (op : PathEntry)
           (schema_index : Dict.t SchemaEntry)
           (boilerplate_index : Dict.t BoilerplateEntity) : M unit :=
  cache_obj <~ lift (operation_cache op schema_index boilerplate_index) ;;
  write_cache (cache_file_name (operation_id op)) cache_obj.

Fixpoint generate_caches (operations : list (string * PathEntry))
         (schema_index : Dict.t SchemaEntry)
         (boilerplate_index : Dict.t BoilerplateEntity) : M unit :=
  match operations with
  | [] => ret tt
  | (op_id, entry) :: rest =>
      _ <~ try_except
             (generate_operation_cache entry schema_index boilerplate_index)
             (fun e => print (UnitFailed op_id e)) ;;
      generate_caches rest schema_index boilerplate_index
  end.

Definition generate : M unit :=
  paths_index <~ index_paths ;;
  schemas_index <~ index_schemas ;;
  boilerplate_index <~ index_boilerplate ;;
  _ <~ generate_caches paths_index schemas_index boilerplate_index ;;
  _save_hashes.

End Generator.

(** [ApiCacheGenerator(config_path)] then [generate()]: one run of the
    program over a cache directory.  [Raise] is the error exit. *)
Definition run (sha256_hexdigest : string -> string) (config : json)
           (fs : filesystem)
           (stored_hashes : option (Dict.t string)) (dir : Dict.t json)
  : result unit * state :=
  (_ <~ lift (Json.item "base_path" config) ;;
   spec_file <~ lift (bind (Json.item "spec_file" config) Json.as_str) ;;
   boilerplate_file <~
     lift (bind (Json.item "boilerplate_file" config) Json.as_str) ;;
   _ <~ _load_hashes ;;
   generate sha256_hexdigest fs spec_file boilerplate_file)
    (fresh stored_hashes dir).

End ApiCacheGenerator.

(* ================================================================== *)
(** * Notions the statements use *)
(* ================================================================== *)

(** The elements of a list in order of first appearance. *)
Fixpoint first_seen_from (seen l : list string) : list string :=
  match l with
  | [] => []
  | x :: r =>
      if existsb (String.eqb x) seen then first_seen_from seen r
      else x :: first_seen_from (seen ++ [x]) r
  end.

Definition first_seen (l : list string) : list string := first_seen_from [] l.

(** The captures of the six table patterns of [extract_table_dependencies]
    in a query, pattern after pattern, and the test that keeps a capture. *)
Definition table_captures (query_sql : string) : list string :=
  flat_map (fun pattern => Re.findall pattern query_sql)
           CacheGenerator.table_patterns.

Definition is_table_name (t : string) : bool :=
  negb (PySet.mem (Py.upper t) CacheGenerator.sql_keywords).

(** The table names a query refers to, in the order in which the [tables]
    set receives them. *)
Definition referenced_tables (query_sql : string) : list string :=
  first_seen (filter is_table_name (List.map Py.strip (table_captures query_sql))).

(** The stored document of a file is current when, the stored digest
    being the digest of the file, it is the document of the file's
    index: what a run that indexed the file leaves behind. *)
Definition document_current (sha : string -> string)
           (scanner : list string -> Dict.t FileRange)
           (path content filename : string)
           (table : Dict.t string) (dir : Dict.t json) : Prop :=
  Dict.get path table = Some (sha content) ->
  Dict.get filename dir
  = Some (CacheGenerator.FileIndex_to_dict
            (CacheGenerator.index_of scanner path content)).

(** The cache document of a query, written under its name, whose list of
    generated code is empty. *)
Definition bare_cache (query_path : string) (unit : string * FileRange)
           (w : string * json) : Prop :=
  fst w = CacheGenerator.cache_file_name (fst unit)
  /\ exists sql tables,
      snd w = CacheGenerator.QueryCache_to_dict
                (CacheGenerator.mkQueryCache (fst unit) sql (snd unit)
                                             query_path tables []).

(** Two ranges of one file that share no line. *)
Definition disjoint_ranges (a b : FileRange) : Prop :=
  end_line a < start_line b \/ end_line b < start_line a.

(** A range of a file of [total] lines. *)
Definition valid_range (total : Z) (r : FileRange) : Prop :=
  1 <= start_line r /\ start_line r <= end_line r /\ end_line r <= total.

(** The lines [first..last] (1-indexed, inclusive) of a file, cut at its
    end. *)
Definition lines_from_to (lines : list string) (first last : Z) : list string :=
  firstn (Z.to_nat (Z.min last (Z.of_nat (List.length lines)) - (first - 1)))
         (skipn (Z.to_nat (first - 1)) lines).

(** An index of [api_cache_generator.py] is settled in a state when its
    document is stored and loads as the index, and the stored digest of
    its file, if the file exists, is the current one: the next indexing
    loads the document. *)
Definition settled {V} (sha : string -> string) (fs : filesystem)
           (rel_key path index_name : string)
           (load : json -> Py.result (Dict.t V)) (index : Dict.t V)
           (s : Runtime.state) : Prop :=
  (exists data, Dict.get index_name (Runtime.cache_dir s) = Some data
                /\ load data = Py.Ok index)
  /\ (forall content, fs path = Some content ->
                      Dict.get rel_key (Runtime.hashes s) = Some (sha content)).

(** The cache documents [api_cache_generator.py] writes for the
    operations of a path index: one for each operation whose cache can
    be assembled, under the name of the operation. *)
Fixpoint operation_caches (fs : filesystem) (spec_file boilerplate_file : string)
         (operations : list (string * ApiCacheGenerator.PathEntry))
         (schema_index : Dict.t ApiCacheGenerator.SchemaEntry)
         (boilerplate_index : Dict.t ApiCacheGenerator.BoilerplateEntity)
  : list (string * json) :=
  match operations with
  | [] => []
  | (_, entry) :: rest =>
      let more := operation_caches fs spec_file boilerplate_file rest
                                   schema_index boilerplate_index in
      match ApiCacheGenerator.operation_cache fs spec_file boilerplate_file
              entry schema_index boilerplate_index with
      | Py.Ok doc =>
          (ApiCacheGenerator.cache_file_name
             (ApiCacheGenerator.operation_id entry), doc) :: more
      | Py.Raise _ => more
      end
  end.

(** The names of the three index documents of [api_cache_generator.py]. *)
Definition api_index_names : list string :=
  ["taskflow.paths.index.json"; "taskflow.schemas.index.json";
   "boilerplate.gen.go.index.json"].

(** ** Invariants of the scans *)

(** What holds of the loop variables after every line: the ranges
    recorded so far lie within the lines read, and an open entity
    started on one of them. *)
Record scan_inv (s : CacheGenerator.scan) : Prop := {
  inv_wf : Dict.wf (CacheGenerator.index_ranges s);
  inv_ranges :
    Forall (fun kv => valid_range (CacheGenerator.line_num s) (snd kv))
           (CacheGenerator.index_ranges s);
  inv_line : 0 <= CacheGenerator.line_num s;
  inv_current :
    CacheGenerator.current_entity_name s <> None ->
    1 <= CacheGenerator.current_entity_start s <= CacheGenerator.line_num s
}.

(** An entry of the three indices: stored under its own name, with a
    range of the file. *)
Definition path_ok (total : Z) (kv : string * ApiCacheGenerator.PathEntry)
  : Prop :=
  ApiCacheGenerator.operation_id (snd kv) = fst kv
  /\ valid_range total (ApiCacheGenerator.path_range (snd kv)).

Definition schema_ok (total : Z) (kv : string * ApiCacheGenerator.SchemaEntry)
  : Prop :=
  ApiCacheGenerator.schema_name (snd kv) = fst kv
  /\ valid_range total (ApiCacheGenerator.schema_range (snd kv)).

Definition entity_ok (total : Z)
           (kv : string * ApiCacheGenerator.BoilerplateEntity) : Prop :=
  ApiCacheGenerator.entity_name (snd kv) = fst kv
  /\ valid_range total (ApiCacheGenerator.entity_range (snd kv)).

(** After [i] lines: the entities recorded lie within them, and an
    open entity started on one of them. *)
Record entities_inv (i : Z) (st : ApiCacheGenerator.entities_scan)
  : Prop := {
  einv_wf : Dict.wf (ApiCacheGenerator.entities st);
  einv_entities : Forall (entity_ok i) (ApiCacheGenerator.entities st);
  einv_current :
    ApiCacheGenerator.current_name st <> None ->
    1 <= ApiCacheGenerator.current_start st <= i
}.

(** ** Notions of the later sections *)

(** The header lines of a query file, [-- name: X :kind], from line [n]
    on: the number of the line and the name. *)
Fixpoint query_headers (lines : list string) (n : Z) : list (Z * string) :=
  match lines with
  | [] => []
  | l :: rest =>
      match Re.match1 CacheGenerator.query_pattern l with
      | Some name => (n, name) :: query_headers rest (n + 1)
      | None => query_headers rest (n + 1)
      end
  end.

(** Each header with the lines down to the next header, the last one
    with the lines down to line [total]. *)
Fixpoint header_ranges (headers : list (Z * string)) (total : Z)
  : list (string * FileRange) :=
  match headers with
  | [] => []
  | (n, name) :: rest =>
      (name, mkRange n match rest with
                       | (m, _) :: _ => m - 1
                       | [] => total
                       end)
        :: header_ranges rest total
  end.

(** The header that is open in the scan of a query file, with its
    line. *)
Definition open_header (s : CacheGenerator.scan) : list (Z * string) :=
  match CacheGenerator.current_entity_name s with
  | Some cur => [(CacheGenerator.current_entity_start s, cur)]
  | None => []
  end.

(** An item whose key is not the empty string, and the assignment
    [d[key] = value] of an item. *)
Definition named {V} (kv : string * V) : bool := Py.nonempty (fst kv).

Definition assign {V} (d : Dict.t V) (kv : string * V) : Dict.t V :=
  Dict.set (fst kv) (snd kv) d.

(** No two entries of an index share a line, [range] giving the range
    of an entry. *)
Definition apart_by {V} (range : V -> FileRange) (d : Dict.t V) : Prop :=
  forall k1 v1 k2 v2,
    In (k1, v1) d -> In (k2, v2) d -> k1 <> k2 ->
    disjoint_ranges (range v1) (range v2).

(** The entries of [d] end on line [n] at the latest. *)
Definition end_by {V} (range : V -> FileRange) (n : Z) (d : Dict.t V) : Prop :=
  Forall (fun kv => end_line (range (snd kv)) <= n) d.


(** What the scans of [cache_generator.py] keep besides [scan_inv]: the
    units recorded share no line, end on a line read and, while an
    entity is open, end before its first line. *)
Record scan_apart (s : CacheGenerator.scan) : Prop := {
  apart_units : apart_by (fun r => r) (CacheGenerator.index_ranges s);
  apart_read :
    end_by (fun r => r) (CacheGenerator.line_num s)
           (CacheGenerator.index_ranges s);
  apart_open :
    CacheGenerator.current_entity_name s <> None ->
    end_by (fun r => r) (CacheGenerator.current_entity_start s - 1)
           (CacheGenerator.index_ranges s)
}.

(** What the scan of [boilerplate.gen.go] keeps besides [entities_inv]:
    the entities recorded share no line and, while an entity is open,
    end before its first line. *)
Definition entities_apart (st : ApiCacheGenerator.entities_scan) : Prop :=
  apart_by ApiCacheGenerator.entity_range (ApiCacheGenerator.entities st)
  /\ (ApiCacheGenerator.current_name st <> None ->
      end_by ApiCacheGenerator.entity_range
             (ApiCacheGenerator.current_start st - 1)
             (ApiCacheGenerator.entities st)).

(** A step leaves the stored hashes and the unit caches as they are. *)
Definition untouched (s s' : Runtime.state) : Prop :=
  Runtime.hashes_file s' = Runtime.hashes_file s
  /\ Runtime.written s' = Runtime.written s.

(** Whatever it returns, [m] goes from a state to one in relation [R]. *)
Definition keeps (R : Runtime.state -> Runtime.state -> Prop) {A}
           (m : Runtime.M A) : Prop :=
  forall s, R s (snd (m s)).

(** The same of the runs of [m] that raise. *)
Definition raising_keeps (R : Runtime.state -> Runtime.state -> Prop) {A}
           (m : Runtime.M A) : Prop :=
  forall s e s', m s = (Py.Raise e, s') -> R s s'.

(** The states in which [m] returns satisfy [P]. *)
Definition returning (P : Runtime.state -> Prop) {A} (m : Runtime.M A)
  : Prop :=
  forall s a s', m s = (Py.Ok a, s') -> P s'.

(** The stored hashes are the table in memory. *)
Definition hashes_saved (s : Runtime.state) : Prop :=
  Runtime.hashes_file s = Some (Runtime.hashes s).

Definition same_stored_hashes (s s' : Runtime.state) : Prop :=
  Runtime.hashes_file s' = Runtime.hashes_file s.





(** The units whose document [assemble] returns, with the document, and
    the units on which it raises, with the exception. *)
Fixpoint assembled {U D} (assemble : U -> Py.result D) (units : list U)
  : list D :=
  match units with
  | [] => []
  | u :: rest =>
      match assemble u with
      | Py.Ok d => d :: assembled assemble rest
      | Py.Raise _ => assembled assemble rest
      end
  end.



(** [d[key] = value] when there is a value. *)
Definition set_some {V} (d : Dict.t V) (key : string) (value : option V)
  : Dict.t V :=
  match value with
  | Some v => Dict.set key v d
  | None => d
  end.

(** The [generated] object of a configuration that names the files
    [gen], key by key. *)
Definition generated_items (gen : list (string * string)) : Dict.t json :=
  List.map (fun kp => (fst kp, JStr (snd kp))) gen.

(** The index of a generated file that exists. *)
Definition generated_index (fs : filesystem) (path : string)
  : option CacheGenerator.FileIndex :=
  option_map (CacheGenerator.index_of CacheGenerator.scan_generated path)
             (fs path).

(** What a first run of [cache_generator.py] from an empty cache
    directory leaves: the digests of the schema file, of the query file
    and of the generated files that exist, their index documents, and
    the indices of the generated files. *)
Definition clean_hashes (sha : string -> string) (fs : filesystem)
           (schema_path query_path schema queries : string)
           (gen : list (string * string)) : Dict.t string :=
  fold_left (fun h kp => set_some h (snd kp) (option_map sha (fs (snd kp))))
            gen [(schema_path, sha schema); (query_path, sha queries)].

Definition clean_documents (fs : filesystem)
           (schema_path query_path schema queries : string)
           (gen : list (string * string)) : Dict.t json :=
  fold_left
    (fun d kp =>
       set_some d (CacheGenerator.index_file_name (snd kp))
                (option_map CacheGenerator.FileIndex_to_dict
                            (generated_index fs (snd kp))))
    gen
    [("schema.sql.index.json",
      CacheGenerator.FileIndex_to_dict
        (CacheGenerator.index_of CacheGenerator.scan_schema schema_path schema));
     ("query.sql.index.json",
      CacheGenerator.FileIndex_to_dict
        (CacheGenerator.index_of CacheGenerator.scan_queries query_path queries))].

Definition clean_indices (fs : filesystem) (gen : list (string * string))
  : Dict.t CacheGenerator.FileIndex :=
  fold_left (fun acc kp => set_some acc (fst kp) (generated_index fs (snd kp)))
            gen Dict.empty.

(** The cache document of a query, with the name of its file. *)
Definition query_unit (set_order : list string -> list string)
           (config : json) (fs : filesystem)
           (schema_index : CacheGenerator.FileIndex)
           (generated_indices : Dict.t CacheGenerator.FileIndex)
           (unit : string * FileRange) : Py.result (string * json) :=
  cache <- CacheGenerator.generate_query_cache set_order config fs (fst unit)
             (snd unit) schema_index generated_indices ;;
  Py.Ok (CacheGenerator.cache_file_name (CacheGenerator.query_name cache),
         CacheGenerator.QueryCache_to_dict cache).

(** The index document [name] of the file [path] is lost: the table
    has the digest of the file, and the document is not there. *)
Definition index_lost (sha : string -> string) (name path content : string)
           (s : Runtime.state) : Prop :=
  Dict.get name (Runtime.cache_dir s) = None
  /\ Dict.get path (Runtime.hashes s) = Some (sha content).

(** A step that leaves the stored hashes and the unit caches as they
    are, and the index lost if it was. *)
Definition quiet (sha : string -> string) (name path content : string)
           (s s' : Runtime.state) : Prop :=
  untouched s s'
  /\ (index_lost sha name path content s ->
      index_lost sha name path content s').

(** [p] holds of every character of [s]. *)
Fixpoint every (p : ascii -> bool) (s : string) : bool :=
  match s with
  | EmptyString => true
  | String c r => p c && every p r
  end.

(** A word: one or more [\w] characters. *)
Definition word (s : string) : bool := Py.nonempty s && every Py.isword s.

(** The names of an index are words. *)
Definition word_keys {V} (d : Dict.t V) : Prop :=
  Forall (fun kv => word (fst kv) = true) d.

(** A pattern without groups whose matches are words. *)
Definition word_group (r : Re.regex) : Prop :=
  forall (A : Type) (prev : option ascii) (s : string) (caps : list string)
         (k : option ascii -> string -> list string -> option A) (a : A),
    Re.run r prev s caps k = Some a ->
    exists prev' w s',
      s = (w ++ s')%string /\ word w = true /\ k prev' s' caps = Some a.

(** Every group of the pattern captures a word. *)
Fixpoint captures_words (r : Re.regex) : Prop :=
  match r with
  | Re.Grp r1 => word_group r1
  | Re.Cat r1 r2 | Re.Alt r1 r2 => captures_words r1 /\ captures_words r2
  | _ => True
  end.

(** The number of groups that every match of the pattern closes. *)
Fixpoint groups (r : Re.regex) : nat :=
  match r with
  | Re.Grp _ => 1
  | Re.Cat r1 r2 => groups r1 + groups r2
  | Re.Alt r1 r2 => Nat.min (groups r1) (groups r2)
  | _ => 0
  end.

(** The loop variables of a scan of [cache_generator.py] hold words. *)
Definition scan_words (s : CacheGenerator.scan) : Prop :=
  word_keys (CacheGenerator.index_ranges s)
  /\ forall cur, CacheGenerator.current_entity_name s = Some cur ->
                 word cur = true.

(** The same for the scan of [boilerplate.gen.go]. *)
Definition entities_words (st : ApiCacheGenerator.entities_scan) : Prop :=
  word_keys (ApiCacheGenerator.entities st)
  /\ forall name, ApiCacheGenerator.current_name st = Some name ->
                  word name = true.

(** The name that a line of the schema declares, if it is a header:
    [create table], [create type] or [create function]. *)
Definition schema_header (line : string) : option string :=
  match Re.match1 CacheGenerator.create_table_pattern line with
  | Some name => Some name
  | None =>
      match Re.match1 CacheGenerator.create_type_pattern line with
      | Some name => Some name
      | None => Re.match1 CacheGenerator.create_function_pattern line
      end
  end.

(** The last line of a definition of which the lines down to [last] are
    read, [rest] being the lines that follow: the line before the next
    header, the first line that starts with [;], or the last line of
    the file. *)
Fixpoint definition_end (rest : list string) (last : Z) : Z :=
  match rest with
  | [] => last
  | l :: r =>
      match schema_header l with
      | Some _ => last
      | None =>
          if Py.startswith ";" (Py.strip l) then last + 1
          else definition_end r (last + 1)
      end
  end.

(** The definitions of a schema from line [n] on, each with its range. *)
Fixpoint schema_units (lines : list string) (n : Z)
  : list (string * FileRange) :=
  match lines with
  | [] => []
  | l :: rest =>
      match schema_header l with
      | Some name =>
          (name, mkRange n (definition_end rest n)) :: schema_units rest (n + 1)
      | None => schema_units rest (n + 1)
      end
  end.

(** The definition that is open in the scan of a schema, [rest] being
    the lines still to read. *)
Definition open_definition (s : CacheGenerator.scan) (rest : list string)
  : list (string * FileRange) :=
  match CacheGenerator.current_entity_name s with
  | Some cur =>
      if CacheGenerator.in_entity s
      then [(cur, mkRange (CacheGenerator.current_entity_start s)
                          (definition_end rest (CacheGenerator.line_num s)))]
      else []
  | None => []
  end.

(** The last line of a schema of which the lines down to [last] are
    read, [rest] being the lines that follow: the line before the next
    header or before the first line that is not blank and does not
    start with four spaces, or the last line of the file. *)
Fixpoint schema_end (rest : list string) (last : Z) : Z :=
  match rest with
  | [] => last
  | l :: r =>
      if ApiCacheGenerator.ends_schema l then last else schema_end r (last + 1)
  end.

(** The schemas of a specification from line [n] on, each with its
    range; [started] tells whether [schemas:] has been read. *)
Fixpoint schema_entries (lines : list string) (n : Z) (started : bool)
  : list (string * ApiCacheGenerator.SchemaEntry) :=
  match lines with
  | [] => []
  | l :: rest =>
      if started then
        match Re.match1 ApiCacheGenerator.schema_header_re l with
        | Some name =>
            (name, ApiCacheGenerator.mkSchema
                     name (mkRange n (schema_end rest n)))
              :: schema_entries rest (n + 1) true
        | None => schema_entries rest (n + 1) true
        end
      else schema_entries rest (n + 1) (String.eqb (Py.strip l) "schemas:")
  end.

(** The lines of a block: none is a path key or [components:]. *)
Definition inside_path (block : list string) : Prop :=
  Forall (fun l => ApiCacheGenerator.ends_operation l = false) block.

(** The range of [entry] is the block of its path in the file [all]:
    the line of the path key and the lines that follow, down to the
    line before the next path key or [components:], or to the end of
    the file. *)
Definition path_block (all : list string) (entry : ApiCacheGenerator.PathEntry)
  : Prop :=
  exists pre key block rest,
    all = pre ++ key :: block ++ rest
    /\ Re.match1 ApiCacheGenerator.path_re key
       = Some (ApiCacheGenerator.path entry)
    /\ inside_path block
    /\ match rest with
       | [] => True
       | l :: _ => ApiCacheGenerator.ends_operation l = true
       end
    /\ ApiCacheGenerator.path_range entry
       = mkRange (Z.of_nat (List.length pre) + 1)
                 (Z.of_nat (List.length pre) + 1
                  + Z.of_nat (List.length block)).

(** What the loop of [index_paths] keeps, [done] being the lines read:
    the entries span the blocks of their paths, and the path that is
    current is the last path key read. *)
Record paths_inv (all done : list string) (st : ApiCacheGenerator.paths_scan)
  : Prop := {
  blocks_entered :
    Forall (fun kv => path_block all (snd kv)) (ApiCacheGenerator.paths st);
  no_path_before :
    ApiCacheGenerator.paths_section_started st = false ->
    ApiCacheGenerator.current_path st = None;
  path_current :
    forall cur, ApiCacheGenerator.current_path st = Some cur ->
      exists pre key seg,
        done = pre ++ key :: seg
        /\ Re.match1 ApiCacheGenerator.path_re key = Some cur
        /\ inside_path seg
        /\ ApiCacheGenerator.current_path_line st
           = Z.of_nat (List.length pre) + 1
}.

(** The cache directory holds a document [name]. *)
Definition holds (name : string) (s : Runtime.state) : Prop :=
  Dict.mem name (Runtime.cache_dir s) = true.

(** A step removes no document from the cache directory. *)
Definition documents_stay (s s' : Runtime.state) : Prop :=
  forall name, holds name s -> holds name s'.

(* ================================================================== *)
(** * Concrete inputs *)
(* ================================================================== *)

Module Scenarios.
Import Py.

Definition nl : string := String newline EmptyString.

(** A file system holding the listed files. *)
Fixpoint files (l : list (string * string)) : filesystem :=
  fun p =>
    match l with
    | [] => None
    | (name, content) :: rest =>
        if String.eqb name p then Some content else files rest p
    end.

(** A stand-in for SHA-256 where a concrete function is needed; no
    statement depends on it. *)
Definition digest (content : string) : string := content.

(** The text of the reference exclusion property. *)
Definition orders_sql : string := "SELECT * FROM orders WHERE status = 'NEW'".

(** A schema of two tables and a query joining them. *)
Definition two_tables_schema : string :=
  ("CREATE TABLE a (id int);" ++ nl ++ "CREATE TABLE b (id int);" ++ nl)%string.

Definition join_sql : string := "SELECT * FROM a JOIN b ON a.id = b.id".

Definition sql_config : json :=
  JObj [("base_path", JStr "."); ("cache_dir", JStr "cache");
        ("schema_file", JStr "schema.sql"); ("query_file", JStr "query.sql");
        ("generated", JObj [("query_sql_go", JStr "db/query.sql.go");
                            ("models_sql_go", JStr "db/models.go")])].

Definition two_tables_fs : filesystem :=
  files [("schema.sql", two_tables_schema)].

Definition two_tables_index : CacheGenerator.FileIndex :=
  CacheGenerator.index_of CacheGenerator.scan_schema "schema.sql"
                          two_tables_schema.

(** A schema holding the table of [orders_sql]. *)
Definition orders_schema : string :=
  ("CREATE TABLE orders (" ++ nl ++ "  id int," ++ nl ++ "  status text"
     ++ nl ++ ");" ++ nl)%string.

Definition orders_fs : filesystem := files [("schema.sql", orders_schema)].

Definition orders_index : CacheGenerator.FileIndex :=
  CacheGenerator.index_of CacheGenerator.scan_schema "schema.sql"
                          orders_schema.

(** An operation referring to two schemas, one of them twice, and an
    index of its document's schemas. *)
Definition refs_block : string :=
  ("$ref: '#/components/schemas/Task'" ++ nl
     ++ "$ref: '#/components/schemas/Error'" ++ nl
     ++ "$ref: '#/components/schemas/Task'" ++ nl)%string.

Definition refs_spec : string :=
  ("components:" ++ nl ++ "  schemas:" ++ nl ++ "    Task:" ++ nl
     ++ "      type: object" ++ nl ++ "    Error:" ++ nl
     ++ "      type: object" ++ nl)%string.

Definition refs_fs : filesystem := files [("taskflow.yaml", refs_spec)].

Definition refs_index : Dict.t ApiCacheGenerator.SchemaEntry :=
  ApiCacheGenerator.scan_schemas (readlines refs_spec).

(** A schema of one table and a file of one query over it. *)
Definition users_schema : string :=
  ("CREATE TABLE users (" ++ nl ++ "  id int" ++ nl ++ ");" ++ nl)%string.

Definition users_queries : string :=
  ("-- name: GetUser :one" ++ nl ++ "SELECT * FROM users;" ++ nl)%string.

Definition users_fs : filesystem :=
  files [("schema.sql", users_schema); ("query.sql", users_queries)].

(** The layout sqlc gives: the code generated from [query.sql] is
    [query.sql.go]. *)
Definition query_sql_go : string :=
  ("package db" ++ nl ++ nl ++ "func GetUser() {}" ++ nl)%string.

Definition sqlc_fs : filesystem :=
  files [("schema.sql", users_schema); ("query.sql", users_queries);
         ("db/query.sql.go", query_sql_go)].

(** The indices of the three files, the cache of [GetUser] assembled from
    the index of [query.sql] and the one assembled from the index of
    [query.sql.go], and the cache directory a first run leaves. *)
Definition users_index : CacheGenerator.FileIndex :=
  CacheGenerator.mkIndex "schema.sql" 3 [("users", mkRange 1 3)].

Definition get_user_index : CacheGenerator.FileIndex :=
  CacheGenerator.mkIndex "query.sql" 2 [("GetUser", mkRange 1 2)].

Definition query_go_index : CacheGenerator.FileIndex :=
  CacheGenerator.mkIndex "db/query.sql.go" 3 [("GetUser", mkRange 3 3)].

Definition get_user_go : CacheGenerator.GeneratedCode :=
  CacheGenerator.mkGenerated "function" "GetUser" "func GetUser() {}"
                             (mkRange 3 3) "db/query.sql.go".

Definition first_cache : CacheGenerator.QueryCache :=
  CacheGenerator.mkQueryCache
    "GetUser" ("-- name: GetUser :one" ++ nl ++ "SELECT * FROM users;")%string
    (mkRange 1 2) "query.sql"
    [CacheGenerator.mkTable "users" (mkRange 1 3) "schema.sql"
       ("CREATE TABLE users (" ++ nl ++ "  id int" ++ nl ++ ");")%string]
    [get_user_go].

Definition second_cache : CacheGenerator.QueryCache :=
  CacheGenerator.mkQueryCache "GetUser" EmptyString (mkRange 3 3) "query.sql"
                              [] [get_user_go].

Definition sqlc_hashes (sha : string -> string) : Dict.t string :=
  [("schema.sql", sha users_schema); ("query.sql", sha users_queries);
   ("db/query.sql.go", sha query_sql_go)].

Definition sqlc_dir : Dict.t json :=
  [("schema.sql.index.json", CacheGenerator.FileIndex_to_dict users_index);
   ("query.sql.index.json", CacheGenerator.FileIndex_to_dict query_go_index);
   ("GetUser.cache.json", CacheGenerator.QueryCache_to_dict first_cache)].

(** A file of three lines. *)
Definition three_lines : string := ("a" ++ nl ++ "b" ++ nl ++ "c" ++ nl)%string.

(** Configurations that leave the generated sources out: without the
    [generated] object, and with an empty one. *)
Definition config_without_generated : json :=
  JObj [("base_path", JStr "."); ("cache_dir", JStr "cache");
        ("schema_file", JStr "schema.sql"); ("query_file", JStr "query.sql")].

Definition config_empty_generated : json :=
  JObj [("base_path", JStr "."); ("cache_dir", JStr "cache");
        ("schema_file", JStr "schema.sql"); ("query_file", JStr "query.sql");
        ("generated", JObj [])].

(** The generated source of the extraction scenario: a struct on the
    first line, a function on the second, with or without a newline at
    the end of the file. *)
Definition go_two_lines (final_newline : bool) : string :=
  ("type Foo struct { A int }" ++ nl ++ "func Bar() {}"
     ++ (if final_newline then nl else EmptyString))%string.

(** The lines of the specification scenario: [paths:], the path key
    [/tasks:], the method [get:], the operation identifier [ListTasks]
    and, later, [components:]; [pre], [a], [b] and [rest] are the lines
    around and between them. *)
Definition paths_line : string := ("paths:" ++ nl)%string.
Definition tasks_line : string := ("  /tasks:" ++ nl)%string.
Definition get_line : string := ("    get:" ++ nl)%string.
Definition operation_id_line : string :=
  ("      operationId: ListTasks" ++ nl)%string.
Definition components_line : string := ("components:" ++ nl)%string.

Definition tasks_document (pre a b rest : list string) : list string :=
  pre ++ paths_line :: tasks_line :: get_line :: a
      ++ operation_id_line :: b ++ components_line :: rest.

(** A line of the paths section that is no path key, no method key and
    no [components:] line. *)
Definition plain_line (l : string) : Prop :=
  ApiCacheGenerator.ends_operation l = false
  /\ Re.matches ApiCacheGenerator.method_re l = false.

Definition tasks_example : list string :=
  tasks_document
    [("openapi: 3.0.0" ++ nl)%string]
    [("      summary: List tasks" ++ nl)%string]
    [("      responses:" ++ nl)%string; ("        '200':" ++ nl)%string]
    [("  schemas: {}" ++ nl)%string].

(** A specification and the server code generated from it, for runs of
    [api_cache_generator.py]. *)
Definition tasks_go : string :=
  ("package api" ++ nl ++ nl ++ "type Task struct {" ++ nl ++ "  ID int" ++ nl
     ++ "}" ++ nl ++ nl
     ++ "func (siw *ServerInterfaceWrapper) ListTasks(w http.ResponseWriter) {"
     ++ nl ++ "}" ++ nl)%string.

Definition api_fs : filesystem :=
  files [("taskflow.yaml", String.concat EmptyString tasks_example);
         ("api/server.gen.go", tasks_go)].

Definition api_config : json :=
  JObj [("base_path", JStr "."); ("spec_file", JStr "taskflow.yaml");
        ("boilerplate_file", JStr "api/server.gen.go")].

(** A layout in which no two index documents share a name: the code
    generated from [query.sql] is [queries.go]. *)
Definition models_go : string :=
  ("package db" ++ nl ++ nl ++ "type User struct {" ++ nl ++ "  ID int" ++ nl
     ++ "}" ++ nl)%string.

Definition apart_generated : list (string * string) :=
  [("query_sql_go", "db/queries.go"); ("models_sql_go", "db/models.go")].

Definition apart_config : json :=
  JObj [("base_path", JStr "."); ("cache_dir", JStr "cache");
        ("schema_file", JStr "schema.sql"); ("query_file", JStr "query.sql");
        ("generated", JObj (generated_items apart_generated))].

Definition apart_fs : filesystem :=
  files [("schema.sql", users_schema); ("query.sql", users_queries);
         ("db/queries.go", query_sql_go); ("db/models.go", models_go)].

End Scenarios.

(* ================================================================== *)
(** * Facts about dictionaries *)
(* ================================================================== *)

Module DictFacts.
Import Dict.

Section Facts.
Context {V : Type}.
Implicit Types (d : Dict.t V) (k : string) (v : V).

Lemma get_set_same d k v : get k (set k v d) = Some v.
Proof.
  induction d as [|[k' v'] d IH]; simpl.
  - now rewrite String.eqb_refl.
  - destruct (String.eqb k' k) eqn:E; simpl.
    + now rewrite String.eqb_refl.
    + now rewrite E.
Qed.

Lemma get_set_other d k k' v : k' <> k -> get k' (set k v d) = get k' d.
Proof.
  intros Hne. induction d as [|[k0 v0] d IH]; simpl.
  - destruct (String.eqb k k') eqn:E; [|reflexivity].
    apply String.eqb_eq in E. congruence.
  - destruct (String.eqb k0 k) eqn:E; simpl.
    + apply String.eqb_eq in E. subst k0.
      destruct (String.eqb k k') eqn:E'; [|reflexivity].
      apply String.eqb_eq in E'. congruence.
    + now rewrite IH.
Qed.

Lemma get_none_not_in d k : get k d = None <-> ~ In k (keys d).
Proof.
  induction d as [|[k' v'] d IH]; simpl.
  - tauto.
  - destruct (String.eqb k' k) eqn:E.
    + apply String.eqb_eq in E. split; [discriminate | tauto].
    + apply String.eqb_neq in E. rewrite IH. tauto.
Qed.

Lemma get_in d k v : get k d = Some v -> In (k, v) d.
Proof.
  induction d as [|[k' v'] d IH]; simpl; [discriminate|].
  destruct (String.eqb k' k) eqn:E.
  - apply String.eqb_eq in E. intros [= ->]. subst. now left.
  - auto.
Qed.

Lemma in_get d k v : wf d -> In (k, v) d -> get k d = Some v.
Proof.
  unfold wf. induction d as [|[k' v'] d IH]; simpl; [tauto|].
  intros Hnd [Heq | Hin].
  - injection Heq as -> ->. now rewrite String.eqb_refl.
  - inversion Hnd as [|? ? Hni Hnd']; subst.
    destruct (String.eqb k' k) eqn:E; [|auto].
    apply String.eqb_eq in E. subst k'. exfalso. apply Hni.
    change k with (fst (k, v)). now apply in_map.
Qed.

Lemma set_absent d k v : ~ In k (keys d) -> set k v d = d ++ [(k, v)].
Proof.
  induction d as [|[k' v'] d IH]; simpl; [reflexivity|].
  intros Hni. destruct (String.eqb k' k) eqn:E.
  - apply String.eqb_eq in E. tauto.
  - f_equal. apply IH. tauto.
Qed.

Lemma keys_set_present d k v : In k (keys d) -> keys (set k v d) = keys d.
Proof.
  induction d as [|[k' v'] d IH]; simpl; [tauto|].
  intros Hin. destruct (String.eqb k' k) eqn:E; simpl.
  - apply String.eqb_eq in E. now subst.
  - f_equal. apply IH. apply String.eqb_neq in E. tauto.
Qed.

Lemma wf_set d k v : wf d -> wf (set k v d).
Proof.
  unfold wf. intros Hwf.
  destruct (in_dec string_dec k (keys d)) as [Hin | Hni].
  - now rewrite keys_set_present.
  - rewrite set_absent by assumption. unfold keys. rewrite map_app. simpl.
    apply NoDup_app; [assumption | repeat constructor; simpl; tauto |].
    intros x Hx [<- | []]. contradiction.
Qed.

Lemma wf_empty : wf (@empty V).
Proof. constructor. Qed.

(** Every entry of [set k v d] is [(k, v)] or an entry of [d]. *)
Lemma in_set d k v kv : In kv (set k v d) -> kv = (k, v) \/ In kv d.
Proof.
  induction d as [|[k' v'] d IH]; simpl.
  - intros [<- | []]. now left.
  - destruct (String.eqb k' k); simpl; intros [<- | Hin]; auto.
    destruct (IH Hin); auto.
Qed.

Lemma Forall_set (Q : string * V -> Prop) d k v :
  Forall Q d -> Q (k, v) -> Forall Q (set k v d).
Proof.
  rewrite !Forall_forall. intros Hd Hkv kv Hin.
  apply in_set in Hin as [-> | Hin]; auto.
Qed.

Lemma of_items_from (items acc : list (string * V)) :
  wf (acc ++ items) ->
  fold_left (fun d kv => set (fst kv) (snd kv) d) items acc = acc ++ items.
Proof.
  revert acc. induction items as [|[k v] items IH]; intros acc Hwf; simpl.
  - now rewrite app_nil_r.
  - rewrite set_absent.
    + rewrite IH; rewrite <- app_assoc; [reflexivity | exact Hwf].
    + unfold wf, keys in Hwf. rewrite map_app in Hwf. simpl in Hwf.
      apply NoDup_remove_2 in Hwf. intros Hin. apply Hwf.
      apply in_or_app. now left.
Qed.

Lemma of_items_wf (items : list (string * V)) :
  wf items -> of_items items = items.
Proof. intros Hwf. unfold of_items. now rewrite of_items_from. Qed.

End Facts.

Lemma keys_map_values {V W} (f : V -> W) (d : Dict.t V) :
  keys (map_values f d) = keys d.
Proof.
  unfold keys, map_values. rewrite map_map. now apply map_ext.
Qed.

End DictFacts.

(* ================================================================== *)
(** * The fingerprint store *)
(* ================================================================== *)

Section FingerprintProofs.
Import Runtime.

Variable sha : string -> string.
Variable fs : filesystem.

Lemma differs_false stored current :
  differs stored current = false <-> stored = Some current.
Proof.
  destruct stored as [h|]; simpl.
  - rewrite negb_false_iff, String.eqb_eq. split; congruence.
  - split; discriminate.
Qed.

Lemma differs_true stored current :
  differs stored current = true <-> stored <> Some current.
Proof.
  rewrite <- differs_false. destruct (differs stored current); split;
    congruence.
Qed.

(** C2: the fingerprint check of both generators.  On a file that
    exists it answers true and stores the current digest under the key
    (no other key changes) when the stored digest differs or is absent,
    and answers false with the table untouched when it is the same; on
    a missing file it prints a diagnostic, answers false and leaves the
    table untouched.  Nothing else of the state changes. *)
Theorem should_reindex_contract (key path : string) (s : state) :
  let api := ApiCacheGenerator._should_reindex sha fs key path s in
  let sql := CacheGenerator._should_update_file sha fs path key s in
  api = sql /\
  hashes_file (snd api) = hashes_file s /\
  cache_dir (snd api) = cache_dir s /\
  written (snd api) = written s /\
  match fs path with
  | None =>
      fst api = Py.Ok false /\
      hashes (snd api) = hashes s /\
      printed (snd api) = printed s ++ [FileMissing path]
  | Some content =>
      printed (snd api) = printed s /\
      (Dict.get key (hashes s) <> Some (sha content) ->
       fst api = Py.Ok true /\
       Dict.get key (hashes (snd api)) = Some (sha content) /\
       forall k, k <> key ->
                 Dict.get k (hashes (snd api)) = Dict.get k (hashes s)) /\
      (Dict.get key (hashes s) = Some (sha content) ->
       fst api = Py.Ok false /\ hashes (snd api) = hashes s)
  end.
Proof.
  cbv zeta.
  unfold ApiCacheGenerator._should_reindex,
    CacheGenerator._should_update_file, check_fingerprint, should_reindex.
  destruct (fs path) as [content|]; simpl.
  - destruct (differs (Dict.get key (hashes s)) (sha content)) eqn:D; simpl;
      rewrite app_nil_r; repeat (split; [reflexivity|]); split.
    + apply differs_true in D. intros _. split; [reflexivity|]. split.
      * apply DictFacts.get_set_same.
      * intros k Hk. now apply DictFacts.get_set_other.
    + apply differs_true in D. contradiction.
    + apply differs_false in D. contradiction.
    + intros _. split; reflexivity.
  - repeat split; reflexivity.
Qed.

End FingerprintProofs.

(* ================================================================== *)
(** * Reading a range of lines *)
(* ================================================================== *)

Section RangeReading.
Import Py.

Lemma skipn_nth_error {A} (l : list A) (a : nat) :
  (a < List.length l)%nat ->
  exists x, nth_error l a = Some x /\ skipn a l = x :: skipn (S a) l.
Proof.
  revert a. induction l as [|y l IH]; intros a Hlt; simpl in Hlt.
  - lia.
  - destruct a as [|a].
    + exists y. split; reflexivity.
    + destruct (IH a) as [x [H1 H2]]; [lia|].
      exists x. split; [exact H1 | exact H2].
Qed.

Lemma index_in_bounds {A} (l : list A) (a : nat) (x : A) :
  nth_error l a = Some x -> index l (Z.of_nat a) = Ok x.
Proof.
  intros Hx. unfold index.
  assert (Hlt : (a < List.length l)%nat)
    by (apply nth_error_Some; congruence).
  destruct (Z.of_nat a <? 0) eqn:E1; [apply Z.ltb_lt in E1; lia|].
  destruct (Z.of_nat (List.length l) <=? Z.of_nat a) eqn:E2;
    [apply Z.leb_le in E2; lia|].
  rewrite E1. simpl. now rewrite Nat2Z.id, Hx.
Qed.

Lemma mapM_index_run {A B} (f : A -> B) (lines : list A) (n a : nat) :
  (n <> 0 -> a + n <= List.length lines)%nat ->
  mapM (fun i => l <- index lines i ;; Ok (f l))
       (List.map (fun k => Z.of_nat a + Z.of_nat k) (seq 0 n))
  = Ok (List.map f (firstn n (skipn a lines))).
Proof.
  revert a. induction n as [|n IH]; intros a Hb; [reflexivity|].
  destruct (skipn_nth_error lines a) as [x [Hx Hs]]; [lia|].
  rewrite Hs. cbn [seq List.map firstn mapM].
  rewrite Z.add_0_r, (index_in_bounds _ _ _ Hx). cbn [bind].
  rewrite <- seq_shift, map_map.
  rewrite (map_ext _ (fun k => Z.of_nat (S a) + Z.of_nat k))
    by (intros k; lia).
  rewrite IH by lia. reflexivity.
Qed.

Lemma read_lines_of_total (lines : list string) (first last : Z) :
  1 <= first ->
  CacheGenerator.read_lines_of lines first last
  = Ok (List.map rstrip_newline (lines_from_to lines first last)).
Proof.
  intros Hfirst. unfold CacheGenerator.read_lines_of, range, lines_from_to.
  set (n := Z.to_nat (Z.min last (Z.of_nat (List.length lines)) - (first - 1))).
  rewrite (map_ext _ (fun k => Z.of_nat (Z.to_nat (first - 1)) + Z.of_nat k))
    by (intros k; lia).
  apply mapM_index_run. subst n. lia.
Qed.

Lemma read_file_lines_total (fs : filesystem) (path content : string)
      (first last : Z) :
  fs path = Some content ->
  1 <= first ->
  CacheGenerator._read_file_lines fs path first last
  = Ok (List.map rstrip_newline
                 (lines_from_to (readlines content) first last)).
Proof.
  intros Hfs Hfirst. unfold CacheGenerator._read_file_lines, Runtime.open_text.
  rewrite Hfs. cbn [bind]. now apply read_lines_of_total.
Qed.

Lemma read_range_of_lines (lines : list string) (first last : Z) :
  1 <= first ->
  0 <= last ->
  ApiCacheGenerator.read_range_of lines (mkRange first last)
  = join EmptyString (lines_from_to lines first last).
Proof.
  intros Hfirst Hlast.
  unfold ApiCacheGenerator.read_range_of, slice, slice_bound, lines_from_to.
  cbn [start_line end_line].
  set (n := Z.of_nat (List.length lines)).
  rewrite !(Z.max_l first 1) by lia.
  destruct (Z.min last n <? 0) eqn:E1; [apply Z.ltb_lt in E1; lia|].
  destruct (first - 1 <? 0) eqn:E2; [apply Z.ltb_lt in E2; lia|].
  f_equal.
  destruct (Z.le_gt_cases (first - 1) n) as [Hle | Hgt].
  - rewrite (Z.min_l (first - 1) n) by lia.
    now replace (Z.min (Z.min last n) n) with (Z.min last n) by lia.
  - rewrite (Z.min_r (first - 1) n) by lia.
    rewrite !skipn_all2 by (subst n; lia). now rewrite !firstn_nil.
Qed.

(** C10: for a file that exists and a range whose first line is at
    least 1, [_read_file_lines] and [_read_range] return (they raise
    nothing) the lines of the range cut at the end of the file: through
    the last line when the range ends beyond it, nothing when the range
    starts beyond it.  ([_read_range] slices, so a negative last line
    would count from the end of the file; its text is stated for a last
    line that is not negative.) *)
Theorem range_readers_total (fs : filesystem) (path content : string)
        (first last : Z) :
  fs path = Some content ->
  1 <= first ->
  let lines := readlines content in
  let total := Z.of_nat (List.length lines) in
  CacheGenerator._read_file_lines fs path first last
    = Ok (List.map rstrip_newline (lines_from_to lines first last)) /\
  (exists text,
      ApiCacheGenerator._read_range fs path (mkRange first last) = Ok text
      /\ (0 <= last -> text = join EmptyString (lines_from_to lines first last)))
  /\ (total <= last ->
      lines_from_to lines first last = skipn (Z.to_nat (first - 1)) lines) /\
  (total < first -> lines_from_to lines first last = []).
Proof.
  intros Hfs Hfirst lines total. repeat split.
  - now apply read_file_lines_total.
  - unfold ApiCacheGenerator._read_range, ApiCacheGenerator._read_all_lines,
      Runtime.open_text.
    rewrite Hfs. cbn [bind]. eexists. split; [reflexivity|].
    intros Hlast. now apply read_range_of_lines.
  - intros Hlast. unfold lines_from_to. fold total.
    rewrite Z.min_r by lia. apply firstn_all2. rewrite length_skipn.
    subst total. lia.
  - intros Hbeyond. unfold lines_from_to. fold total.
    rewrite skipn_all2 by (subst total; lia). now rewrite firstn_nil.
Qed.

End RangeReading.

(* ================================================================== *)
(** * Reference resolution *)
(* ================================================================== *)

Section ReferenceResolution.
Import Py.

Lemma Permutation_filter {A} (f : A -> bool) (l l' : list A) :
  Permutation l l' -> Permutation (filter f l) (filter f l').
Proof.
  induction 1 as [|x l l' _ IH|x y l|l l' l'' _ IH1 _ IH2]; simpl.
  - constructor.
  - destruct (f x); [now constructor | assumption].
  - destruct (f x), (f y); try apply Permutation_refl. constructor.
  - eapply Permutation_trans; eassumption.
Qed.

(** *** Sets *)

Lemma PySet_add_NoDup (x : string) (s : PySet.t) :
  NoDup s -> NoDup (PySet.add x s).
Proof.
  intros Hnd. unfold PySet.add, PySet.mem.
  destruct (existsb (String.eqb x) s) eqn:E; [assumption|].
  apply NoDup_app; [assumption | repeat constructor; simpl; tauto |].
  intros y Hy [<- | []].
  assert (existsb (String.eqb x) s = true); [|congruence].
  apply existsb_exists. exists x. split; [assumption | apply String.eqb_refl].
Qed.

Lemma first_seen_from_NoDup (l seen : list string) :
  NoDup seen -> NoDup (seen ++ first_seen_from seen l).
Proof.
  revert seen. induction l as [|x l IH]; intros seen Hnd; simpl.
  - now rewrite app_nil_r.
  - destruct (existsb (String.eqb x) seen) eqn:E; [now apply IH|].
    change (x :: first_seen_from (seen ++ [x]) l)
      with ([x] ++ first_seen_from (seen ++ [x]) l).
    rewrite app_assoc. apply IH.
    pose proof (PySet_add_NoDup x seen Hnd) as H.
    unfold PySet.add, PySet.mem in H. now rewrite E in H.
Qed.

Lemma first_seen_NoDup (l : list string) : NoDup (first_seen l).
Proof. apply (first_seen_from_NoDup l []). constructor. Qed.

(** Adding the elements of [l] that pass [keep] to a set, one after the
    other, lists them in order of first appearance. *)
Lemma fold_add_first_seen (keep : string -> bool) (l : list string)
      (seen : PySet.t) :
  fold_left (fun s m => if keep m then PySet.add m s else s) l seen
  = seen ++ first_seen_from seen (filter keep l).
Proof.
  revert seen. induction l as [|x l IH]; intros seen; simpl.
  - now rewrite app_nil_r.
  - rewrite IH. destruct (keep x); [|reflexivity]. simpl.
    unfold PySet.add, PySet.mem.
    destruct (existsb (String.eqb x) seen); [reflexivity|].
    now rewrite <- app_assoc.
Qed.

(** *** Table dependencies of a query *)

Lemma fold_left_flat_map {A B C} (f : A -> C -> A) (g : B -> list C)
      (l : list B) (a : A) :
  fold_left (fun acc x => fold_left f (g x) acc) l a
  = fold_left f (flat_map g l) a.
Proof.
  revert a. induction l as [|x l IH]; intros a; simpl; [reflexivity|].
  now rewrite fold_left_app, IH.
Qed.

Lemma fold_left_through_map {A B C} (f : A -> C -> A) (g : B -> C)
      (l : list B) (a : A) :
  fold_left (fun acc x => f acc (g x)) l a = fold_left f (List.map g l) a.
Proof.
  revert a. induction l as [|x l IH]; intros a; simpl; [reflexivity|].
  apply IH.
Qed.

(** The [tables] set of [extract_table_dependencies]: the captures that
    are no SQL keyword, without repetition. *)
Lemma table_candidates_first_seen (query_sql : string) :
  CacheGenerator.table_candidates query_sql
  = referenced_tables query_sql.
Proof.
  unfold CacheGenerator.table_candidates, referenced_tables, table_captures,
    first_seen.
  rewrite (fold_left_flat_map
             (fun tables m =>
                if negb (PySet.mem (upper (strip m)) CacheGenerator.sql_keywords)
                then PySet.add (strip m) tables else tables)).
  rewrite (fold_left_through_map
             (fun tables t => if is_table_name t then PySet.add t tables
                              else tables) strip).
  now rewrite fold_add_first_seen.
Qed.

Lemma table_candidates_NoDup (query_sql : string) :
  NoDup (CacheGenerator.table_candidates query_sql).
Proof. rewrite table_candidates_first_seen. apply first_seen_NoDup. Qed.

Section Tables.
Variable set_order : list string -> list string.
Variable config : json.
Variable fs : filesystem.
Variable schema_index : CacheGenerator.FileIndex.
Variables schema_path content : string.

Hypothesis set_order_permutes : forall l, Permutation (set_order l) l.
Hypothesis schema_configured :
  CacheGenerator.config_str config "schema_file" = Ok schema_path.
Hypothesis schema_exists : fs schema_path = Some content.
Hypothesis ranges_start_in_file :
  forall name r,
    Dict.get name (CacheGenerator.ranges schema_index) = Some r ->
    1 <= start_line r.

Let indexed_table (name : string) : bool :=
  Dict.mem name (CacheGenerator.ranges schema_index).

Lemma table_dependencies_names (names : list string) :
  exists deps,
    CacheGenerator.table_dependencies fs schema_path schema_index names
    = Ok deps
    /\ List.map CacheGenerator.table_name deps = filter indexed_table names.
Proof.
  induction names as [|n names [deps [Hdeps Hnames]]]; simpl.
  - exists []. split; reflexivity.
  - unfold indexed_table at 1, Dict.mem.
    destruct (Dict.get n (CacheGenerator.ranges schema_index)) as [r|] eqn:E.
    + unfold CacheGenerator._read_file_range_content.
      rewrite (read_file_lines_total fs schema_path content
                 (start_line r) (end_line r) schema_exists
                 (ranges_start_in_file n r E)).
      cbn [bind]. rewrite Hdeps. cbn [bind]. eexists. split; [reflexivity|].
      simpl. now rewrite Hnames.
    + exists deps. split; assumption.
Qed.

Lemma extract_table_dependencies_names (query_sql : string) :
  exists deps,
    CacheGenerator.extract_table_dependencies set_order config fs
      query_sql schema_index = Ok deps
    /\ List.map CacheGenerator.table_name deps
       = filter indexed_table
                (set_order (CacheGenerator.table_candidates query_sql)).
Proof.
  unfold CacheGenerator.extract_table_dependencies.
  rewrite schema_configured. cbn [bind]. apply table_dependencies_names.
Qed.

End Tables.

(** *** Schema dependencies of an operation *)

Section Schemas.
Variable fs : filesystem.
Variables spec_file content : string.
Variable schema_index : Dict.t ApiCacheGenerator.SchemaEntry.

Hypothesis spec_exists : fs spec_file = Some content.

Let indexed_schema (name : string) : bool := Dict.mem name schema_index.

Lemma schema_dependencies_names (refs : list string) (seen : PySet.t) :
  exists deps,
    ApiCacheGenerator.schema_dependencies fs spec_file schema_index refs seen
    = Ok deps
    /\ List.map ApiCacheGenerator.dep_name deps
       = filter indexed_schema (first_seen_from seen refs).
Proof.
  revert seen. induction refs as [|m refs IH]; intros seen; simpl.
  - exists []. split; reflexivity.
  - unfold PySet.mem.
    destruct (existsb (String.eqb m) seen) eqn:E; [apply IH|].
    unfold PySet.add, PySet.mem. rewrite E. simpl.
    destruct (IH (seen ++ [m])) as [deps [Hdeps Hnames]].
    unfold indexed_schema at 1, Dict.mem.
    destruct (Dict.get m schema_index) as [entry|].
    + unfold ApiCacheGenerator._read_range,
        ApiCacheGenerator._read_all_lines, Runtime.open_text.
      rewrite spec_exists. cbn [bind]. rewrite Hdeps. cbn [bind].
      eexists. split; [reflexivity|]. simpl. now rewrite Hnames.
    + exists deps. split; assumption.
Qed.

End Schemas.

(** C5: on [SELECT * FROM orders WHERE status = 'NEW'], with [orders] in
    the schema index (and the schema file readable from the range's
    first line), [extract_table_dependencies] returns exactly one
    dependency, [orders]; [WHERE], [NEW] and [SELECT] are not reported. *)
Theorem reference_exclusion (set_order : list string -> list string)
        (config : json) (fs : filesystem)
        (schema_index : CacheGenerator.FileIndex)
        (schema_path content : string) (r : FileRange) :
  (forall l, Permutation (set_order l) l) ->
  CacheGenerator.config_str config "schema_file" = Ok schema_path ->
  fs schema_path = Some content ->
  Dict.get "orders" (CacheGenerator.ranges schema_index) = Some r ->
  1 <= start_line r ->
  exists deps,
    CacheGenerator.extract_table_dependencies set_order config fs
      Scenarios.orders_sql schema_index = Ok deps
    /\ List.map CacheGenerator.table_name deps = ["orders"]
    /\ ~ In "WHERE" (List.map CacheGenerator.table_name deps)
    /\ ~ In "NEW" (List.map CacheGenerator.table_name deps)
    /\ ~ In "SELECT" (List.map CacheGenerator.table_name deps).
Proof.
  intros Hperm Hcfg Hfs Hget Hstart.
  unfold CacheGenerator.extract_table_dependencies.
  rewrite Hcfg. cbn [bind].
  assert (Hc : CacheGenerator.table_candidates Scenarios.orders_sql = ["orders"])
    by (vm_compute; reflexivity).
  rewrite Hc.
  rewrite (Permutation_length_1_inv (Permutation_sym (Hperm ["orders"]))).
  cbn [CacheGenerator.table_dependencies]. rewrite Hget.
  unfold CacheGenerator._read_file_range_content.
  rewrite (read_file_lines_total fs schema_path content
             (start_line r) (end_line r) Hfs Hstart).
  cbn [bind]. eexists. split; [reflexivity|].
  cbn [List.map CacheGenerator.table_name]. split; [reflexivity|].
  repeat split; intros [H | []]; discriminate H.
Qed.

(** C8, as the code has it: the schema references of an operation are
    reported once each, in the order in which they first appear in its
    text; the table references of a query are reported once each, in the
    order in which Python iterates the [tables] set, which need not be
    the order of the text.  In both, a name the index lacks is dropped. *)
Theorem dependencies_deduplicated
        (fs : filesystem) (spec_file spec : string)
        (schemas : Dict.t ApiCacheGenerator.SchemaEntry) (op_block : string)
        (set_order : list string -> list string) (config : json)
        (schema_index : CacheGenerator.FileIndex)
        (schema_path schema query_sql : string) :
  fs spec_file = Some spec ->
  (forall l, Permutation (set_order l) l) ->
  CacheGenerator.config_str config "schema_file" = Ok schema_path ->
  fs schema_path = Some schema ->
  (forall name r,
      Dict.get name (CacheGenerator.ranges schema_index) = Some r ->
      1 <= start_line r) ->
  (exists deps,
      ApiCacheGenerator._extract_schema_dependencies fs spec_file op_block
        schemas = Ok deps
      /\ List.map ApiCacheGenerator.dep_name deps
         = filter (fun name => Dict.mem name schemas)
                  (first_seen (Re.findall ApiCacheGenerator.schema_ref_re
                                          op_block)))
  /\ (exists deps,
         CacheGenerator.extract_table_dependencies set_order config fs
           query_sql schema_index = Ok deps
         /\ NoDup (List.map CacheGenerator.table_name deps)
         /\ Permutation
              (List.map CacheGenerator.table_name deps)
              (filter (fun name =>
                         Dict.mem name (CacheGenerator.ranges schema_index))
                      (referenced_tables query_sql))).
Proof.
  intros Hspec Hperm Hcfg Hschema Hranges. split.
  - apply (schema_dependencies_names fs spec_file spec schemas Hspec).
  - destruct (extract_table_dependencies_names set_order config fs
                schema_index schema_path schema Hcfg Hschema Hranges
                query_sql) as [deps [Hdeps Hnames]].
    exists deps. split; [exact Hdeps|]. rewrite Hnames.
    rewrite <- table_candidates_first_seen. split.
    + apply NoDup_filter.
      apply (Permutation_NoDup (Permutation_sym (Hperm _))).
      apply table_candidates_NoDup.
    + apply Permutation_filter, Hperm.
Qed.

End ReferenceResolution.

(** C5 at a schema that declares [orders]. *)
Lemma reference_exclusion_witness :
  exists deps,
    CacheGenerator.extract_table_dependencies (fun l => l) Scenarios.sql_config
      Scenarios.orders_fs Scenarios.orders_sql Scenarios.orders_index = Py.Ok deps
    /\ List.map CacheGenerator.table_name deps = ["orders"]
    /\ ~ In "WHERE" (List.map CacheGenerator.table_name deps)
    /\ ~ In "NEW" (List.map CacheGenerator.table_name deps)
    /\ ~ In "SELECT" (List.map CacheGenerator.table_name deps).
Proof.
  apply (reference_exclusion (fun l => l) Scenarios.sql_config
           Scenarios.orders_fs Scenarios.orders_index "schema.sql"
           Scenarios.orders_schema (mkRange 1 4)).
  - intros l. apply Permutation_refl.
  - reflexivity.
  - reflexivity.
  - vm_compute. reflexivity.
  - simpl. lia.
Defined.

(** C8 as the claim states it fails for table references: iterating the
    set of a query that joins [a] with [b] in the reverse of the insertion
    order, as Python may, reports [b] before [a]. *)
Lemma table_dependencies_not_in_text_order :
  (forall l : list string, Permutation (rev l) l)
  /\ referenced_tables Scenarios.join_sql = ["a"; "b"]
  /\ CacheGenerator.extract_table_dependencies (@rev string)
       Scenarios.sql_config Scenarios.two_tables_fs Scenarios.join_sql
       Scenarios.two_tables_index
     = Py.Ok [CacheGenerator.mkTable "b" (mkRange 2 2) "schema.sql"
                                     "CREATE TABLE b (id int);";
              CacheGenerator.mkTable "a" (mkRange 1 1) "schema.sql"
                                     "CREATE TABLE a (id int);"].
Proof.
  split; [|split].
  - intros l. apply Permutation_sym, Permutation_rev.
  - vm_compute. reflexivity.
  - vm_compute. reflexivity.
Qed.

(** C8 at an operation that refers to [Task], [Error] and [Task] again,
    and at a query joining two tables. *)
Lemma dependencies_deduplicated_witness :
  (exists deps,
      ApiCacheGenerator._extract_schema_dependencies Scenarios.refs_fs
        "taskflow.yaml" Scenarios.refs_block Scenarios.refs_index = Py.Ok deps
      /\ List.map ApiCacheGenerator.dep_name deps = ["Task"; "Error"])
  /\ (exists deps,
         CacheGenerator.extract_table_dependencies (@rev string)
           Scenarios.sql_config
           (Scenarios.files [("taskflow.yaml", Scenarios.refs_spec);
                             ("schema.sql", Scenarios.two_tables_schema)])
           Scenarios.join_sql Scenarios.two_tables_index = Py.Ok deps
         /\ NoDup (List.map CacheGenerator.table_name deps)
         /\ Permutation (List.map CacheGenerator.table_name deps) ["a"; "b"]).
Proof.
  destruct (dependencies_deduplicated
              (Scenarios.files [("taskflow.yaml", Scenarios.refs_spec);
                                ("schema.sql", Scenarios.two_tables_schema)])
              "taskflow.yaml" Scenarios.refs_spec Scenarios.refs_index
              Scenarios.refs_block (@rev string) Scenarios.sql_config
              Scenarios.two_tables_index "schema.sql"
              Scenarios.two_tables_schema Scenarios.join_sql)
    as [Hapi Hsql].
  - reflexivity.
  - intros l. apply Permutation_sym, Permutation_rev.
  - reflexivity.
  - reflexivity.
  - intros name r. vm_compute.
    destruct name as [|[[] [] [] [] [] [] [] []] [|? ?]];
      try discriminate; intros [= <-]; simpl; discriminate.
  - split; [exact Hapi | exact Hsql].
Defined.

(* ================================================================== *)
(** * Extraction scenarios *)
(* ================================================================== *)

Section GeneratedSourceScenario.
Import Py Scenarios.

(** C7 as the claim states it fails for [index_boilerplate]: of the two
    declarations it indexes [Foo] alone, since its function pattern
    asks for the receiver [(siw *ServerInterfaceWrapper)]. *)
Lemma boilerplate_index_skips_plain_function :
  Re.match_ ApiCacheGenerator.func_re ("func Bar() {}" ++ nl)%string = None
  /\ Dict.keys (ApiCacheGenerator.scan_entities "boilerplate.gen.go"
                  (readlines (go_two_lines true))) = ["Foo"]
  /\ fst (ApiCacheGenerator.index_boilerplate digest
            (files [("boilerplate.gen.go", go_two_lines true)])
            "boilerplate.gen.go" (Runtime.fresh None Dict.empty))
     = Ok [("Foo", ApiCacheGenerator.mkEntity "struct" "Foo"
                     "boilerplate.gen.go" (mkRange 1 1)
                     ("type Foo struct { A int }" ++ nl)%string)].
Proof. repeat split; vm_compute; reflexivity. Qed.

(** C7, as the code has it: on the two line file,
    [index_generated_file] indexes exactly [Foo], on line 1, and [Bar],
    on line 2 (its index holds ranges, no kinds), and the two ranges
    share no line; [index_boilerplate] indexes exactly [Foo], of kind
    [struct], on line 1. *)
Theorem two_declarations_indexed (final_newline : bool) (file : string) :
  CacheGenerator.scan_generated (readlines (go_two_lines final_newline))
    = [("Foo", mkRange 1 1); ("Bar", mkRange 2 2)]
  /\ disjoint_ranges (mkRange 1 1) (mkRange 2 2)
  /\ ApiCacheGenerator.scan_entities file
       (readlines (go_two_lines final_newline))
     = [("Foo", ApiCacheGenerator.mkEntity "struct" "Foo" file (mkRange 1 1)
                  ("type Foo struct { A int }" ++ nl)%string)].
Proof.
  split; [|split].
  - destruct final_newline; vm_compute; reflexivity.
  - left. simpl. lia.
  - destruct final_newline; vm_compute; reflexivity.
Qed.

End GeneratedSourceScenario.

Section SpecificationScenario.
Import Py Re Scenarios ApiCacheGenerator.

Lemma matches_match1 (r : regex) (l : string) :
  matches r l = false -> match1 r l = None.
Proof.
  unfold matches, match1. destruct (match_ r l); [discriminate | reflexivity].
Qed.

Lemma plain_line_components (l : string) :
  plain_line l -> startswith "components:" (strip l) = false.
Proof.
  intros [H _]. unfold ends_operation in H.
  now apply orb_false_iff in H.
Qed.

Lemma plain_line_path (l : string) : plain_line l -> match1 path_re l = None.
Proof.
  intros [H _]. unfold ends_operation in H.
  apply orb_false_iff in H. now apply matches_match1.
Qed.

Lemma plain_line_method (l : string) :
  plain_line l -> match1 method_re l = None.
Proof. intros [_ H]. now apply matches_match1. Qed.

(** Before [paths:] the scan passes every line. *)
Lemma paths_loop_before (pre rest : list string) (i : Z) (st : paths_scan) :
  paths_section_started st = false ->
  Forall (fun l => strip l <> "paths:") pre ->
  paths_loop (pre ++ rest) i st
  = paths_loop rest (i + Z.of_nat (List.length pre)) st.
Proof.
  intros Hst Hpre. revert i.
  induction Hpre as [|l pre Hl _ IH]; intros i.
  - simpl. now rewrite Z.add_0_r.
  - cbn [app paths_loop]. rewrite Hst.
    apply String.eqb_neq in Hl. rewrite Hl. cbn [negb andb].
    rewrite IH. f_equal. cbn [List.length]. lia.
Qed.

(** Inside the paths section the scan passes every plain line. *)
Lemma paths_loop_plain (xs rest : list string) (i : Z) (st : paths_scan) :
  paths_section_started st = true ->
  Forall plain_line xs ->
  paths_loop (xs ++ rest) i st
  = paths_loop rest (i + Z.of_nat (List.length xs)) st.
Proof.
  intros Hst Hxs. revert i.
  induction Hxs as [|l xs Hl _ IH]; intros i.
  - simpl. now rewrite Z.add_0_r.
  - cbn [app paths_loop]. rewrite Hst. cbn [negb andb].
    rewrite (plain_line_components l Hl), (plain_line_path l Hl),
      (plain_line_method l Hl).
    rewrite IH. f_equal. cbn [List.length]. lia.
Qed.

(** The search for the operation identifier passes the lines that end
    no operation and declare no identifier. *)
Lemma scan_operation_skip (xs rest : list string) (j line : Z)
      (p m : string) (paths : Dict.t PathEntry) :
  Forall (fun l => ends_operation l = false
                   /\ startswith "operationId:" (strip l) = false) xs ->
  scan_operation (xs ++ rest) j line p m paths
  = scan_operation rest (j + Z.of_nat (List.length xs)) line p m paths.
Proof.
  intros Hxs. revert j.
  induction Hxs as [|l xs [H1 H2] _ IH]; intros j.
  - simpl. now rewrite Z.add_0_r.
  - cbn [app scan_operation]. rewrite H1, H2, IH.
    f_equal. cbn [List.length]. lia.
Qed.

(** The range of an operation runs through the plain lines after its
    identifier, to the line before the one that ends it. *)
Lemma extend_range_to (xs rest : list string) (stop : string) (k : Z) :
  Forall plain_line xs ->
  ends_operation stop = true ->
  extend_range (xs ++ stop :: rest) k k = k + Z.of_nat (List.length xs).
Proof.
  intros Hxs Hstop. revert k.
  induction Hxs as [|l xs [Hl _] _ IH]; intros k.
  - simpl. rewrite Hstop. lia.
  - cbn [app extend_range]. rewrite Hl, IH. cbn [List.length]. lia.
Qed.

Lemma nth_error_app_plus {A} (xs l : list A) (k : nat) :
  nth_error (xs ++ l) (List.length xs + k) = nth_error l k.
Proof. induction xs as [|x xs IH]; [reflexivity | exact IH]. Qed.

Lemma operation_id_line_plain : plain_line operation_id_line.
Proof. split; vm_compute; reflexivity. Qed.

(** C6: in a document made of any lines without [paths:], then
    [paths:], the path key [/tasks:], the method [get:], plain lines
    without an identifier, [operationId: ListTasks], plain lines, and
    [components:] followed by anything, the path scan indexes exactly
    one entity, [ListTasks]; its range starts at the [/tasks:] line and
    ends at the line before [components:]. *)
Theorem tasks_operation_indexed (pre a b rest : list string) :
  Forall (fun l => strip l <> "paths:") pre ->
  Forall plain_line a ->
  Forall (fun l => startswith "operationId:" (strip l) = false) a ->
  Forall plain_line b ->
  let tasks_lineno := Z.of_nat (List.length pre) + 2 in
  let components_lineno :=
    Z.of_nat (List.length pre) + 5 + Z.of_nat (List.length a)
    + Z.of_nat (List.length b) in
  nth_error (tasks_document pre a b rest) (Z.to_nat (tasks_lineno - 1))
    = Some tasks_line
  /\ nth_error (tasks_document pre a b rest) (Z.to_nat (components_lineno - 1))
     = Some components_line
  /\ scan_paths (tasks_document pre a b rest)
     = [("ListTasks",
         mkPath "ListTasks" "GET" "/tasks"
                (mkRange tasks_lineno (components_lineno - 1)))].
Proof.
  intros Hpre Ha Hnoid Hb tasks_lineno components_lineno.
  split; [|split].
  - unfold tasks_document. subst tasks_lineno.
    replace (Z.to_nat (Z.of_nat (List.length pre) + 2 - 1))
      with (List.length pre + 1)%nat by lia.
    now rewrite nth_error_app_plus.
  - unfold tasks_document. subst components_lineno.
    replace (Z.to_nat (Z.of_nat (List.length pre) + 5
                       + Z.of_nat (List.length a)
                       + Z.of_nat (List.length b) - 1))
      with (List.length pre + (3 + (List.length a + (1 + (List.length b + 0)))))%nat
      by lia.
    rewrite nth_error_app_plus. cbn [nth_error Nat.add].
    rewrite nth_error_app_plus. cbn [nth_error Nat.add].
    now rewrite nth_error_app_plus.
  - unfold scan_paths, tasks_document.
    rewrite paths_loop_before by (try assumption; reflexivity).
    set (n := Z.of_nat (List.length pre)).
    (* paths: *)
    cbn [paths_loop paths_section_started paths_scan_start negb andb].
    replace (String.eqb (strip paths_line) "paths:") with true
      by (vm_compute; reflexivity).
    cbn [andb current_path_line current_path current_method paths].
    (* /tasks: *)
    cbn [paths_loop paths_section_started negb andb].
    replace (startswith "components:" (strip tasks_line)) with false
      by (vm_compute; reflexivity).
    replace (match1 path_re tasks_line) with (Some "/tasks")
      by (vm_compute; reflexivity).
    cbn [paths].
    (* get: *)
    cbn [paths_loop paths_section_started negb andb].
    replace (startswith "components:" (strip get_line)) with false
      by (vm_compute; reflexivity).
    replace (match1 path_re get_line) with (@None string)
      by (vm_compute; reflexivity).
    replace (match1 method_re get_line) with (Some "get")
      by (vm_compute; reflexivity).
    cbn [current_path nonempty current_path_line paths].
    replace (upper "get") with "GET" by (vm_compute; reflexivity).
    (* the search for the identifier *)
    rewrite scan_operation_skip
      by (apply Forall_forall; intros l Hl; split;
          [ apply (proj1 (Forall_forall _ _) Ha l Hl)
          | apply (proj1 (Forall_forall _ _) Hnoid l Hl) ]).
    cbn [scan_operation].
    replace (ends_operation operation_id_line) with false
      by (vm_compute; reflexivity).
    replace (startswith "operationId:" (strip operation_id_line)) with true
      by (vm_compute; reflexivity).
    replace (after_first "operationId:" (strip operation_id_line))
      with (Some " ListTasks") by (vm_compute; reflexivity).
    replace (strip " ListTasks") with "ListTasks" by (vm_compute; reflexivity).
    cbn [nonempty].
    rewrite extend_range_to
      by (try assumption; vm_compute; reflexivity).
    (* the rest of the paths section *)
    rewrite paths_loop_plain by (try assumption; reflexivity).
    cbn [paths_loop paths_section_started negb andb].
    rewrite (plain_line_components _ operation_id_line_plain),
      (plain_line_path _ operation_id_line_plain),
      (plain_line_method _ operation_id_line_plain).
    rewrite paths_loop_plain by (try assumption; reflexivity).
    cbn [paths_loop paths_section_started negb andb].
    replace (startswith "components:" (strip components_line)) with true
      by (vm_compute; reflexivity).
    cbn [paths Dict.set Dict.empty].
    subst tasks_lineno components_lineno n.
    unfold paths_scan_start. cbn [paths Dict.set Dict.empty].
    do 3 f_equal. f_equal; lia.
Qed.

End SpecificationScenario.

(* ================================================================== *)
(** * Invariants of the range extractors *)
(* ================================================================== *)

Lemma valid_range_weaken (n m : Z) (r : FileRange) :
  n <= m -> valid_range n r -> valid_range m r.
Proof. unfold valid_range. lia. Qed.

Section SqlScans.
Import Py CacheGenerator.

Lemma scan_start_inv : scan_inv scan_start.
Proof.
  split; simpl.
  - apply DictFacts.wf_empty.
  - constructor.
  - lia.
  - congruence.
Qed.

Lemma ranges_weaken (n m : Z) (d : Dict.t FileRange) :
  n <= m ->
  Forall (fun kv => valid_range n (snd kv)) d ->
  Forall (fun kv => valid_range m (snd kv)) d.
Proof.
  intros Hle. apply Forall_impl. intros kv. now apply valid_range_weaken.
Qed.

(** Recording the open entity up to line [e], at most [m]. *)
Lemma record_range_valid (s : scan) (cur : string) (e m : Z) :
  scan_inv s ->
  current_entity_name s = Some cur ->
  line_num s <= m ->
  current_entity_start s <= e <= m ->
  Dict.wf (record_range s cur e)
  /\ Forall (fun kv => valid_range m (snd kv)) (record_range s cur e).
Proof.
  intros [Hwf Hr _ Hc] Hcur Hm He. unfold record_range. split.
  - now apply DictFacts.wf_set.
  - apply DictFacts.Forall_set.
    + now apply (ranges_weaken (line_num s)).
    + unfold valid_range. simpl.
      assert (current_entity_name s <> None) as Hn by congruence.
      specialize (Hc Hn). lia.
Qed.

Lemma keep_ranges_valid (s : scan) (m : Z) :
  scan_inv s ->
  line_num s <= m ->
  Dict.wf (index_ranges s)
  /\ Forall (fun kv => valid_range m (snd kv)) (index_ranges s).
Proof.
  intros [Hwf Hr _ _] Hm. split; [assumption|].
  now apply (ranges_weaken (line_num s)).
Qed.

(** The dictionary a block leaves: the open entity recorded up to [e],
    or nothing new. *)
Lemma maybe_record_valid (s : scan) (guard : string -> bool) (e m : Z) :
  scan_inv s ->
  line_num s <= m ->
  current_entity_start s <= e <= m \/ current_entity_name s = None ->
  let d := match current_entity_name s with
           | Some cur => if guard cur then record_range s cur e
                         else index_ranges s
           | None => index_ranges s
           end in
  Dict.wf d /\ Forall (fun kv => valid_range m (snd kv)) d.
Proof.
  intros Hinv Hm He. cbv zeta.
  destruct (current_entity_name s) as [cur|] eqn:Hcur.
  - destruct (guard cur).
    + apply record_range_valid; try assumption.
      destruct He as [He | He]; [exact He | discriminate].
    + now apply keep_ranges_valid.
  - now apply keep_ranges_valid.
Qed.

(** The three shapes of the loop variables after a line: an entity
    opened on it, the open entity closed, nothing opened or closed. *)
Lemma opened_inv (s : scan) (name : string) (bc : Z) (d : Dict.t FileRange) :
  scan_inv s ->
  Dict.wf d /\ Forall (fun kv => valid_range (line_num s + 1) (snd kv)) d ->
  scan_inv (mkScan (line_num s + 1) (Some name) (line_num s + 1) true bc d).
Proof.
  intros Hinv [Hwf Hr]. pose proof (inv_line s Hinv).
  split; simpl; [assumption | assumption | lia | intros _; lia].
Qed.

Lemma closed_inv (s : scan) (start bc : Z) (b : bool) (d : Dict.t FileRange) :
  scan_inv s ->
  Dict.wf d /\ Forall (fun kv => valid_range (line_num s + 1) (snd kv)) d ->
  scan_inv (mkScan (line_num s + 1) None start b bc d).
Proof.
  intros Hinv [Hwf Hr]. pose proof (inv_line s Hinv).
  split; simpl; [assumption | assumption | lia | congruence].
Qed.

Lemma passed_inv (s : scan) (bc : Z) (b : bool) :
  scan_inv s ->
  scan_inv (mkScan (line_num s + 1) (current_entity_name s)
                   (current_entity_start s) b bc (index_ranges s)).
Proof.
  intros Hinv. pose proof (inv_line s Hinv).
  destruct (keep_ranges_valid s (line_num s + 1) Hinv) as [Hwf Hr]; [lia|].
  split; simpl; [assumption | assumption | lia |].
  intros Hn. pose proof (inv_current s Hinv Hn). lia.
Qed.

(** The open entity, if any, started on a line read. *)
Lemma current_start_bounds (s : scan) :
  scan_inv s ->
  current_entity_start s <= line_num s \/ current_entity_name s = None.
Proof.
  intros Hinv. destruct (current_entity_name s) eqn:E; [left | now right].
  assert (1 <= current_entity_start s <= line_num s)
    by (apply (inv_current s Hinv); congruence). lia.
Qed.

Lemma recorded_before (s : scan) (guard : string -> bool) :
  scan_inv s ->
  let d := match current_entity_name s with
           | Some cur => if guard cur
                         then record_range s cur (line_num s + 1 - 1)
                         else index_ranges s
           | None => index_ranges s
           end in
  Dict.wf d /\ Forall (fun kv => valid_range (line_num s + 1) (snd kv)) d.
Proof.
  intros Hinv. apply maybe_record_valid; [assumption | lia |].
  destruct (current_start_bounds s Hinv); [left; lia | now right].
Qed.

Lemma recorded_upto (s : scan) (guard : string -> bool) :
  scan_inv s ->
  let d := match current_entity_name s with
           | Some cur => if guard cur
                         then record_range s cur (line_num s + 1)
                         else index_ranges s
           | None => index_ranges s
           end in
  Dict.wf d /\ Forall (fun kv => valid_range (line_num s + 1) (snd kv)) d.
Proof.
  intros Hinv. apply maybe_record_valid; [assumption | lia |].
  destruct (current_start_bounds s Hinv); [left; lia | now right].
Qed.

Lemma schema_step_inv (s : scan) (line : string) :
  scan_inv s ->
  scan_inv (schema_step s line)
  /\ line_num (schema_step s line) = line_num s + 1.
Proof.
  intros Hinv. unfold schema_step, schema_open.
  repeat match goal with
         | |- context [match Re.match1 ?r ?l with _ => _ end] =>
             destruct (Re.match1 r l)
         end;
    try (split; [|reflexivity]; apply opened_inv; [assumption|];
         apply (recorded_before s (fun cur => nonempty cur && in_entity s));
         assumption).
  destruct (in_entity s && startswith ";" (strip line));
    (split; [|reflexivity]).
  - apply closed_inv; [assumption|].
    apply (recorded_upto s nonempty); assumption.
  - now apply passed_inv.
Qed.

Lemma query_step_inv (s : scan) (line : string) :
  scan_inv s ->
  scan_inv (query_step s line)
  /\ line_num (query_step s line) = line_num s + 1.
Proof.
  intros Hinv. unfold query_step.
  destruct (Re.match1 query_pattern line); (split; [|reflexivity]).
  - pose proof (inv_line s Hinv).
    destruct (recorded_before s nonempty Hinv) as [Hwf Hr].
    split; simpl; [assumption | assumption | lia | intros _; lia].
  - now apply passed_inv.
Qed.

Lemma generated_step_inv (s : scan) (line : string) :
  scan_inv s ->
  scan_inv (generated_step s line)
  /\ line_num (generated_step s line) = line_num s + 1.
Proof.
  intros Hinv. unfold generated_step, generated_open.
  set (bc := brace_count s + brace_delta line).
  destruct (Re.match1 func_pattern (strip line)).
  { split; [|reflexivity]. apply opened_inv; [assumption|].
    apply (recorded_before s (fun cur => nonempty cur && in_entity s && true));
      assumption. }
  destruct (Re.match1 struct_pattern (strip line)).
  { split; [|reflexivity]. apply opened_inv; [assumption|].
    apply (recorded_before s
             (fun cur => nonempty cur && in_entity s && (bc =? 0)));
      assumption. }
  destruct (Re.match1 interface_pattern (strip line)).
  { split; [|reflexivity]. apply opened_inv; [assumption|].
    apply (recorded_before s
             (fun cur => nonempty cur && in_entity s && (bc =? 0)));
      assumption. }
  destruct (if negb (contains "struct" (strip line))
               && negb (contains "interface" (strip line))
            then Re.match1 type_pattern (strip line) else None).
  { split; [|reflexivity]. apply opened_inv; [assumption|].
    apply (recorded_before s
             (fun cur => nonempty cur && in_entity s && (bc =? 0)));
      assumption. }
  destruct (in_entity s && (bc =? 0) && nonempty (strip line)
            && negb (startswith "//" (strip line)));
    (split; [|reflexivity]).
  - apply closed_inv; [assumption|].
    apply (recorded_upto s nonempty); assumption.
  - now apply passed_inv.
Qed.

(** A scan is a fold of its step over the lines. *)
Lemma fold_step_inv (step : scan -> string -> scan) (lines : list string)
      (s : scan) :
  (forall s line, scan_inv s ->
                  scan_inv (step s line)
                  /\ line_num (step s line) = line_num s + 1) ->
  scan_inv s ->
  scan_inv (fold_left step lines s)
  /\ line_num (fold_left step lines s)
     = line_num s + Z.of_nat (List.length lines).
Proof.
  intros Hstep. revert s. induction lines as [|l lines IH]; intros s Hinv.
  - simpl. split; [assumption | lia].
  - cbn [fold_left]. destruct (Hstep s l Hinv) as [Hinv' Hn].
    destruct (IH _ Hinv') as [Hinv'' Hn'']. split; [assumption|].
    rewrite Hn'', Hn. cbn [List.length]. lia.
Qed.

Lemma flushed_valid (s : scan) (guard : string -> bool) :
  scan_inv s ->
  let d := match current_entity_name s with
           | Some cur => if guard cur then record_range s cur (line_num s)
                         else index_ranges s
           | None => index_ranges s
           end in
  Dict.wf d /\ Forall (fun kv => valid_range (line_num s) (snd kv)) d.
Proof.
  intros Hinv. apply maybe_record_valid; [assumption | lia |].
  destruct (current_start_bounds s Hinv); [left; lia | now right].
Qed.

(** The three scans: no name twice, every range within the file. *)
Lemma scan_schema_valid (lines : list string) :
  Dict.wf (scan_schema lines)
  /\ Forall (fun kv => valid_range (Z.of_nat (List.length lines)) (snd kv))
            (scan_schema lines).
Proof.
  destruct (fold_step_inv schema_step lines scan_start schema_step_inv
              scan_start_inv) as [Hinv Hn].
  unfold scan_schema, scan_flush. simpl in Hn. rewrite <- Hn.
  apply (flushed_valid _ (fun cur => nonempty cur && in_entity _) Hinv).
Qed.

Lemma scan_queries_valid (lines : list string) :
  Dict.wf (scan_queries lines)
  /\ Forall (fun kv => valid_range (Z.of_nat (List.length lines)) (snd kv))
            (scan_queries lines).
Proof.
  destruct (fold_step_inv query_step lines scan_start query_step_inv
              scan_start_inv) as [Hinv Hn].
  unfold scan_queries, query_flush. simpl in Hn. rewrite <- Hn.
  apply (flushed_valid _ nonempty Hinv).
Qed.

Lemma scan_generated_valid (lines : list string) :
  Dict.wf (scan_generated lines)
  /\ Forall (fun kv => valid_range (Z.of_nat (List.length lines)) (snd kv))
            (scan_generated lines).
Proof.
  destruct (fold_step_inv generated_step lines scan_start generated_step_inv
              scan_start_inv) as [Hinv Hn].
  unfold scan_generated, scan_flush. simpl in Hn. rewrite <- Hn.
  apply (flushed_valid _ (fun cur => nonempty cur && in_entity _) Hinv).
Qed.

End SqlScans.

Section ApiScans.
Import Py ApiCacheGenerator.

(** *** Paths *)

Lemma extend_range_bounds (lines : list string) (k e : Z) :
  e <= k ->
  e <= extend_range lines k e <= k + Z.of_nat (List.length lines).
Proof.
  revert k e. induction lines as [|l lines IH]; intros k e Hle.
  - simpl. lia.
  - cbn [extend_range List.length]. destruct (ends_operation l); [lia|].
    specialize (IH (k + 1) (k + 1)). lia.
Qed.

Lemma scan_operation_valid (total : Z) (lines : list string) (j line : Z)
      (p m : string) (paths : Dict.t PathEntry) :
  1 <= line <= j ->
  j + Z.of_nat (List.length lines) <= total ->
  Dict.wf paths /\ Forall (path_ok total) paths ->
  Dict.wf (scan_operation lines j line p m paths)
  /\ Forall (path_ok total) (scan_operation lines j line p m paths).
Proof.
  revert j. induction lines as [|l2 rest IH]; intros j Hline Htotal Hpaths.
  - exact Hpaths.
  - cbn [scan_operation]. cbn [List.length] in Htotal.
    destruct (ends_operation l2); [exact Hpaths|].
    destruct (startswith "operationId:" (strip l2)).
    + destruct (after_first "operationId:" (strip l2)); [|exact Hpaths].
      destruct (nonempty (strip s)); [|exact Hpaths].
      destruct Hpaths as [Hwf Hok]. split.
      * now apply DictFacts.wf_set.
      * apply DictFacts.Forall_set; [assumption|].
        split; [reflexivity|]. unfold valid_range. simpl.
        pose proof (extend_range_bounds rest (j + 1) (j + 1) (Z.le_refl _)).
        lia.
    + apply IH; [lia | lia | assumption].
Qed.

Lemma paths_loop_valid (total : Z) (lines : list string) (i : Z)
      (st : paths_scan) :
  0 <= i ->
  i + Z.of_nat (List.length lines) <= total ->
  (current_path st <> None -> 1 <= current_path_line st <= i) ->
  Dict.wf (paths st) /\ Forall (path_ok total) (paths st) ->
  Dict.wf (paths_loop lines i st)
  /\ Forall (path_ok total) (paths_loop lines i st).
Proof.
  revert i st. induction lines as [|line rest IH];
    intros i st Hi Htotal Hcur Hpaths.
  - exact Hpaths.
  - cbn [paths_loop]. cbn [List.length] in Htotal.
    destruct (negb (paths_section_started st)
              && String.eqb (strip line) "paths:").
    { apply IH; simpl; try assumption; try lia.
      intros Hn. specialize (Hcur Hn). lia. }
    destruct (negb (paths_section_started st)).
    { apply IH; try assumption; try lia.
      intros Hn. specialize (Hcur Hn). lia. }
    destruct (startswith "components:" (strip line)); [exact Hpaths|].
    destruct (Re.match1 path_re line).
    { apply IH; simpl; try assumption; try lia. }
    destruct (Re.match1 method_re line);
      [|apply IH; try assumption; try lia;
        intros Hn; specialize (Hcur Hn); lia].
    destruct (current_path st) as [cur|] eqn:Ecur;
      [|apply IH; try assumption; try lia;
        intros Hn; rewrite Ecur in Hn; specialize (Hcur Hn); lia].
    assert (Hline : 1 <= current_path_line st <= i)
      by (apply Hcur; congruence).
    destruct (nonempty cur);
      [|apply IH; try assumption; try lia; intros _; lia].
    apply IH; simpl; try lia.
    apply scan_operation_valid; [lia | lia | assumption].
Qed.

Lemma scan_paths_valid (lines : list string) :
  Dict.wf (scan_paths lines)
  /\ Forall (path_ok (Z.of_nat (List.length lines))) (scan_paths lines).
Proof.
  apply paths_loop_valid; simpl; try lia; try congruence.
  split; [apply DictFacts.wf_empty | constructor].
Qed.

(** *** Schemas *)

Lemma schemas_loop_valid (total : Z) (n : nat) :
  forall (lines : list string) (i : Z) (started : bool)
         (schemas : Dict.t SchemaEntry),
    (List.length lines <= n)%nat ->
    0 <= i ->
    i + Z.of_nat (List.length lines) <= total ->
    Dict.wf schemas /\ Forall (schema_ok total) schemas ->
    Dict.wf (schemas_loop lines i started schemas)
    /\ Forall (schema_ok total) (schemas_loop lines i started schemas).
Proof.
  induction n as [|n IHn]; intros lines i started schemas Hn Hi Htotal Hs.
  - destruct lines; [exact Hs | simpl in Hn; lia].
  - destruct lines as [|line rest]; [exact Hs|].
    cbn [List.length] in Hn, Htotal. cbn [schemas_loop].
    destruct (negb started && String.eqb (strip line) "schemas:");
      [apply IHn; try assumption; lia|].
    destruct (negb started); [apply IHn; try assumption; lia|].
    destruct (Re.match1 schema_header_re line) as [name|];
      [|apply IHn; try assumption; lia].
    (* the inner loop, from any of its positions *)
    match goal with
    | |- context [?f rest (i + 1) (i + 1)] => set (inner := f)
    end.
    assert (Hinner :
              forall (ls : list string) (j e : Z),
                (List.length ls <= n)%nat ->
                i + 1 <= e <= j ->
                j + Z.of_nat (List.length ls) <= total ->
                Dict.wf (inner ls j e)
                /\ Forall (schema_ok total) (inner ls j e)).
    { assert (Hfound :
                forall e, i + 1 <= e <= total ->
                  Dict.wf (Dict.set name (mkSchema name (mkRange (i + 1) e))
                                    schemas)
                  /\ Forall (schema_ok total)
                       (Dict.set name (mkSchema name (mkRange (i + 1) e))
                                 schemas)).
      { intros e He. destruct Hs as [Hwf Hok]. split.
        - now apply DictFacts.wf_set.
        - apply DictFacts.Forall_set; [assumption|].
          split; [reflexivity|]. unfold valid_range. simpl. lia. }
      induction ls as [|l2 r2 IHls]; intros j e Hlen He Hj.
      - simpl. simpl in Hj. apply Hfound. lia.
      - cbn [List.length] in Hlen, Hj. subst inner. cbn beta iota.
        destruct (ends_schema l2).
        + apply IHn; [simpl; lia | lia | simpl; lia | apply Hfound; lia].
        + apply IHls; lia. }
    apply Hinner; lia.
Qed.

Lemma scan_schemas_valid (lines : list string) :
  Dict.wf (scan_schemas lines)
  /\ Forall (schema_ok (Z.of_nat (List.length lines))) (scan_schemas lines).
Proof.
  apply (schemas_loop_valid _ (List.length lines)); try lia.
  split; [apply DictFacts.wf_empty | constructor].
Qed.

(** *** Boilerplate entities *)

Section Entities.
Variable file : string.
Variable lines : list string.

Lemma entities_weaken (n m : Z) (d : Dict.t BoilerplateEntity) :
  n <= m -> Forall (entity_ok n) d -> Forall (entity_ok m) d.
Proof.
  intros Hle. apply Forall_impl. intros kv [H1 H2]. split; [assumption|].
  now apply (valid_range_weaken n).
Qed.

Lemma close_entity_valid (i m e : Z) (st : entities_scan) (guard : bool) :
  entities_inv i st ->
  i <= m ->
  (current_name st <> None -> current_start st <= e <= m) ->
  Dict.wf (close_entity file lines st guard e)
  /\ Forall (entity_ok m) (close_entity file lines st guard e).
Proof.
  intros [Hwf Hok Hcur] Hm He. unfold close_entity.
  assert (Hkeep : Dict.wf (entities st) /\ Forall (entity_ok m) (entities st))
    by (split; [assumption | now apply (entities_weaken i)]).
  destruct (current_name st) as [name|]; [|exact Hkeep].
  destruct (current_type st) as [type|]; [|exact Hkeep].
  destruct (nonempty name && nonempty type && guard); [|exact Hkeep].
  split.
  - now apply DictFacts.wf_set.
  - apply DictFacts.Forall_set; [apply Hkeep|].
    split; [reflexivity|]. unfold valid_range. simpl.
    assert (Some name <> None) as Hn by congruence.
    specialize (Hcur Hn). specialize (He Hn). lia.
Qed.

Lemma close_before_valid (i : Z) (st : entities_scan) (guard : bool) :
  0 <= i ->
  entities_inv i st ->
  Dict.wf (close_entity file lines st guard (end_before st (i + 1)))
  /\ Forall (entity_ok (i + 1))
            (close_entity file lines st guard (end_before st (i + 1))).
Proof.
  intros Hi Hinv. apply (close_entity_valid i); [assumption | lia |].
  intros Hn. pose proof (einv_current i st Hinv Hn). unfold end_before.
  destruct (current_start st <? i + 1) eqn:E; [lia|].
  apply Z.ltb_ge in E. lia.
Qed.

Lemma entities_step_inv (i : Z) (st : entities_scan) (line : string) :
  0 <= i ->
  entities_inv i st ->
  entities_inv (i + 1) (entities_step file lines st i line).
Proof.
  intros Hi Hinv. unfold entities_step.
  assert (Hopen :
            forall name type bc guard,
              entities_inv (i + 1)
                (mkEntitiesScan name type (i + 1) bc
                   (close_entity file lines st guard
                                 (end_before st (i + 1))))).
  { intros name type bc guard.
    destruct (close_before_valid i st guard Hi Hinv) as [Hwf Hok].
    split; simpl; [assumption | assumption | intros _; lia]. }
  destruct (Re.match_ func_re line); [apply Hopen|].
  destruct (Re.match_ struct_re line); [apply Hopen|].
  destruct (Re.match_ const_var_re line); [apply Hopen|].
  destruct (if Re.matches struct_re line then None
            else Re.match_ type_re line); [apply Hopen|].
  destruct (truthy (current_name st) && truthy (current_type st)
            && (brace_count st + brace_delta line =? 0)
            && nonempty (strip line)
            && negb (startswith "//" (strip line))).
  - destruct (close_before_valid i st true Hi Hinv) as [Hwf Hok].
    split; simpl; [assumption | assumption | congruence].
  - destruct Hinv as [Hwf Hok Hcur].
    split; simpl;
      [assumption | now apply (entities_weaken i); [lia|] |].
    intros Hn. specialize (Hcur Hn). lia.
Qed.

Lemma entities_loop_inv (rest : list string) (i : Z) (st : entities_scan) :
  0 <= i ->
  entities_inv i st ->
  entities_inv (i + Z.of_nat (List.length rest))
               (entities_loop file lines rest i st).
Proof.
  revert i st. induction rest as [|line rest IH]; intros i st Hi Hinv.
  - simpl. now rewrite Z.add_0_r.
  - cbn [entities_loop List.length].
    replace (i + Z.of_nat (S (List.length rest)))
      with (i + 1 + Z.of_nat (List.length rest)) by lia.
    apply IH; [lia|]. now apply entities_step_inv.
Qed.

End Entities.

Lemma scan_entities_valid (file : string) (lines : list string) :
  Dict.wf (scan_entities file lines)
  /\ Forall (entity_ok (Z.of_nat (List.length lines)))
            (scan_entities file lines).
Proof.
  unfold scan_entities.
  assert (Hinv : entities_inv (0 + Z.of_nat (List.length lines))
                   (entities_loop file lines lines 0 entities_scan_start)).
  { apply entities_loop_inv; [lia|].
    split; simpl; [apply DictFacts.wf_empty | constructor | congruence]. }
  rewrite Z.add_0_l in Hinv.
  apply (close_entity_valid file lines _ _ _ _ _ Hinv); [lia|].
  intros Hn. pose proof (einv_current _ _ Hinv Hn). lia.
Qed.

End ApiScans.

(** C4: whatever the content of a file, every range an extractor records
    for it satisfies [1 <= start_line <= end_line <= total_lines]: the
    three scans of [cache_generator.py] (SQL schema, SQL queries,
    generated Go) and the three of [api_cache_generator.py] (paths,
    schemas, boilerplate entities). *)
Theorem ranges_within_file (file content : string) :
  let lines := Py.readlines content in
  let total := Z.of_nat (List.length lines) in
  let within (idx : CacheGenerator.FileIndex) :=
    Forall (fun kv => valid_range (CacheGenerator.total_lines idx) (snd kv))
           (CacheGenerator.ranges idx) in
  within (CacheGenerator.index_of CacheGenerator.scan_schema file content)
  /\ within (CacheGenerator.index_of CacheGenerator.scan_queries file content)
  /\ within (CacheGenerator.index_of CacheGenerator.scan_generated file content)
  /\ Forall (fun kv => valid_range total (ApiCacheGenerator.path_range (snd kv)))
            (ApiCacheGenerator.scan_paths lines)
  /\ Forall (fun kv => valid_range total (ApiCacheGenerator.schema_range (snd kv)))
            (ApiCacheGenerator.scan_schemas lines)
  /\ Forall (fun kv => valid_range total (ApiCacheGenerator.entity_range (snd kv)))
            (ApiCacheGenerator.scan_entities file lines).
Proof.
  cbv zeta. unfold CacheGenerator.index_of. simpl.
  repeat split.
  - apply scan_schema_valid.
  - apply scan_queries_valid.
  - apply scan_generated_valid.
  - eapply Forall_impl; [|apply scan_paths_valid]. intros kv [_ H]. exact H.
  - eapply Forall_impl; [|apply scan_schemas_valid]. intros kv [_ H]. exact H.
  - eapply Forall_impl; [|apply scan_entities_valid]. intros kv [_ H]. exact H.
Qed.

(* ================================================================== *)
(** * Index persistence *)
(* ================================================================== *)

Section Persistence.
Import Py.

Lemma mapM_map_inverse {A B} (f : B -> result A) (g : A -> B) (l : list A) :
  Forall (fun x => f (g x) = Ok x) l -> mapM f (List.map g l) = Ok l.
Proof.
  induction 1 as [|x l Hx _ IH]; simpl; [reflexivity|].
  now rewrite Hx, IH.
Qed.

Lemma FileRange_round_trip (r : FileRange) :
  FileRange_of_json (FileRange_to_dict r) = Ok r.
Proof. now destruct r. Qed.

(** [cache_generator.py]: an index whose names are distinct is read
    back as it was written. *)
Lemma FileIndex_round_trip (idx : CacheGenerator.FileIndex) :
  Dict.wf (CacheGenerator.ranges idx) ->
  CacheGenerator.FileIndex_of_json (CacheGenerator.FileIndex_to_dict idx)
  = Ok idx.
Proof.
  intros Hwf. destruct idx as [fp tl rs]. simpl in Hwf.
  unfold CacheGenerator.FileIndex_of_json, CacheGenerator.FileIndex_to_dict.
  simpl. unfold Dict.map_values.
  rewrite (mapM_map_inverse
             (fun kv => r <- FileRange_of_json (snd kv) ;; Ok (fst kv, r))).
  - simpl. now rewrite DictFacts.of_items_wf.
  - apply Forall_forall. intros [k r] _. cbn [fst snd].
    now rewrite FileRange_round_trip.
Qed.

(** [api_cache_generator.py]: the entries of a section, each stored
    under its own name, are read back as they were written. *)
Lemma load_entries_round_trip {V} (section file : string) (total : Z)
      (to_dict : V -> json) (entry : string -> json -> result V)
      (d : Dict.t V) :
  String.eqb "file_path" section = false ->
  String.eqb "total_lines" section = false ->
  Dict.wf d ->
  Forall (fun kv => entry (fst kv) (to_dict (snd kv)) = Ok (snd kv)) d ->
  ApiCacheGenerator.load_entries section entry
    (ApiCacheGenerator.index_document file total section
       (Dict.map_values to_dict d)) = Ok d.
Proof.
  intros H1 H2 Hwf Hentries.
  unfold ApiCacheGenerator.load_entries, ApiCacheGenerator.index_document,
    Json.get_default.
  cbn [Dict.get]. rewrite H1, H2, String.eqb_refl. cbn [bind Json.items].
  unfold Dict.map_values.
  rewrite (mapM_map_inverse
             (fun kv => v <- entry (fst kv) (snd kv) ;; Ok (fst kv, v))).
  - cbn [bind]. now rewrite DictFacts.of_items_wf.
  - eapply Forall_impl; [|exact Hentries]. intros [k v] H. simpl in *.
    now rewrite H.
Qed.

Lemma range_of_round_trip (r : FileRange) :
  ApiCacheGenerator.range_of (FileRange_to_dict r) = Ok r.
Proof. now destruct r. Qed.

Lemma paths_round_trip (file : string) (total : Z) (lines : list string) :
  ApiCacheGenerator.load_paths
    (ApiCacheGenerator.paths_document file total
       (ApiCacheGenerator.scan_paths lines))
  = Ok (ApiCacheGenerator.scan_paths lines).
Proof.
  destruct (scan_paths_valid lines) as [Hwf Hok].
  apply load_entries_round_trip; try reflexivity; try assumption.
  eapply Forall_impl; [|exact Hok]. intros [k [o m p r]] [Hname _].
  simpl in *. subst o.
  unfold ApiCacheGenerator.PathEntry_of_json,
    ApiCacheGenerator.PathEntry_to_dict, Json.item.
  cbn [Dict.get String.eqb Ascii.eqb Bool.eqb bind Json.as_str].
  now rewrite range_of_round_trip.
Qed.

Lemma schemas_round_trip (file : string) (total : Z) (lines : list string) :
  ApiCacheGenerator.load_schemas
    (ApiCacheGenerator.schemas_document file total
       (ApiCacheGenerator.scan_schemas lines))
  = Ok (ApiCacheGenerator.scan_schemas lines).
Proof.
  destruct (scan_schemas_valid lines) as [Hwf Hok].
  apply load_entries_round_trip; try reflexivity; try assumption.
  eapply Forall_impl; [|exact Hok]. intros [k [n r]] [Hname _].
  simpl in *. subst n.
  unfold ApiCacheGenerator.SchemaEntry_of_json,
    ApiCacheGenerator.SchemaEntry_to_dict, Json.item.
  cbn [Dict.get String.eqb Ascii.eqb Bool.eqb bind Json.as_str].
  now rewrite range_of_round_trip.
Qed.

Lemma entities_round_trip (file : string) (total : Z) (lines : list string) :
  ApiCacheGenerator.load_entities
    (ApiCacheGenerator.entities_document file total
       (ApiCacheGenerator.scan_entities file lines))
  = Ok (ApiCacheGenerator.scan_entities file lines).
Proof.
  destruct (scan_entities_valid file lines) as [Hwf Hok].
  apply load_entries_round_trip; try reflexivity; try assumption.
  eapply Forall_impl; [|exact Hok]. intros [k [t n f r c]] [Hname _].
  simpl in *. subst n.
  unfold ApiCacheGenerator.BoilerplateEntity_of_json,
    ApiCacheGenerator.BoilerplateEntity_to_dict, Json.item, Json.get_default.
  cbn [Dict.get String.eqb Ascii.eqb Bool.eqb bind Json.as_str].
  now rewrite range_of_round_trip.
Qed.

Lemma save_then_load (idx : CacheGenerator.FileIndex) (filename : string)
      (s : Runtime.state) :
  Dict.wf (CacheGenerator.ranges idx) ->
  CacheGenerator.load_index filename
    (snd (CacheGenerator.save_index idx filename s))
  = (Ok (Some idx), snd (CacheGenerator.save_index idx filename s)).
Proof.
  intros Hwf.
  unfold CacheGenerator.load_index, CacheGenerator.save_index,
    Runtime.write_document. cbn [snd Runtime.cache_dir].
  rewrite DictFacts.get_set_same.
  now rewrite FileIndex_round_trip.
Qed.

(** C3: for every index an extractor produces, whatever the file, the
    document [save_index] writes (for [api_cache_generator.py], the
    document the indexing method writes) is loaded back as that very
    index: the same names in the same order, each with the same range
    and, where the index records them, the same kind and fields. *)
Theorem index_round_trip (file content : string) (total : Z)
        (filename : string) (s : Runtime.state) :
  let lines := readlines content in
  let saved_and_loaded (idx : CacheGenerator.FileIndex) :=
    CacheGenerator.load_index filename
      (snd (CacheGenerator.save_index idx filename s))
    = (Ok (Some idx), snd (CacheGenerator.save_index idx filename s)) in
  saved_and_loaded (CacheGenerator.index_of CacheGenerator.scan_schema
                                            file content)
  /\ saved_and_loaded (CacheGenerator.index_of CacheGenerator.scan_queries
                                               file content)
  /\ saved_and_loaded (CacheGenerator.index_of CacheGenerator.scan_generated
                                               file content)
  /\ ApiCacheGenerator.load_paths
       (ApiCacheGenerator.paths_document file total
          (ApiCacheGenerator.scan_paths lines))
     = Ok (ApiCacheGenerator.scan_paths lines)
  /\ ApiCacheGenerator.load_schemas
       (ApiCacheGenerator.schemas_document file total
          (ApiCacheGenerator.scan_schemas lines))
     = Ok (ApiCacheGenerator.scan_schemas lines)
  /\ ApiCacheGenerator.load_entities
       (ApiCacheGenerator.entities_document file total
          (ApiCacheGenerator.scan_entities file lines))
     = Ok (ApiCacheGenerator.scan_entities file lines).
Proof.
  cbv zeta. repeat split.
  - apply save_then_load. apply scan_schema_valid.
  - apply save_then_load. apply scan_queries_valid.
  - apply save_then_load. apply scan_generated_valid.
  - apply paths_round_trip.
  - apply schemas_round_trip.
  - apply entities_round_trip.
Qed.

End Persistence.

(* ================================================================== *)
(** * Runs of cache_generator.py *)
(* ================================================================== *)

Section SqlRuns.
Import Py Runtime CacheGenerator.

Variable sha : string -> string.
Variable set_order : list string -> list string.
Variable config : json.
Variable fs : filesystem.

Lemma bindM_ok {A B} (m : M A) (f : A -> M B) (s s' : state) (a : A) :
  m s = (Ok a, s') -> bindM m f s = f a s'.
Proof. intros H. unfold bindM. now rewrite H. Qed.

Lemma bindM_lift_ok {A B} (r : result A) (f : A -> M B) (s : state) (a : A) :
  r = Ok a -> bindM (lift r) f s = f a s.
Proof. intros ->. reflexivity. Qed.

(** [index_file] on a file that exists: the index, if the stored digest
    differs, and the table with the current digest. *)
Lemma index_file_exists (scanner : list string -> Dict.t FileRange)
      (path content : string) (s : state) :
  fs path = Some content ->
  index_file sha fs scanner path s
  = (Ok (if differs (Dict.get path (hashes s)) (sha content)
         then Some (index_of scanner path content) else None),
     mkState (if differs (Dict.get path (hashes s)) (sha content)
              then Dict.set path (sha content) (hashes s) else hashes s)
             (hashes_file s) (cache_dir s) (written s) (printed s)).
Proof.
  intros Hfs.
  unfold index_file, _should_update_file, check_fingerprint, should_reindex,
    bindM, open_text.
  rewrite Hfs.
  destruct (differs (Dict.get path (hashes s)) (sha content));
    cbn; rewrite ?Hfs; cbn; now rewrite app_nil_r.
Qed.

Lemma index_of_wf (scanner : list string -> Dict.t FileRange)
      (path content : string) :
  (forall lines, Dict.wf (scanner lines)) ->
  Dict.wf (ranges (index_of scanner path content)).
Proof. intros H. apply H. Qed.

(** Indexing a file and saving its index: the state afterwards holds
    the document of the index, either written now or current before. *)
Lemma index_and_save (scanner : list string -> Dict.t FileRange)
      (path content filename : string) (s : state) :
  fs path = Some content ->
  document_current sha scanner path content filename (hashes s) (cache_dir s) ->
  exists (o : option FileIndex) (s0 s1 : state),
    index_file sha fs scanner path s = (Ok o, s0)
    /\ match o with
       | Some i => save_index i filename
       | None => ret tt
       end s0 = (Ok tt, s1)
    /\ (o = Some (index_of scanner path content) \/ o = None)
    /\ Dict.get filename (cache_dir s1)
       = Some (FileIndex_to_dict (index_of scanner path content))
    /\ (forall name, name <> filename ->
                     Dict.get name (cache_dir s1) = Dict.get name (cache_dir s))
    /\ (forall key, key <> path ->
                    Dict.get key (hashes s1) = Dict.get key (hashes s))
    /\ hashes_file s1 = hashes_file s
    /\ written s1 = written s
    /\ printed s1 = printed s.
Proof.
  intros Hfs Hcur.
  pose proof (index_file_exists scanner path content s Hfs) as Hindex.
  destruct (differs (Dict.get path (hashes s)) (sha content)) eqn:D.
  - eexists. eexists. eexists. split; [exact Hindex|].
    split; [reflexivity|]. cbn. repeat split; auto.
    + apply DictFacts.get_set_same.
    + intros name Hname. now apply DictFacts.get_set_other.
    + intros key Hkey. now apply DictFacts.get_set_other.
  - apply differs_false in D.
    eexists. eexists. eexists. split; [exact Hindex|].
    split; [reflexivity|]. cbn. repeat split; auto.
Qed.

Lemma bindM_bind_lift {A B C} (r : result A) (a : A) (f : A -> M B)
      (k : B -> M C) (s : state) :
  r = Ok a -> bindM (bindM (lift r) f) k s = bindM (f a) k s.
Proof. intros ->. reflexivity. Qed.

Lemma init_ok (b c : json) (stored : option (Dict.t string))
      (dir : Dict.t json) :
  Json.item "base_path" config = Ok b ->
  Json.item "cache_dir" config = Ok c ->
  init config (fresh stored dir)
  = (Ok tt, mkState (match stored with
                     | Some h => h
                     | None => Dict.empty
                     end) stored dir [] []).
Proof.
  intros Hb Hc. unfold init.
  rewrite (bindM_lift_ok _ _ _ b Hb), (bindM_lift_ok _ _ _ c Hc).
  reflexivity.
Qed.

Lemma or_load_current (o : option FileIndex) (idx : FileIndex)
      (filename : string) (s : state) :
  o = Some idx \/ o = None ->
  Dict.get filename (cache_dir s) = Some (FileIndex_to_dict idx) ->
  Dict.wf (ranges idx) ->
  or_load o filename s = (Ok (Some idx), s).
Proof.
  intros [-> | ->] Hget Hwf; [reflexivity|].
  unfold or_load, load_index. rewrite Hget.
  now rewrite FileIndex_round_trip.
Qed.

(** The first loop over the generated files, none of which exists. *)
Lemma index_generated_missing (items : list (string * json))
      (indices : Dict.t FileIndex) (s : state) :
  Forall (fun kv => exists p, snd kv = JStr p /\ fs p = None) items ->
  index_generated sha fs items indices s = (Ok indices, s).
Proof.
  induction 1 as [|[key v] items [p [Hv Hp]] _ IH]; [reflexivity|].
  simpl in Hv. subst v. cbn [index_generated].
  rewrite (bindM_lift_ok _ _ _ p) by reflexivity.
  unfold exists_. now rewrite Hp.
Qed.

(** The second loop, over stored documents that load. *)
Lemma load_generated_loads (items : list (string * json)) (s : state) :
  Forall (fun kv => exists p, snd kv = JStr p) items ->
  (forall kv p data,
      In kv items -> snd kv = JStr p ->
      Dict.get (index_file_name p) (cache_dir s) = Some data ->
      exists idx, FileIndex_of_json data = Ok idx) ->
  forall indices,
  exists indices', load_generated items indices s = (Ok indices', s).
Proof.
  induction 1 as [|[key v] items [p Hv] _ IH]; intros Hload indices.
  - exists indices. reflexivity.
  - simpl in Hv. subst v. cbn [load_generated].
    assert (Hrest :
              forall kv p data,
                In kv items -> snd kv = JStr p ->
                Dict.get (index_file_name p) (cache_dir s) = Some data ->
                exists idx, FileIndex_of_json data = Ok idx)
      by (intros kv q data Hin; apply Hload; now right).
    destruct (negb (Dict.mem key indices)); [|now apply IH].
    rewrite (bindM_lift_ok _ _ _ p) by reflexivity.
    unfold bindM at 1, load_index.
    destruct (Dict.get (index_file_name p) (cache_dir s)) as [data|] eqn:E;
      [|now apply IH].
    destruct (Hload (key, JStr p) p data (or_introl eq_refl) eq_refl E)
      as [idx Hidx].
    rewrite Hidx. now apply IH.
Qed.

Lemma config_generated_entry (g : Dict.t json) (key p : string) :
  Json.item "generated" config = Ok (JObj g) ->
  config_generated config key = Ok p ->
  In (key, JStr p) g.
Proof.
  intros Hg. unfold config_generated. rewrite Hg. cbn.
  destruct (Dict.get key g) as [v|] eqn:E; [|discriminate].
  destruct v; cbn; try discriminate. intros [= ->].
  now apply DictFacts.get_in.
Qed.

Section Caches.
Variables schema_path query_path schema queries : string.
Variables query_go_path models_go_path : string.
Variable schema_index : FileIndex.
Variable generated_indices : Dict.t FileIndex.

Hypothesis schema_configured : config_str config "schema_file" = Ok schema_path.
Hypothesis query_configured : config_str config "query_file" = Ok query_path.
Hypothesis schema_exists : fs schema_path = Some schema.
Hypothesis query_exists : fs query_path = Some queries.
Hypothesis query_go_configured :
  config_generated config "query_sql_go" = Ok query_go_path.
Hypothesis models_go_configured :
  config_generated config "models_sql_go" = Ok models_go_path.
Hypothesis query_go_missing : fs query_go_path = None.
Hypothesis models_go_missing : fs models_go_path = None.
Hypothesis schema_ranges :
  forall name r, Dict.get name (ranges schema_index) = Some r ->
                 1 <= start_line r.

Lemma extract_generated_code_missing (name : string) :
  extract_generated_code config fs name generated_indices = Ok [].
Proof.
  unfold extract_generated_code.
  rewrite query_go_configured, models_go_configured. cbn [bind].
  unfold exists_. now rewrite query_go_missing, models_go_missing.
Qed.

Lemma generate_query_cache_ok (name : string) (r : FileRange) :
  1 <= start_line r ->
  exists sql tables,
    generate_query_cache set_order config fs name r schema_index
                         generated_indices
    = Ok (mkQueryCache name sql r query_path tables []).
Proof.
  intros Hr. unfold generate_query_cache.
  rewrite query_configured. cbn [bind].
  unfold _read_file_range_content.
  rewrite (read_file_lines_total fs query_path queries (start_line r)
             (end_line r) query_exists Hr).
  cbn [bind].
  destruct (extract_table_dependencies_names set_order config fs
              schema_index schema_path schema schema_configured
              schema_exists schema_ranges
              (join (String newline EmptyString)
                    (List.map rstrip_newline
                       (lines_from_to (readlines queries) (start_line r)
                                      (end_line r)))))
    as [tables [Htables _]].
  rewrite Htables. cbn [bind].
  rewrite extract_generated_code_missing. cbn [bind].
  eexists. eexists. reflexivity.
Qed.

Lemma generate_caches_all (units : list (string * FileRange)) :
  Forall (fun kv => 1 <= start_line (snd kv)) units ->
  forall s,
  exists s' new,
    generate_caches set_order config fs units schema_index
                    generated_indices s = (Ok tt, s')
    /\ written s' = written s ++ new
    /\ Forall2 (bare_cache query_path) units new
    /\ printed s' = printed s
    /\ hashes s' = hashes s.
Proof.
  induction 1 as [|[name r] units Hr _ IH]; intros s.
  - exists s, []. repeat split; try reflexivity.
    + now rewrite app_nil_r.
    + constructor.
  - cbn [generate_caches]. simpl in Hr.
    destruct (generate_query_cache_ok name r Hr) as [sql [tables Hcache]].
    unfold bindM at 1, try_except.
    rewrite (bindM_lift_ok _ _ _ _ Hcache).
    unfold save_query_cache, write_cache. cbn [query_name].
    match goal with
    | |- context [generate_caches _ _ _ units _ _ ?s1] =>
        destruct (IH s1) as [s' [new [Hrun [Hw [Hall [Hp Hh]]]]]]
    end.
    exists s'. eexists. split; [exact Hrun|].
    cbn in Hw, Hp, Hh. repeat split.
    + rewrite Hw, <- app_assoc. reflexivity.
    + constructor; [|exact Hall].
      split; [reflexivity|]. exists sql, tables. reflexivity.
    + exact Hp.
    + exact Hh.
Qed.

End Caches.

(** C9, as the code has it: when the configuration names the generated
    sources and none of the named files exists, a run over a schema
    file and a query file that exist (two files), from a cache
    directory whose documents for them are current and whose documents
    for the generated files load, ends without error, prints no
    diagnostic and writes one cache per query of the query file, in
    their order, each with an empty list of generated code. *)
Theorem missing_generated_files_tolerated
        (schema_path query_path schema queries : string)
        (query_go_path models_go_path : string)
        (base dir_name : json) (generated : Dict.t json)
        (stored : option (Dict.t string)) (dir : Dict.t json) :
  let table := match stored with Some h => h | None => Dict.empty end in
  Json.item "base_path" config = Ok base ->
  Json.item "cache_dir" config = Ok dir_name ->
  config_str config "schema_file" = Ok schema_path ->
  config_str config "query_file" = Ok query_path ->
  Json.item "generated" config = Ok (JObj generated) ->
  config_generated config "query_sql_go" = Ok query_go_path ->
  config_generated config "models_sql_go" = Ok models_go_path ->
  Forall (fun kv => exists p, snd kv = JStr p /\ fs p = None) generated ->
  fs schema_path = Some schema ->
  fs query_path = Some queries ->
  schema_path <> query_path ->
  document_current sha scan_schema schema_path schema
                   "schema.sql.index.json" table dir ->
  document_current sha scan_queries query_path queries
                   "query.sql.index.json" table dir ->
  (forall kv p data,
      In kv generated -> snd kv = JStr p ->
      Dict.get (index_file_name p) dir = Some data ->
      exists idx, FileIndex_of_json data = Ok idx) ->
  let out := run sha set_order config fs stored dir in
  fst out = Ok tt
  /\ printed (snd out) = []
  /\ Forall2 (bare_cache query_path) (scan_queries (readlines queries))
             (written (snd out)).
Proof.
  intros table Hbase Hdir Hsp Hqp Hgen Hgo Hmodels Hmissing Hschema Hqueries
         Hdistinct Hcur_schema Hcur_queries Hloads out.
  subst out. unfold run.
  rewrite (bindM_ok _ _ _ _ _ (init_ok base dir_name stored dir Hbase Hdir)).
  fold table. unfold generate, index_schema_file, index_query_file.
  (* schema.sql *)
  rewrite (bindM_bind_lift _ _ _ _ _ Hsp).
  destruct (index_and_save scan_schema schema_path schema
              "schema.sql.index.json" (mkState table stored dir [] [])
              Hschema Hcur_schema)
    as [o1 [s0 [s1 [Hi1 [Hs1 [Ho1 [Hd1 [Hdo1 [Hh1 [_ [Hw1 Hp1]]]]]]]]]]].
  rewrite (bindM_ok _ _ _ _ _ Hi1), (bindM_ok _ _ _ _ _ Hs1).
  (* query.sql *)
  rewrite (bindM_bind_lift _ _ _ _ _ Hqp).
  assert (Hcur_queries' :
            document_current sha scan_queries query_path queries
              "query.sql.index.json" (hashes s1) (cache_dir s1)).
  { unfold document_current.
    rewrite Hh1 by congruence. rewrite Hdo1 by discriminate.
    exact Hcur_queries. }
  destruct (index_and_save scan_queries query_path queries
              "query.sql.index.json" s1 Hqueries Hcur_queries')
    as [o2 [s0' [s2 [Hi2 [Hs2 [Ho2 [Hd2 [Hdo2 [_ [_ [Hw2 Hp2]]]]]]]]]]].
  rewrite (bindM_ok _ _ _ _ _ Hi2), (bindM_ok _ _ _ _ _ Hs2).
  (* the generated files *)
  rewrite (bindM_lift_ok _ _ _ generated) by (now rewrite Hgen).
  rewrite (bindM_ok _ _ _ _ _
             (index_generated_missing generated Dict.empty s2 Hmissing)).
  (* the indices, new or loaded *)
  assert (Hwf_schema : Dict.wf (ranges (index_of scan_schema schema_path schema)))
    by apply scan_schema_valid.
  assert (Hwf_queries : Dict.wf (ranges (index_of scan_queries query_path queries)))
    by apply scan_queries_valid.
  rewrite (bindM_ok _ _ _ _ _
             (or_load_current o1 _ "schema.sql.index.json" s2 Ho1
                ltac:(rewrite Hdo2 by discriminate; exact Hd1) Hwf_schema)).
  rewrite (bindM_ok _ _ _ _ _
             (or_load_current o2 _ "query.sql.index.json" s2 Ho2 Hd2
                Hwf_queries)).
  destruct (load_generated_loads generated s2) with (indices := @Dict.empty FileIndex)
    as [indices Hload].
  { eapply Forall_impl; [|exact Hmissing]. intros kv [p [Hp _]]. now exists p. }
  { intros kv p data Hin Hkv Hget.
    destruct (string_dec (index_file_name p) "query.sql.index.json") as [E|E].
    - rewrite E, Hd2 in Hget. injection Hget as <-.
      eexists. now apply FileIndex_round_trip.
    - rewrite Hdo2 in Hget by assumption.
      destruct (string_dec (index_file_name p) "schema.sql.index.json")
        as [E'|E'].
      + rewrite E', Hd1 in Hget. injection Hget as <-.
        eexists. now apply FileIndex_round_trip.
      + rewrite Hdo1 in Hget by assumption. now apply (Hloads kv p data). }
  rewrite (bindM_ok _ _ _ _ _ Hload).
  (* the caches *)
  assert (Hstarts : Forall (fun kv : string * FileRange => 1 <= start_line (snd kv))
                           (ranges (index_of scan_queries query_path queries))).
  { eapply Forall_impl; [|apply scan_queries_valid].
    intros kv H. apply H. }
  assert (Hschema_starts :
            forall name r,
              Dict.get name (ranges (index_of scan_schema schema_path schema))
              = Some r -> 1 <= start_line r).
  { intros name r Hget. apply DictFacts.get_in in Hget.
    destruct (scan_schema_valid (readlines schema)) as [_ Hall].
    apply (proj1 (Forall_forall _ _) Hall (name, r) Hget). }
  destruct (generate_caches_all schema_path query_path schema queries
              query_go_path models_go_path
              (index_of scan_schema schema_path schema) indices
              Hsp Hqp Hschema Hqueries Hgo Hmodels
              ltac:(destruct (proj1 (Forall_forall _ _) Hmissing _
                                (config_generated_entry _ _ _ Hgen Hgo))
                     as [p [[= <-] Hp]]; exact Hp)
              ltac:(destruct (proj1 (Forall_forall _ _) Hmissing _
                                (config_generated_entry _ _ _ Hgen Hmodels))
                     as [p [[= <-] Hp]]; exact Hp)
              Hschema_starts _ Hstarts s2)
    as [s3 [new [Hrun [Hw3 [Hall [Hp3 _]]]]]].
  rewrite (bindM_ok _ _ _ _ _ Hrun).
  unfold _save_hashes. cbn [fst snd printed written].
  rewrite Hp3, Hp2, Hp1, Hw3, Hw2, Hw1. cbn [printed written app].
  repeat split. exact Hall.
Qed.

End SqlRuns.

(** C9 as the claim states it fails: a configuration without the
    [generated] object ends the run with a [KeyError]; one whose
    [generated] object names no path lets the run end, with a failure
    reported for the query and no cache written. *)
Lemma omitted_generated_paths_not_tolerated :
  fst (CacheGenerator.run Scenarios.digest (fun l => l)
         Scenarios.config_without_generated Scenarios.users_fs None Dict.empty)
  = Py.Raise (Py.KeyError "generated")
  /\ (let out := CacheGenerator.run Scenarios.digest (fun l => l)
                   Scenarios.config_empty_generated Scenarios.users_fs
                   None Dict.empty in
      fst out = Py.Ok tt
      /\ Dict.keys (CacheGenerator.scan_queries
                      (Py.readlines Scenarios.users_queries)) = ["GetUser"]
      /\ Runtime.written (snd out) = []
      /\ Runtime.printed (snd out)
         = [UnitFailed "GetUser" (Py.KeyError "query_sql_go")]).
Proof. repeat split; vm_compute; reflexivity. Qed.

(* ================================================================== *)
(** * Two runs in a row *)
(* ================================================================== *)

Section SqlcLayout.
Import Py Runtime CacheGenerator Scenarios.

Variable sha : string -> string.
Variable set_order : list string -> list string.
Hypothesis set_order_permutes : forall l, Permutation (set_order l) l.

Lemma bindM_assoc {A B C} (m : M A) (f : A -> M B) (k : B -> M C) (s : state) :
  bindM (bindM m f) k s = bindM m (fun a => bindM (f a) k) s.
Proof. unfold bindM. destruct (m s) as [[a|e] s']; reflexivity. Qed.

Lemma try_except_ok {A} (m : M A) (h : exn -> M A) (s s' : state) (a : A) :
  m s = (Ok a, s') -> try_except m h s = (Ok a, s').
Proof. intros H. unfold try_except. now rewrite H. Qed.

(** [index_file] on a file whose digest is not stored, and on one whose
    stored digest is current. *)
Lemma index_file_new (fs : filesystem)
      (scanner : list string -> Dict.t FileRange)
      (path content : string) (s : state) :
  fs path = Some content ->
  Dict.get path (hashes s) = None ->
  index_file sha fs scanner path s
  = (Ok (Some (index_of scanner path content)),
     mkState (Dict.set path (sha content) (hashes s)) (hashes_file s)
             (cache_dir s) (written s) (printed s)).
Proof.
  intros Hfs Hget.
  rewrite (index_file_exists sha fs scanner path content s Hfs).
  now rewrite Hget.
Qed.

Lemma index_file_same (fs : filesystem)
      (scanner : list string -> Dict.t FileRange)
      (path content : string) (s : state) :
  fs path = Some content ->
  Dict.get path (hashes s) = Some (sha content) ->
  index_file sha fs scanner path s
  = (Ok None,
     mkState (hashes s) (hashes_file s) (cache_dir s) (written s) (printed s)).
Proof.
  intros Hfs Hget.
  rewrite (index_file_exists sha fs scanner path content s Hfs).
  rewrite Hget. simpl. now rewrite String.eqb_refl.
Qed.

Lemma save_index_run (idx : FileIndex) (filename : string) (s : state) :
  save_index idx filename s
  = (Ok tt, mkState (hashes s) (hashes_file s)
                    (Dict.set filename (FileIndex_to_dict idx) (cache_dir s))
                    (written s) (printed s)).
Proof. reflexivity. Qed.

Lemma load_index_current (idx : FileIndex) (filename : string) (s : state) :
  Dict.get filename (cache_dir s) = Some (FileIndex_to_dict idx) ->
  Dict.wf (ranges idx) ->
  load_index filename s = (Ok (Some idx), s).
Proof.
  intros Hget Hwf. unfold load_index. rewrite Hget.
  now rewrite FileIndex_round_trip.
Qed.

Lemma load_index_absent (filename : string) (s : state) :
  Dict.get filename (cache_dir s) = None ->
  load_index filename s = (Ok None, s).
Proof. intros Hget. unfold load_index. now rewrite Hget. Qed.

Lemma one_entry_wf (k : string) (r : FileRange) : Dict.wf [(k, r)].
Proof. repeat constructor. simpl. tauto. Qed.

Lemma users_schema_indexed :
  index_of scan_schema "schema.sql" users_schema = users_index.
Proof. vm_compute. reflexivity. Qed.

Lemma users_queries_indexed :
  index_of scan_queries "query.sql" users_queries = get_user_index.
Proof. vm_compute. reflexivity. Qed.

Lemma query_sql_go_indexed :
  index_of scan_generated "db/query.sql.go" query_sql_go = query_go_index.
Proof. vm_compute. reflexivity. Qed.

Lemma set_order_one (x : string) : set_order [x] = [x].
Proof.
  apply Permutation_length_1_inv, Permutation_sym, set_order_permutes.
Qed.

Lemma set_order_none : set_order [] = [].
Proof. apply Permutation_nil, Permutation_sym, set_order_permutes. Qed.

(** The next statement of the run, [tac] proving what it returns. *)
Ltac step tac := erewrite bindM_ok; [| tac ].

(** The text of the query and the candidate tables, evaluated. *)
Ltac evaluate_query :=
  unfold generate_query_cache, extract_table_dependencies;
  replace (config_str sql_config "query_file") with (Ok "query.sql")
    by reflexivity;
  cbn [bind];
  match goal with
  | |- context [_read_file_range_content ?f ?p ?r] =>
      let v := eval vm_compute in (_read_file_range_content f p r) in
      replace (_read_file_range_content f p r) with v
        by (vm_compute; reflexivity)
  end;
  cbn [bind];
  match goal with
  | |- context [table_candidates ?q] =>
      let v := eval vm_compute in (table_candidates q) in
      replace (table_candidates q) with v by (vm_compute; reflexivity)
  end.

(** The cache of [GetUser] from the index of [query.sql]. *)
Lemma cache_from_query_index :
  generate_query_cache set_order sql_config sqlc_fs "GetUser" (mkRange 1 2)
    users_index [("query_sql_go", query_go_index)] = Ok first_cache.
Proof. evaluate_query. rewrite set_order_one. vm_compute. reflexivity. Qed.

(** The cache of [GetUser] from the index of [query.sql.go]. *)
Lemma cache_from_go_index :
  generate_query_cache set_order sql_config sqlc_fs "GetUser" (mkRange 3 3)
    users_index [("query_sql_go", query_go_index)] = Ok second_cache.
Proof. evaluate_query. rewrite set_order_none. vm_compute. reflexivity. Qed.

(** The configuration read, the three files indexed (or found
    unchanged, [unchanged] being [index_file_same]). *)
Ltac read_generated_paths :=
  rewrite (bindM_lift_ok _ _ _ [("query_sql_go", JStr "db/query.sql.go");
                                ("models_sql_go", JStr "db/models.go")])
    by reflexivity;
  cbn [index_generated];
  rewrite (bindM_bind_lift (Json.as_str (JStr "db/query.sql.go"))
                           "db/query.sql.go") by reflexivity;
  replace (exists_ sqlc_fs "db/query.sql.go") with true by reflexivity;
  cbv iota; unfold index_generated_file; rewrite bindM_assoc.

Ltac skip_models :=
  cbn [index_generated];
  rewrite (bindM_bind_lift (Json.as_str (JStr "db/models.go")) "db/models.go")
    by reflexivity;
  replace (exists_ sqlc_fs "db/models.go") with false by reflexivity;
  cbv iota; cbn [index_generated];
  step ltac:(reflexivity).

Ltac load_models :=
  cbn [load_generated Dict.mem Dict.set Dict.get Dict.empty String.eqb
       Ascii.eqb Bool.eqb negb];
  rewrite bindM_assoc;
  rewrite (bindM_lift_ok _ _ _ "db/models.go") by reflexivity;
  rewrite bindM_assoc;
  step ltac:(apply load_index_absent; reflexivity);
  step ltac:(reflexivity).

(** The first run, from an empty cache directory. *)
Lemma first_run_from_nothing :
  exists s1,
    run sha set_order sql_config sqlc_fs None Dict.empty = (Ok tt, s1)
    /\ hashes_file s1 = Some (sqlc_hashes sha)
    /\ cache_dir s1 = sqlc_dir
    /\ written s1
       = [("GetUser.cache.json", QueryCache_to_dict first_cache)].
Proof.
  unfold run.
  step ltac:(apply (init_ok sql_config (JStr ".") (JStr "cache")); reflexivity).
  unfold generate, index_schema_file, index_query_file.
  rewrite (bindM_bind_lift (config_str sql_config "schema_file") "schema.sql")
    by reflexivity.
  step ltac:(apply (index_file_new sqlc_fs scan_schema "schema.sql"
                                   users_schema); reflexivity).
  rewrite users_schema_indexed.
  step ltac:(apply save_index_run).
  cbn [hashes hashes_file cache_dir written printed].
  rewrite (bindM_bind_lift (config_str sql_config "query_file") "query.sql")
    by reflexivity.
  step ltac:(apply (index_file_new sqlc_fs scan_queries "query.sql"
                                   users_queries); reflexivity).
  rewrite users_queries_indexed.
  step ltac:(apply save_index_run).
  cbn [hashes hashes_file cache_dir written printed].
  read_generated_paths.
  step ltac:(apply (index_file_new sqlc_fs scan_generated "db/query.sql.go"
                                   query_sql_go); reflexivity).
  rewrite query_sql_go_indexed.
  rewrite bindM_assoc.
  step ltac:(apply save_index_run).
  cbn [hashes hashes_file cache_dir written printed].
  replace (index_file_name "db/query.sql.go") with "query.sql.index.json"
    by reflexivity.
  skip_models.
  step ltac:(reflexivity).
  step ltac:(reflexivity).
  load_models.
  cbn [generate_caches ranges get_user_index].
  rewrite bindM_assoc.
  step ltac:(apply try_except_ok;
             erewrite bindM_lift_ok by (apply cache_from_query_index);
             reflexivity).
  step ltac:(reflexivity).
  eexists. split; [reflexivity|]. repeat split.
Qed.

(** The second run, from what the first one left. *)
Lemma second_run_from_first :
  exists s2,
    run sha set_order sql_config sqlc_fs (Some (sqlc_hashes sha)) sqlc_dir
    = (Ok tt, s2)
    /\ written s2
       = [("GetUser.cache.json", QueryCache_to_dict second_cache)].
Proof.
  unfold run.
  step ltac:(apply (init_ok sql_config (JStr ".") (JStr "cache")); reflexivity).
  unfold generate, index_schema_file, index_query_file.
  rewrite (bindM_bind_lift (config_str sql_config "schema_file") "schema.sql")
    by reflexivity.
  step ltac:(apply (index_file_same sqlc_fs scan_schema "schema.sql"
                                    users_schema); reflexivity).
  step ltac:(reflexivity).
  cbn [hashes hashes_file cache_dir written printed].
  rewrite (bindM_bind_lift (config_str sql_config "query_file") "query.sql")
    by reflexivity.
  step ltac:(apply (index_file_same sqlc_fs scan_queries "query.sql"
                                    users_queries); reflexivity).
  step ltac:(reflexivity).
  cbn [hashes hashes_file cache_dir written printed].
  read_generated_paths.
  step ltac:(apply (index_file_same sqlc_fs scan_generated "db/query.sql.go"
                                    query_sql_go); reflexivity).
  cbn [hashes hashes_file cache_dir written printed].
  skip_models.
  unfold or_load.
  step ltac:(apply (load_index_current users_index);
             [reflexivity | apply one_entry_wf]).
  step ltac:(apply (load_index_current query_go_index);
             [reflexivity | apply one_entry_wf]).
  cbn [load_generated Dict.mem Dict.set Dict.get Dict.empty String.eqb
       Ascii.eqb Bool.eqb negb].
  rewrite bindM_assoc.
  rewrite (bindM_lift_ok _ _ _ "db/query.sql.go") by reflexivity.
  rewrite bindM_assoc.
  replace (index_file_name "db/query.sql.go") with "query.sql.index.json"
    by reflexivity.
  step ltac:(apply (load_index_current query_go_index);
             [reflexivity | apply one_entry_wf]).
  load_models.
  cbn [generate_caches ranges query_go_index].
  rewrite bindM_assoc.
  step ltac:(apply try_except_ok;
             erewrite bindM_lift_ok by (apply cache_from_go_index);
             reflexivity).
  step ltac:(reflexivity).
  eexists. split; reflexivity.
Qed.

(** C1 at the layout sqlc gives ([query.sql] and the [query.sql.go]
    generated from it), two runs in a row over unchanged files, the first
    from an empty cache directory, whatever the digest function and the
    order in which sets are iterated.  The index of [query.sql.go] is
    saved under the name of the index of [query.sql]; the second run
    loads it as the query index and writes, for [GetUser], a cache that
    differs from the one the first run wrote. *)
Theorem second_run_writes_other_cache :
  let first := run sha set_order sql_config sqlc_fs None Dict.empty in
  let second := run sha set_order sql_config sqlc_fs
                    (hashes_file (snd first)) (cache_dir (snd first)) in
  index_file_name "db/query.sql.go" = "query.sql.index.json"
  /\ fst first = Ok tt
  /\ fst second = Ok tt
  /\ written (snd first)
     = [("GetUser.cache.json", QueryCache_to_dict first_cache)]
  /\ written (snd second)
     = [("GetUser.cache.json", QueryCache_to_dict second_cache)]
  /\ written (snd first) <> written (snd second).
Proof.
  cbv zeta.
  destruct first_run_from_nothing as [s1 [H1 [Hh [Hd Hw1]]]].
  rewrite H1. cbn [fst snd]. rewrite Hh, Hd.
  destruct second_run_from_first as [s2 [H2 Hw2]].
  rewrite H2. cbn [fst snd]. rewrite Hw1, Hw2.
  repeat split. discriminate.
Qed.

End SqlcLayout.

(** C1's two runs with a concrete digest and sets iterated in insertion
    order. *)
Lemma second_run_writes_other_cache_witness :
  let first := CacheGenerator.run Scenarios.digest (fun l => l)
                 Scenarios.sql_config Scenarios.sqlc_fs None Dict.empty in
  let second := CacheGenerator.run Scenarios.digest (fun l => l)
                  Scenarios.sql_config Scenarios.sqlc_fs
                  (Runtime.hashes_file (snd first))
                  (Runtime.cache_dir (snd first)) in
  Runtime.written (snd first) <> Runtime.written (snd second).
Proof.
  apply (second_run_writes_other_cache Scenarios.digest (fun l => l)).
  intros l. apply Permutation_refl.
Defined.

(* ================================================================== *)
(** * The statements at concrete inputs *)
(* ================================================================== *)

(** C10 at a file of three lines, read from line 2 to line 10. *)
Lemma range_readers_total_witness :
  CacheGenerator._read_file_lines
    (Scenarios.files [("f", Scenarios.three_lines)]) "f" 2 10
  = Py.Ok ["b"; "c"]
  /\ ApiCacheGenerator._read_range
       (Scenarios.files [("f", Scenarios.three_lines)]) "f" (mkRange 2 10)
     = Py.Ok ("b" ++ Scenarios.nl ++ "c" ++ Scenarios.nl)%string.
Proof.
  destruct (range_readers_total
              (Scenarios.files [("f", Scenarios.three_lines)]) "f"
              Scenarios.three_lines 2 10) as [H1 [[text [H2 H3]] _]].
  - reflexivity.
  - lia.
  - split; [exact H1|]. rewrite H2, H3 by lia. reflexivity.
Defined.

(** C6 at a document of nine lines: [/tasks:] is line 3, [components:]
    line 9. *)
Lemma tasks_operation_indexed_witness :
  ApiCacheGenerator.scan_paths Scenarios.tasks_example
  = [("ListTasks",
      ApiCacheGenerator.mkPath "ListTasks" "GET" "/tasks" (mkRange 3 8))].
Proof.
  destruct (tasks_operation_indexed
              [("openapi: 3.0.0" ++ Scenarios.nl)%string]
              [("      summary: List tasks" ++ Scenarios.nl)%string]
              [("      responses:" ++ Scenarios.nl)%string;
               ("        '200':" ++ Scenarios.nl)%string]
              [("  schemas: {}" ++ Scenarios.nl)%string]) as [_ [_ H]].
  - repeat constructor; vm_compute; discriminate.
  - repeat constructor; vm_compute; reflexivity.
  - repeat constructor; vm_compute; reflexivity.
  - repeat constructor; vm_compute; reflexivity.
  - exact H.
Defined.

(** C9 at a first run over a schema and a query file, the configuration
    naming two generated files that do not exist. *)
Lemma missing_generated_files_tolerated_witness :
  let out := CacheGenerator.run Scenarios.digest (fun l => l)
               Scenarios.sql_config Scenarios.users_fs None Dict.empty in
  fst out = Py.Ok tt
  /\ Runtime.printed (snd out) = []
  /\ Forall2 (bare_cache "query.sql")
             (CacheGenerator.scan_queries (Py.readlines Scenarios.users_queries))
             (Runtime.written (snd out)).
Proof.
  apply (missing_generated_files_tolerated Scenarios.digest (fun l => l)
           Scenarios.sql_config Scenarios.users_fs
           "schema.sql" "query.sql" Scenarios.users_schema
           Scenarios.users_queries "db/query.sql.go" "db/models.go"
           (JStr ".") (JStr "cache")
           [("query_sql_go", JStr "db/query.sql.go");
            ("models_sql_go", JStr "db/models.go")]
           None Dict.empty); try reflexivity.
  - repeat constructor; eexists; split; reflexivity.
  - discriminate.
  - intros H. discriminate H.
  - intros H. discriminate H.
  - intros kv p data _ _ H. discriminate H.
Defined.

(* ================================================================== *)
(** * Runs of api_cache_generator.py *)
(* ================================================================== *)

Section ApiRuns.
Import Py Runtime ApiCacheGenerator.

Variable sha : string -> string.
Variable fs : filesystem.

Lemma string_length_append (s t : string) :
  String.length (s ++ t) = (String.length s + String.length t)%nat.
Proof. induction s as [|c s IH]; simpl; [reflexivity | now rewrite IH]. Qed.

Lemma drop_append (s t : string) : drop (String.length s) (s ++ t) = t.
Proof. induction s as [|c s IH]; [now destruct t | exact IH]. Qed.

(** No cache document has the name of an index document. *)
Lemma cache_name_not_index (op_id name : string) :
  In name api_index_names -> name <> cache_file_name op_id.
Proof.
  intros Hin Heq. unfold cache_file_name in Heq.
  pose proof (f_equal String.length Heq) as Hlen.
  rewrite string_length_append in Hlen.
  pose proof (drop_append op_id ".api.cache.json") as Hdrop.
  rewrite <- Heq in Hdrop.
  destruct Hin as [<- | [<- | [<- | []]]]; simpl in Hlen.
  - replace (String.length op_id) with 10%nat in Hdrop by lia. discriminate.
  - replace (String.length op_id) with 12%nat in Hdrop by lia. discriminate.
  - replace (String.length op_id) with 14%nat in Hdrop by lia. discriminate.
Qed.

Section Indexing.
Context {V : Type}.
Variables rel_key path index_name : string.
Variable load : json -> result (Dict.t V).
Variable scan : list string -> Dict.t V.
Variable document : Z -> Dict.t V -> json.

Hypothesis round_trip :
  forall total lines, load (document total (scan lines)) = Ok (scan lines).

(** An indexing that returns leaves its index settled, and touches no
    other document and no other digest. *)
Lemma index_with_settles (s s' : state) (index : Dict.t V) :
  index_with sha fs rel_key path index_name load scan document s
  = (Ok index, s') ->
  settled sha fs rel_key path index_name load index s'
  /\ (forall name, name <> index_name ->
                   Dict.get name (cache_dir s') = Dict.get name (cache_dir s))
  /\ (forall key, key <> rel_key ->
                  Dict.get key (hashes s') = Dict.get key (hashes s))
  /\ hashes_file s' = hashes_file s
  /\ written s' = written s.
Proof.
  unfold index_with, _should_reindex, check_fingerprint, should_reindex,
    bindM at 1, _read_all_lines, open_text, settled.
  destruct (fs path) as [content|] eqn:Hfs.
  - destruct (differs (Dict.get rel_key (hashes s)) (sha content)) eqn:D;
      cbn [hashes cache_dir].
    + cbn. intros [= <- <-]. cbn. repeat split; auto.
      * eexists. split; [apply DictFacts.get_set_same | apply round_trip].
      * intros c [= <-]. apply DictFacts.get_set_same.
      * intros name Hname. now apply DictFacts.get_set_other.
      * intros key Hkey. now apply DictFacts.get_set_other.
    + apply differs_false in D.
      destruct (Dict.get index_name (cache_dir s)) as [data|] eqn:E.
      * unfold lift. destruct (load data) as [d|e] eqn:L; [|discriminate].
        intros [= <- <-]. cbn. repeat split; auto.
        -- exists data. split; assumption.
        -- intros c [= <-]. exact D.
      * cbn. intros [= <- <-]. cbn. repeat split; auto.
        -- eexists. split; [apply DictFacts.get_set_same | apply round_trip].
        -- intros c [= <-]. exact D.
        -- intros name Hname. now apply DictFacts.get_set_other.
  - cbn [hashes cache_dir].
    destruct (Dict.get index_name (cache_dir s)) as [data|] eqn:E.
    + unfold lift. destruct (load data) as [d|e] eqn:L; [|discriminate].
      intros [= <- <-]. cbn. repeat split; auto.
      * exists data. split; assumption.
      * intros c Hc. discriminate Hc.
    + cbn. discriminate.
Qed.

(** A settled index is loaded: the indexing returns it and changes
    neither the documents nor the table of hashes. *)
Lemma index_with_loads (s : state) (index : Dict.t V) :
  settled sha fs rel_key path index_name load index s ->
  exists s',
    index_with sha fs rel_key path index_name load scan document s
    = (Ok index, s')
    /\ cache_dir s' = cache_dir s
    /\ hashes s' = hashes s
    /\ hashes_file s' = hashes_file s
    /\ written s' = written s.
Proof.
  intros [[data [Hget Hload]] Hhash].
  unfold index_with, _should_reindex, check_fingerprint, should_reindex,
    bindM at 1.
  destruct (fs path) as [content|] eqn:Hfs.
  - specialize (Hhash content eq_refl).
    apply differs_false in Hhash. rewrite Hhash. cbn [hashes cache_dir].
    rewrite Hget. unfold lift. rewrite Hload.
    eexists. split; [reflexivity|]. cbn. repeat split; reflexivity.
  - cbn [hashes cache_dir]. rewrite Hget. unfold lift. rewrite Hload.
    eexists. split; [reflexivity|]. cbn. repeat split; reflexivity.
Qed.

(** Being settled depends on the index document and the table only. *)
Lemma settled_transfer (s t : state) (index : Dict.t V) :
  settled sha fs rel_key path index_name load index s ->
  Dict.get index_name (cache_dir t) = Dict.get index_name (cache_dir s) ->
  (forall content, fs path = Some content ->
                   Dict.get rel_key (hashes t) = Dict.get rel_key (hashes s)) ->
  settled sha fs rel_key path index_name load index t.
Proof.
  intros [[data [Hget Hload]] Hhash] Hdir Htable. split.
  - exists data. split; [congruence | assumption].
  - intros content Hc. rewrite (Htable content Hc). now apply Hhash.
Qed.

End Indexing.

Section Caches.
Variables spec_file boilerplate_file : string.
Variable schema_index : Dict.t SchemaEntry.
Variable boilerplate_index : Dict.t BoilerplateEntity.

(** The loop over the operations always ends; what it writes does not
    depend on the state, and it touches no index document. *)
Lemma generate_caches_writes (operations : list (string * PathEntry)) :
  forall s,
  exists s',
    generate_caches fs spec_file boilerplate_file operations schema_index
                    boilerplate_index s = (Ok tt, s')
    /\ written s'
       = written s ++ operation_caches fs spec_file boilerplate_file
                        operations schema_index boilerplate_index
    /\ hashes s' = hashes s
    /\ hashes_file s' = hashes_file s
    /\ forall name, In name api_index_names ->
                    Dict.get name (cache_dir s') = Dict.get name (cache_dir s).
Proof.
  induction operations as [|[op_id entry] rest IH]; intros s.
  - exists s. cbn. rewrite app_nil_r. repeat split; reflexivity.
  - cbn [generate_caches operation_caches].
    unfold bindM at 1, try_except, generate_operation_cache, bindM at 1, lift.
    destruct (operation_cache fs spec_file boilerplate_file entry schema_index
                              boilerplate_index) as [doc|e].
    + unfold write_cache.
      match goal with
      | |- context [generate_caches _ _ _ rest _ _ ?s1] =>
          destruct (IH s1) as [s' [Hrun [Hw [Hh [Hf Hd]]]]]
      end.
      exists s'. split; [exact Hrun|]. cbn in Hw, Hh, Hf, Hd.
      repeat split; try assumption.
      * rewrite Hw, <- app_assoc. reflexivity.
      * intros name Hname. rewrite (Hd name Hname).
        apply DictFacts.get_set_other. now apply cache_name_not_index.
    + unfold print.
      match goal with
      | |- context [generate_caches _ _ _ rest _ _ ?s1] =>
          destruct (IH s1) as [s' [Hrun [Hw [Hh [Hf Hd]]]]]
      end.
      exists s'. split; [exact Hrun|]. cbn in Hw, Hh, Hf, Hd.
      repeat split; assumption.
Qed.

End Caches.

(** [generate] from a state in which the three indices are settled: they
    are loaded and their caches written. *)
Lemma generate_settled (spec_file boilerplate_file : string)
      (paths_index : Dict.t PathEntry) (schemas_index : Dict.t SchemaEntry)
      (entities_index : Dict.t BoilerplateEntity) (s : state) :
  settled sha fs "taskflow.yaml" spec_file "taskflow.paths.index.json"
          load_paths paths_index s ->
  settled sha fs "taskflow.yaml.schemas" spec_file
          "taskflow.schemas.index.json" load_schemas schemas_index s ->
  settled sha fs "boilerplate.gen.go" boilerplate_file
          "boilerplate.gen.go.index.json" load_entities entities_index s ->
  exists s',
    generate sha fs spec_file boilerplate_file s = (Ok tt, s')
    /\ written s'
       = written s ++ operation_caches fs spec_file boilerplate_file
                        paths_index schemas_index entities_index.
Proof.
  intros Hpaths Hschemas Hentities. unfold generate.
  destruct (index_with_loads "taskflow.yaml" spec_file
              "taskflow.paths.index.json" load_paths scan_paths
              (paths_document spec_file) s paths_index Hpaths)
    as [s1 [H1 [Hd1 [Hh1 [_ Hw1]]]]].
  unfold index_paths. rewrite (bindM_ok _ _ _ _ _ H1).
  assert (Hschemas1 : settled sha fs "taskflow.yaml.schemas" spec_file
                              "taskflow.schemas.index.json" load_schemas
                              schemas_index s1).
  { apply (settled_transfer _ _ _ _ s); [assumption | congruence |].
    intros _ _. congruence. }
  destruct (index_with_loads "taskflow.yaml.schemas" spec_file
              "taskflow.schemas.index.json" load_schemas scan_schemas
              (schemas_document spec_file) s1 schemas_index Hschemas1)
    as [s2 [H2 [Hd2 [Hh2 [_ Hw2]]]]].
  unfold index_schemas. rewrite (bindM_ok _ _ _ _ _ H2).
  assert (Hentities2 : settled sha fs "boilerplate.gen.go" boilerplate_file
                               "boilerplate.gen.go.index.json" load_entities
                               entities_index s2).
  { apply (settled_transfer _ _ _ _ s); [assumption | congruence |].
    intros _ _. congruence. }
  destruct (index_with_loads "boilerplate.gen.go" boilerplate_file
              "boilerplate.gen.go.index.json" load_entities
              (scan_entities boilerplate_file)
              (entities_document boilerplate_file) s2 entities_index Hentities2)
    as [s3 [H3 [_ [_ [_ Hw3]]]]].
  unfold index_boilerplate. rewrite (bindM_ok _ _ _ _ _ H3).
  destruct (generate_caches_writes spec_file boilerplate_file schemas_index
              entities_index paths_index s3) as [s4 [H4 [Hw4 _]]].
  rewrite (bindM_ok _ _ _ _ _ H4). unfold _save_hashes.
  eexists. split; [reflexivity|]. cbn [written].
  rewrite Hw4, Hw3, Hw2, Hw1. reflexivity.
Qed.

(** [generate] that returns leaves the three indices settled in the
    cache directory, with the table of hashes stored. *)
Lemma generate_settles (spec_file boilerplate_file : string) (s s' : state) :
  generate sha fs spec_file boilerplate_file s = (Ok tt, s') ->
  exists paths_index schemas_index entities_index,
    written s'
    = written s ++ operation_caches fs spec_file boilerplate_file
                     paths_index schemas_index entities_index
    /\ hashes_file s' = Some (hashes s')
    /\ settled sha fs "taskflow.yaml" spec_file "taskflow.paths.index.json"
               load_paths paths_index s'
    /\ settled sha fs "taskflow.yaml.schemas" spec_file
               "taskflow.schemas.index.json" load_schemas schemas_index s'
    /\ settled sha fs "boilerplate.gen.go" boilerplate_file
               "boilerplate.gen.go.index.json" load_entities entities_index s'.
Proof.
  unfold generate, index_paths, index_schemas, index_boilerplate.
  unfold bindM at 1.
  destruct (index_with sha fs "taskflow.yaml" spec_file
              "taskflow.paths.index.json" load_paths scan_paths
              (paths_document spec_file) s) as [[paths_index|e] s1] eqn:E1;
    [|discriminate].
  unfold bindM at 1.
  destruct (index_with sha fs "taskflow.yaml.schemas" spec_file
              "taskflow.schemas.index.json" load_schemas scan_schemas
              (schemas_document spec_file) s1) as [[schemas_index|e] s2] eqn:E2;
    [|discriminate].
  unfold bindM at 1.
  destruct (index_with sha fs "boilerplate.gen.go" boilerplate_file
              "boilerplate.gen.go.index.json" load_entities
              (scan_entities boilerplate_file)
              (entities_document boilerplate_file) s2)
    as [[entities_index|e] s3] eqn:E3; [|discriminate].
  destruct (generate_caches_writes spec_file boilerplate_file schemas_index
              entities_index paths_index s3) as [s4 [H4 [Hw4 [Hh4 [_ Hd4]]]]].
  rewrite (bindM_ok _ _ _ _ _ H4). unfold _save_hashes. intros [= <-].
  apply (index_with_settles _ _ _ _ _ _ (paths_round_trip spec_file)) in E1.
  apply (index_with_settles _ _ _ _ _ _ (schemas_round_trip spec_file)) in E2.
  apply (index_with_settles _ _ _ _ _ _ (entities_round_trip boilerplate_file))
    in E3.
  destruct E1 as [S1 [_ [_ [_ W1]]]].
  destruct E2 as [S2 [D2 [T2 [_ W2]]]].
  destruct E3 as [S3 [D3 [T3 [_ W3]]]].
  exists paths_index, schemas_index, entities_index.
  cbn [written hashes_file hashes].
  split; [rewrite Hw4, W3, W2, W1; reflexivity|].
  split; [reflexivity|].
  split; [|split].
  - apply (settled_transfer _ _ _ _ s1); [assumption | |].
    + cbn [cache_dir]. rewrite Hd4 by (simpl; tauto).
      rewrite D3 by discriminate. now rewrite D2 by discriminate.
    + intros _ _. cbn [hashes]. rewrite Hh4.
      rewrite T3 by discriminate. now rewrite T2 by discriminate.
  - apply (settled_transfer _ _ _ _ s2); [assumption | |].
    + cbn [cache_dir]. rewrite Hd4 by (simpl; tauto).
      now rewrite D3 by discriminate.
    + intros _ _. cbn [hashes]. rewrite Hh4.
      now rewrite T3 by discriminate.
  - apply (settled_transfer _ _ _ _ s3); [assumption | |].
    + cbn [cache_dir]. now rewrite Hd4 by (simpl; tauto).
    + intros _ _. cbn [hashes]. now rewrite Hh4.
Qed.

(** X1: two runs of [api_cache_generator.py] in a row over unchanged
    files: when the first run ends without error, whatever the cache
    directory it started from, the second ends without error and writes
    the same operation caches, document for document. *)
Theorem api_second_run_writes_same_caches (config : json)
        (stored : option (Dict.t string)) (dir : Dict.t json) :
  let first := run sha config fs stored dir in
  let second := run sha config fs (hashes_file (snd first))
                    (cache_dir (snd first)) in
  fst first = Ok tt ->
  fst second = Ok tt /\ written (snd second) = written (snd first).
Proof.
  cbv zeta. unfold run.
  destruct (Json.item "base_path" config) as [base|e]; [|discriminate].
  destruct (x <- Json.item "spec_file" config ;; Json.as_str x)
    as [spec_file|e]; [|discriminate].
  destruct (x <- Json.item "boilerplate_file" config ;; Json.as_str x)
    as [boilerplate_file|e]; [|discriminate].
  cbn [bindM lift fresh _load_hashes].
  match goal with
  | |- fst (generate _ _ _ _ ?s0) = _ -> _ =>
      destruct (generate sha fs spec_file boilerplate_file s0)
        as [[[]|e] s1] eqn:E1; [|discriminate]
  end.
  intros _. cbn [fst snd].
  destruct (generate_settles spec_file boilerplate_file _ _ E1)
    as [p [sc [en [Hw [Hf [Sp [Ss Se]]]]]]].
  rewrite Hf.
  match goal with
  | |- context [generate _ _ _ _ ?r0] =>
      destruct (generate_settled spec_file boilerplate_file p sc en r0)
        as [r1 [E2 Hw2]]
  end.
  - apply (settled_transfer _ _ _ _ s1); [assumption | reflexivity |].
    intros _ _. reflexivity.
  - apply (settled_transfer _ _ _ _ s1); [assumption | reflexivity |].
    intros _ _. reflexivity.
  - apply (settled_transfer _ _ _ _ s1); [assumption | reflexivity |].
    intros _ _. reflexivity.
  - rewrite E2. cbn [fst snd]. split; [reflexivity|].
    rewrite Hw2, Hw. reflexivity.
Qed.

End ApiRuns.

(** Two runs over a specification of one operation and its server code,
    the first from an empty cache directory. *)
Lemma api_second_run_writes_same_caches_witness :
  let first := ApiCacheGenerator.run Scenarios.digest Scenarios.api_config
                 Scenarios.api_fs None Dict.empty in
  let second := ApiCacheGenerator.run Scenarios.digest Scenarios.api_config
                  Scenarios.api_fs (Runtime.hashes_file (snd first))
                  (Runtime.cache_dir (snd first)) in
  fst first = Py.Ok tt
  /\ List.map fst (Runtime.written (snd first)) = ["ListTasks.api.cache.json"]
  /\ fst second = Py.Ok tt
  /\ Runtime.written (snd second) = Runtime.written (snd first).
Proof.
  cbv zeta. split; [vm_compute; reflexivity|].
  split; [vm_compute; reflexivity|].
  apply (api_second_run_writes_same_caches Scenarios.digest Scenarios.api_fs
           Scenarios.api_config None Dict.empty).
  vm_compute. reflexivity.
Defined.

(* ================================================================== *)
(** * Fingerprints, checked twice *)
(* ================================================================== *)

Section FingerprintTwice.
Import Runtime.
Variable sha : string -> string.
Variable fs : filesystem.

Lemma should_reindex_again (table : Dict.t string) (key path : string) :
  let first := should_reindex sha fs table key path in
  should_reindex sha fs (snd (fst first)) key path
  = (false, snd (fst first),
     match fs path with Some _ => [] | None => [FileMissing path] end).
Proof.
  unfold should_reindex. destruct (fs path) as [content|] eqn:E; simpl.
  - destruct (differs (Dict.get key table) (sha content)) eqn:D; simpl.
    + rewrite DictFacts.get_set_same. simpl.
      now rewrite String.eqb_refl.
    + rewrite D. reflexivity.
  - reflexivity.
Qed.

(** X2: a fingerprint check that follows another on the same key and
    file answers false and leaves the table as it is, in both programs:
    the first check has entered the digest.  (Hence the second key,
    [taskflow.yaml.schemas], under which [index_schemas] checks the file
    [index_paths] has just checked.) *)
Theorem fingerprint_check_twice (key path : string) (s : state) :
  let api1 := ApiCacheGenerator._should_reindex sha fs key path s in
  let api2 := ApiCacheGenerator._should_reindex sha fs key path (snd api1) in
  let sql1 := CacheGenerator._should_update_file sha fs path key s in
  let sql2 := CacheGenerator._should_update_file sha fs path key (snd sql1) in
  fst api2 = Py.Ok false /\ hashes (snd api2) = hashes (snd api1)
  /\ fst sql2 = Py.Ok false /\ hashes (snd sql2) = hashes (snd sql1).
Proof.
  cbv zeta.
  unfold ApiCacheGenerator._should_reindex, CacheGenerator._should_update_file,
    check_fingerprint.
  pose proof (should_reindex_again (hashes s) key path) as H. cbv zeta in H.
  destruct (should_reindex sha fs (hashes s) key path) as [[a t] o].
  cbn [fst snd hashes] in *. rewrite H. cbn [fst snd hashes]. tauto.
Qed.

End FingerprintTwice.

(* ================================================================== *)
(** * Range reading at the edges *)
(* ================================================================== *)

Section RangeEdges.
Import Py.

Lemma join_empty_cons (x : string) (xs : list string) :
  join EmptyString (x :: xs) = (x ++ join EmptyString xs)%string.
Proof.
  destruct xs as [|y ys]; simpl; [|reflexivity].
  induction x as [|c x IH]; simpl; [reflexivity|]. now rewrite <- IH.
Qed.

Lemma string_app_assoc (a b c : string) :
  ((a ++ b) ++ c = a ++ (b ++ c))%string.
Proof. induction a as [|x a IH]; simpl; [reflexivity|]. now rewrite IH. Qed.

Lemma join_empty_app (l1 l2 : list string) :
  join EmptyString (l1 ++ l2)
  = (join EmptyString l1 ++ join EmptyString l2)%string.
Proof.
  induction l1 as [|x l1 IH]; [reflexivity|].
  rewrite <- app_comm_cons, !join_empty_cons, IH.
  now rewrite string_app_assoc.
Qed.

Lemma splitlines_keepends_nil (s : string) :
  splitlines_keepends s = [] -> s = EmptyString.
Proof.
  destruct s as [|c r]; [reflexivity|]. simpl.
  destruct (Ascii.eqb c newline); [discriminate|].
  destruct (splitlines_keepends r); discriminate.
Qed.

Lemma join_splitlines_keepends (s : string) :
  join EmptyString (splitlines_keepends s) = s.
Proof.
  induction s as [|c r IH]; [reflexivity|].
  cbn [splitlines_keepends].
  destruct (Ascii.eqb c newline).
  - rewrite join_empty_cons, IH. reflexivity.
  - destruct (splitlines_keepends r) as [|l ls] eqn:E.
    + apply splitlines_keepends_nil in E. now subst r.
    + rewrite join_empty_cons in *. simpl. now rewrite IH.
Qed.

Lemma firstn_plus {A} (x y : nat) (l : list A) :
  firstn (x + y) l = firstn x l ++ firstn y (skipn x l).
Proof.
  revert l. induction x as [|x IH]; intros l; [reflexivity|].
  destruct l as [|a l]; simpl.
  - now rewrite firstn_nil.
  - now rewrite IH.
Qed.

Lemma lines_from_to_adjacent (lines : list string) (a b c : Z) :
  1 <= a -> a - 1 <= b -> b <= c ->
  lines_from_to lines a c
  = lines_from_to lines a b ++ lines_from_to lines (b + 1) c.
Proof.
  intros Ha Hb Hc. unfold lines_from_to.
  set (n := Z.of_nat (List.length lines)).
  destruct (Z.le_gt_cases b n) as [Hle | Hgt].
  - rewrite (Z.min_l b n) by lia.
    replace (Z.to_nat (Z.min c n - (a - 1)))
      with (Z.to_nat (b - (a - 1)) + Z.to_nat (Z.min c n - (b + 1 - 1)))%nat
      by lia.
    rewrite firstn_plus, skipn_skipn.
    do 3 f_equal. lia.
  - rewrite (Z.min_r b n), (Z.min_r c n) by lia.
    replace (Z.to_nat (n - (b + 1 - 1))) with 0%nat by lia.
    simpl. now rewrite app_nil_r.
Qed.

Lemma lines_from_to_all (lines : list string) (first last : Z) :
  first <= 1 -> Z.of_nat (List.length lines) <= last ->
  lines_from_to lines (Z.max first 1) last = lines.
Proof.
  intros Hf Hl. unfold lines_from_to.
  rewrite Z.max_r, Z.min_r by lia. simpl.
  apply firstn_all2. lia.
Qed.


(** X4: [_read_range] over a range that covers the file (from line 1 or
    below to the last line or beyond) returns the text of the file, as
    text mode reads it. *)
Theorem read_range_whole_file (fs : filesystem) (path content : string)
        (first last : Z) :
  fs path = Some content ->
  first <= 1 ->
  Z.of_nat (List.length (readlines content)) <= last ->
  ApiCacheGenerator._read_range fs path (mkRange first last)
  = Ok (universal_newlines content).
Proof.
  intros Hfs Hfirst Hlast.
  unfold ApiCacheGenerator._read_range, ApiCacheGenerator._read_all_lines,
    Runtime.open_text.
  rewrite Hfs. cbn [bind]. f_equal.
  unfold ApiCacheGenerator.read_range_of, slice, slice_bound.
  cbn [start_line end_line].
  set (n := Z.of_nat (List.length (readlines content))) in *.
  rewrite (Z.max_r first 1), (Z.min_r last n) by lia.
  replace (1 - 1 <? 0) with false by reflexivity.
  replace (n <? 0) with false by (symmetry; apply Z.ltb_ge; lia).
  rewrite Z.min_id, (Z.min_l (1 - 1) n) by lia.
  simpl skipn. rewrite firstn_all2 by lia.
  apply join_splitlines_keepends.
Qed.

(** X5: two ranges that follow one another read as the range that
    spans them: the text [_read_range] returns for [a..c] is the text of
    [a..b] followed by the text of [b+1..c], and the lines
    [_read_file_lines] returns are the lines of the one followed by the
    lines of the other. *)
Theorem adjacent_ranges_concatenate (fs : filesystem) (path content : string)
        (a b c : Z) :
  fs path = Some content ->
  1 <= a -> a - 1 <= b -> b <= c ->
  (exists upper lower,
      ApiCacheGenerator._read_range fs path (mkRange a b) = Ok upper
      /\ ApiCacheGenerator._read_range fs path (mkRange (b + 1) c) = Ok lower
      /\ ApiCacheGenerator._read_range fs path (mkRange a c)
         = Ok (upper ++ lower)%string)
  /\ (exists upper lower,
         CacheGenerator._read_file_lines fs path a b = Ok upper
         /\ CacheGenerator._read_file_lines fs path (b + 1) c = Ok lower
         /\ CacheGenerator._read_file_lines fs path a c = Ok (upper ++ lower)).
Proof.
  intros Hfs Ha Hb Hc. split.
  - unfold ApiCacheGenerator._read_range, ApiCacheGenerator._read_all_lines,
      Runtime.open_text.
    rewrite Hfs. cbn [bind]. do 2 eexists.
    split; [reflexivity|]. split; [reflexivity|].
    rewrite !read_range_of_lines by lia.
    rewrite (lines_from_to_adjacent _ a b c) by lia.
    now rewrite join_empty_app.
  - rewrite !(read_file_lines_total fs path content) by (assumption || lia).
    do 2 eexists. split; [reflexivity|]. split; [reflexivity|].
    rewrite (lines_from_to_adjacent _ a b c) by lia.
    now rewrite map_app.
Qed.

Lemma mapM_app {A B} (f : A -> result B) (l1 l2 : list A) :
  mapM f (l1 ++ l2)
  = (xs <- mapM f l1 ;; ys <- mapM f l2 ;; Ok (xs ++ ys)).
Proof.
  induction l1 as [|x l1 IH]; simpl.
  - destruct (mapM f l2); reflexivity.
  - destruct (f x) as [y|e]; [|reflexivity]. cbn [bind]. rewrite IH.
    destruct (mapM f l1) as [xs|e]; [|reflexivity]. cbn [bind].
    destruct (mapM f l2); reflexivity.
Qed.

Lemma mapM_ext_in {A B} (f g : A -> result B) (l : list A) :
  (forall x, In x l -> f x = g x) -> mapM f l = mapM g l.
Proof.
  induction l as [|x l IH]; intros H; [reflexivity|]. simpl.
  rewrite (H x) by (left; reflexivity).
  rewrite IH by (intros y Hy; apply H; right; exact Hy). reflexivity.
Qed.

Lemma mapM_map {A B C} (f : B -> result C) (h : A -> B) (l : list A) :
  mapM f (List.map h l) = mapM (fun x => f (h x)) l.
Proof.
  induction l as [|x l IH]; [reflexivity|]. simpl. now rewrite IH.
Qed.

Lemma index_from_end {A} (l : list A) (i : Z) :
  - Z.of_nat (List.length l) <= i < 0 ->
  index l i = index l (i + Z.of_nat (List.length l)).
Proof.
  intros H. unfold index. cbv zeta.
  assert (E1 : (i <? 0) = true) by (apply Z.ltb_lt; lia).
  assert (E2 : (i + Z.of_nat (List.length l) <? 0) = false)
    by (apply Z.ltb_ge; lia).
  rewrite E1. cbv iota. rewrite !E2. reflexivity.
Qed.

Lemma index_below {A} (l : list A) (i : Z) :
  i < - Z.of_nat (List.length l) -> index l i = Raise IndexError.
Proof.
  intros H. unfold index. cbv zeta.
  assert (E1 : (i <? 0) = true) by (apply Z.ltb_lt; lia).
  assert (E2 : (i + Z.of_nat (List.length l) <? 0) = true)
    by (apply Z.ltb_lt; lia).
  rewrite E1. cbv iota. rewrite E2. reflexivity.
Qed.

Lemma map_seq_from {B} (f : nat -> B) (len s : nat) :
  List.map f (seq s len) = List.map (fun k => f (s + k)%nat) (seq 0 len).
Proof.
  revert s f. induction len as [|len IH]; intros s f; [reflexivity|].
  simpl. rewrite Nat.add_0_r. f_equal.
  rewrite (IH (S s)), (IH 1%nat). apply map_ext. intros k.
  f_equal. lia.
Qed.

Lemma range_split (a m b : Z) :
  a <= m <= b -> range a b = range a m ++ range m b.
Proof.
  intros H. unfold range.
  replace (Z.to_nat (b - a)) with (Z.to_nat (m - a) + Z.to_nat (b - m))%nat
    by lia.
  rewrite seq_app, map_app. f_equal. simpl.
  rewrite map_seq_from. apply map_ext. intros k. lia.
Qed.

(** X3: [_read_file_lines] outside the claim's [start_line >= 1], on a
    file that exists.  An empty range gives no line.  A first line of 0
    or below makes [range(start_line - 1, ...)] start at a negative
    index, which [lines[i]] counts from the end of the file: the last
    [1 - start_line] lines come first, then the lines down to
    [end_line]; further below the file than it has lines, the first
    index raises [IndexError]. *)
Theorem read_file_lines_before_first_line (fs : filesystem)
        (path content : string) (first last : Z) :
  fs path = Some content ->
  let lines := readlines content in
  let n := Z.of_nat (List.length lines) in
  (Z.min last n <= first - 1 ->
   CacheGenerator._read_file_lines fs path first last = Ok [])
  /\ (- n < first <= 0 -> 0 <= last ->
      CacheGenerator._read_file_lines fs path first last
      = Ok (List.map rstrip_newline
              (skipn (Z.to_nat (n + first - 1)) lines
               ++ firstn (Z.to_nat (Z.min last n)) lines)))
  /\ (first <= - n -> first - 1 < Z.min last n ->
      CacheGenerator._read_file_lines fs path first last = Raise IndexError).
Proof.
  intros Hfs lines n.
  unfold CacheGenerator._read_file_lines, Runtime.open_text.
  rewrite Hfs. cbn [bind]. fold lines.
  unfold CacheGenerator.read_lines_of. fold n.
  split; [|split].
  - intros Hempty. unfold range.
    replace (Z.to_nat (Z.min last n - (first - 1))) with 0%nat by lia.
    reflexivity.
  - intros Hfirst Hlast.
    rewrite (range_split (first - 1) 0 (Z.min last n)) by lia.
    rewrite mapM_app.
    assert (Hneg :
      mapM (fun i => l <- index lines i ;; Ok (rstrip_newline l))
           (range (first - 1) 0)
      = Ok (List.map rstrip_newline
              (skipn (Z.to_nat (n + first - 1)) lines))).
    { transitivity
        (mapM (fun i => l <- index lines i ;; Ok (rstrip_newline l))
              (List.map (fun k => Z.of_nat (Z.to_nat (n + first - 1))
                                  + Z.of_nat k)
                        (seq 0 (Z.to_nat (0 - (first - 1)))))).
      - unfold range. rewrite !mapM_map. apply mapM_ext_in.
        intros k Hk. apply in_seq in Hk.
        rewrite index_from_end by (subst n; lia).
        do 2 f_equal. subst n. lia.
      - rewrite mapM_index_run by (subst n; lia).
        rewrite firstn_all2; [reflexivity|].
        rewrite length_skipn. subst n. lia. }
    rewrite Hneg. cbn [bind].
    change (range 0 (Z.min last n))
      with (List.map (fun k => Z.of_nat 0 + Z.of_nat k)
                     (seq 0 (Z.to_nat (Z.min last n - 0)))).
    rewrite (mapM_index_run rstrip_newline lines
               (Z.to_nat (Z.min last n - 0)) 0) by (subst n; lia).
    cbn [bind skipn]. rewrite map_app, Z.sub_0_r. reflexivity.
  - intros Hfirst Hrange. unfold range.
    destruct (Z.to_nat (Z.min last n - (first - 1))) as [|m] eqn:E; [lia|].
    simpl. rewrite index_below by (subst n; lia). reflexivity.
Qed.

End RangeEdges.

(* ================================================================== *)
(** * The names that the patterns capture *)
(* ================================================================== *)

Section Captures.
Import Py Re.

Lemma word_nonempty (s : string) : word s = true -> nonempty s = true.
Proof. unfold word. intros H. now apply andb_true_iff in H. Qed.

Lemma length_append (w s : string) :
  String.length (w ++ s) = (String.length w + String.length s)%nat.
Proof. induction w as [|c w IH]; simpl; [reflexivity | now rewrite IH]. Qed.

Lemma take_app (w s : string) : take (String.length w) (w ++ s) = w.
Proof. induction w as [|c w IH]; simpl; [reflexivity | now rewrite IH]. Qed.

Lemma taken_app (w s : string) : taken (w ++ s) s = w.
Proof.
  unfold taken. rewrite length_append.
  replace (String.length w + String.length s - String.length s)%nat
    with (String.length w) by lia.
  apply take_app.
Qed.

(** A greedy repetition passes characters of the class only. *)
Lemma many_sound {A} (p : ascii -> bool) (s : string) :
  forall (prev : option ascii) (k : option ascii -> string -> option A) (a : A),
    many p prev s k = Some a ->
    exists prev' w s',
      s = (w ++ s')%string /\ every p w = true /\ k prev' s' = Some a.
Proof.
  induction s as [|c r IH]; intros prev k a H; cbn [many] in H.
  - exists prev, "", "". auto.
  - destruct (p c) eqn:E; [|exists prev, "", (String c r); auto].
    destruct (many p (Some c) r k) as [b|] eqn:M;
      [|exists prev, "", (String c r); auto].
    inversion H; subst b.
    apply IH in M as (prev' & w & s' & -> & Hw & Hk).
    exists prev', (String c w), s'. cbn [every append]. rewrite E, Hw. auto.
Qed.

(** [\w+] matches a word. *)
Lemma word_group_w_plus : word_group w_plus.
Proof.
  intros A prev s caps k a H. unfold w_plus, plus in H. cbn [run] in H.
  destruct s as [|c r]; [discriminate H|].
  destruct (isword c) eqn:E; [|discriminate H].
  apply many_sound in H as (prev' & w & s' & -> & Hw & Hk).
  exists prev', (String c w), s'. unfold word. cbn [nonempty every append].
  rewrite E, Hw. auto.
Qed.

(** A literal matches itself. *)
Lemma lit_sound {A} (t : string) :
  forall (prev : option ascii) (s : string) (caps : list string)
         (k : option ascii -> string -> list string -> option A) (a : A),
    run (lit t) prev s caps k = Some a ->
    exists prev' s', s = (t ++ s')%string /\ k prev' s' caps = Some a.
Proof.
  induction t as [|c t IH]; intros prev s caps k a H.
  - exists prev, s. auto.
  - destruct t as [|d t].
    + cbn [lit run] in H. destruct s as [|x s]; [discriminate H|].
      destruct (Ascii.eqb c x) eqn:E; [|discriminate H].
      apply Ascii.eqb_eq in E. subst x. exists (Some c), s. auto.
    + change (lit (String c (String d t)))
        with (Cat (Chr (Ascii.eqb c)) (lit (String d t))) in H.
      cbn [run] in H. destruct s as [|x s]; [discriminate H|].
      destruct (Ascii.eqb c x) eqn:E; [|discriminate H].
      apply Ascii.eqb_eq in E. subst x.
      apply IH in H as (prev' & s' & -> & Hk).
      exists prev', s'. auto.
Qed.

(** [const|var] matches one of the two words. *)
Lemma word_group_const_var : word_group (Alt (lit "const") (lit "var")).
Proof.
  intros A prev s caps k a H. cbn [run] in H.
  destruct (run (lit "const") prev s caps k) as [b|] eqn:E.
  - inversion H; subst b.
    apply lit_sound in E as (prev' & s' & -> & Hk).
    exists prev', "const", s'. auto.
  - apply lit_sound in H as (prev' & s' & -> & Hk).
    exists prev', "var", s'. auto.
Qed.

(** What a match closes: the groups of the pattern, each a word. *)
Lemma run_sound (r : regex) :
  captures_words r ->
  forall (A : Type) (prev : option ascii) (s : string) (caps : list string)
         (k : option ascii -> string -> list string -> option A) (a : A),
    run r prev s caps k = Some a ->
    exists prev' s' new,
      Forall (fun g => word g = true) new
      /\ (groups r <= List.length new)%nat
      /\ k prev' s' (caps ++ new) = Some a.
Proof.
  induction r as [ | p | p | r1 IH1 r2 IH2 | r1 IH1 r2 IH2 | r1 _ | | | ];
    intros Hr A prev s caps k a H; cbn [run] in H; cbn [groups].
  - exists prev, s, []. rewrite app_nil_r. repeat split; auto.
  - destruct s as [|c s]; [discriminate H|].
    destruct (p c); [|discriminate H].
    exists (Some c), s, []. rewrite app_nil_r. repeat split; auto.
  - apply many_sound in H as (prev' & w & s' & _ & _ & Hk).
    exists prev', s', []. rewrite app_nil_r. repeat split; auto.
  - destruct Hr as [H1 H2].
    apply (IH1 H1) in H as (prev1 & s1 & new1 & Hw1 & Hn1 & H).
    apply (IH2 H2) in H as (prev2 & s2 & new2 & Hw2 & Hn2 & H).
    exists prev2, s2, (new1 ++ new2). rewrite app_assoc, List.length_app.
    repeat split; [now apply Forall_app | lia | exact H].
  - destruct Hr as [H1 H2].
    destruct (run r1 prev s caps k) as [b|] eqn:E.
    + inversion H; subst b.
      apply (IH1 H1) in E as (prev1 & s1 & new1 & Hw1 & Hn1 & E).
      exists prev1, s1, new1. repeat split; [assumption | lia | assumption].
    + apply (IH2 H2) in H as (prev2 & s2 & new2 & Hw2 & Hn2 & H).
      exists prev2, s2, new2. repeat split; [assumption | lia | assumption].
  - apply Hr in H as (prev' & w & s' & -> & Hw & Hk).
    rewrite taken_app in Hk.
    exists prev', s', [w]. repeat split; [now constructor | simpl; lia | exact Hk].
  - destruct prev; [discriminate H|].
    exists None, s, []. rewrite app_nil_r. repeat split; auto.
  - destruct (at_eol s); [|discriminate H].
    exists prev, s, []. rewrite app_nil_r. repeat split; auto.
  - destruct (xorb (word_before prev) (word_after s)); [|discriminate H].
    exists prev, s, []. rewrite app_nil_r. repeat split; auto.
Qed.

(** The groups of a match are words. *)
Lemma match_groups_words (r : regex) (s : string) (g : list string) (n : nat) :
  captures_words r ->
  match_ r s = Some g ->
  (1 <= n <= groups r)%nat ->
  word (group n g) = true.
Proof.
  intros Hr H Hn. unfold match_ in H.
  destruct (run r None s [] finish) as [[caps rest]|] eqn:E; [|discriminate H].
  cbn in H. inversion H; subst g.
  apply (run_sound r Hr) in E as (prev' & s' & new & Hw & Hlen & E).
  cbn in E. inversion E; subst caps rest.
  unfold group. rewrite Forall_forall in Hw. apply Hw, nth_In. lia.
Qed.

Lemma match1_word (r : regex) (s name : string) :
  captures_words r ->
  (1 <= groups r)%nat ->
  match1 r s = Some name ->
  word name = true.
Proof.
  intros Hr Hn H. unfold match1 in H.
  destruct (match_ r s) as [g|] eqn:E; [|discriminate H].
  cbn in H. inversion H; subst name.
  apply (match_groups_words r s g 1 Hr E). lia.
Qed.

End Captures.

Section Patterns.
Import Py Re.

(** The patterns whose groups name the entities of an index. *)
Ltac groups_are_words :=
  repeat split;
  first [exact I | exact word_group_w_plus | exact word_group_const_var].

Lemma create_table_words : captures_words CacheGenerator.create_table_pattern.
Proof. groups_are_words. Qed.

Lemma create_type_words : captures_words CacheGenerator.create_type_pattern.
Proof. groups_are_words. Qed.

Lemma create_function_words :
  captures_words CacheGenerator.create_function_pattern.
Proof. groups_are_words. Qed.

Lemma query_pattern_words : captures_words CacheGenerator.query_pattern.
Proof. groups_are_words. Qed.

Lemma func_pattern_words : captures_words CacheGenerator.func_pattern.
Proof. groups_are_words. Qed.

Lemma struct_pattern_words : captures_words CacheGenerator.struct_pattern.
Proof. groups_are_words. Qed.

Lemma interface_pattern_words : captures_words CacheGenerator.interface_pattern.
Proof. groups_are_words. Qed.

Lemma type_pattern_words : captures_words CacheGenerator.type_pattern.
Proof. groups_are_words. Qed.

Lemma schema_header_words : captures_words ApiCacheGenerator.schema_header_re.
Proof. groups_are_words. Qed.

Lemma struct_re_words : captures_words ApiCacheGenerator.struct_re.
Proof. groups_are_words. Qed.

Lemma func_re_words : captures_words ApiCacheGenerator.func_re.
Proof. groups_are_words. Qed.

Lemma const_var_words : captures_words ApiCacheGenerator.const_var_re.
Proof. groups_are_words. Qed.

Lemma type_re_words : captures_words ApiCacheGenerator.type_re.
Proof. groups_are_words. Qed.

End Patterns.

Section SqlNames.
Import Py Re CacheGenerator.

Lemma scan_start_words : scan_words scan_start.
Proof. split; [constructor | discriminate]. Qed.

(** The entity that is open, recorded or not. *)
Lemma recorded_words (s : scan) (guard : string -> bool) (e : Z) :
  scan_words s ->
  word_keys match current_entity_name s with
            | Some cur => if guard cur then record_range s cur e
                          else index_ranges s
            | None => index_ranges s
            end.
Proof.
  intros [Hkeys Hcur].
  destruct (current_entity_name s) as [cur|]; [|exact Hkeys].
  destruct (guard cur); [|exact Hkeys].
  apply DictFacts.Forall_set; [exact Hkeys|]. now apply Hcur.
Qed.

Lemma schema_open_words (s : scan) (n : Z) (name : string) :
  scan_words s -> word name = true -> scan_words (schema_open s n name).
Proof.
  intros Hs Hname. split; cbn.
  - apply (recorded_words s (fun cur => nonempty cur && in_entity s) (n - 1) Hs).
  - intros cur E. now inversion E; subst.
Qed.

Lemma schema_step_words (s : scan) (line : string) :
  scan_words s -> scan_words (schema_step s line).
Proof.
  intros Hs. unfold schema_step. cbv zeta.
  destruct (match1 create_table_pattern line) as [name|] eqn:E1.
  { apply schema_open_words; [exact Hs|].
    apply (match1_word _ _ _ create_table_words (le_n 1) E1). }
  destruct (match1 create_type_pattern line) as [name|] eqn:E2.
  { apply schema_open_words; [exact Hs|].
    apply (match1_word _ _ _ create_type_words (le_n 1) E2). }
  destruct (match1 create_function_pattern line) as [name|] eqn:E3.
  { apply schema_open_words; [exact Hs|].
    apply (match1_word _ _ _ create_function_words (le_n 1) E3). }
  destruct (in_entity s && startswith ";" (strip line)).
  - split; cbn; [|discriminate].
    apply (recorded_words s nonempty (line_num s + 1) Hs).
  - exact Hs.
Qed.

Lemma query_step_words (s : scan) (line : string) :
  scan_words s -> scan_words (query_step s line).
Proof.
  intros Hs. unfold query_step. cbv zeta.
  destruct (match1 query_pattern line) as [name|] eqn:E.
  - split; cbn.
    + apply (recorded_words s nonempty (line_num s + 1 - 1) Hs).
    + intros cur Ec. inversion Ec; subst cur.
      apply (match1_word _ _ _ query_pattern_words) in E; [exact E|].
      cbn. lia.
  - exact Hs.
Qed.

Lemma generated_open_words (s : scan) (n : Z) (name : string) (guard : bool)
      (bc : Z) :
  scan_words s -> word name = true ->
  scan_words (generated_open s n name guard bc).
Proof.
  intros Hs Hname. split; cbn.
  - apply (recorded_words s (fun cur => nonempty cur && in_entity s && guard)
                          (n - 1) Hs).
  - intros cur E. now inversion E; subst.
Qed.

Lemma generated_step_words (s : scan) (line : string) :
  scan_words s -> scan_words (generated_step s line).
Proof.
  intros Hs. unfold generated_step. cbv zeta.
  destruct (match1 func_pattern (strip line)) as [name|] eqn:E1.
  { apply generated_open_words; [exact Hs|].
    apply (match1_word _ _ _ func_pattern_words (le_n 1) E1). }
  destruct (match1 struct_pattern (strip line)) as [name|] eqn:E2.
  { apply generated_open_words; [exact Hs|].
    apply (match1_word _ _ _ struct_pattern_words (le_n 1) E2). }
  destruct (match1 interface_pattern (strip line)) as [name|] eqn:E3.
  { apply generated_open_words; [exact Hs|].
    apply (match1_word _ _ _ interface_pattern_words (le_n 1) E3). }
  destruct (if negb (contains "struct" (strip line))
               && negb (contains "interface" (strip line))
            then match1 type_pattern (strip line) else None)
    as [name|] eqn:E4.
  { apply generated_open_words; [exact Hs|].
    destruct (negb (contains "struct" (strip line))
              && negb (contains "interface" (strip line)));
      [|discriminate E4].
    apply (match1_word _ _ _ type_pattern_words (le_n 1) E4). }
  destruct (in_entity s && (brace_count s + brace_delta line =? 0)
            && nonempty (strip line) && negb (startswith "//" (strip line))).
  - split; cbn; [|discriminate].
    apply (recorded_words s nonempty (line_num s + 1) Hs).
  - destruct Hs as [Hk Hc]. split; cbn; assumption.
Qed.

Lemma fold_step_words (step : scan -> string -> scan) (lines : list string)
      (s : scan) :
  (forall s line, scan_words s -> scan_words (step s line)) ->
  scan_words s -> scan_words (fold_left step lines s).
Proof.
  intros Hstep. revert s. induction lines as [|l lines IH]; intros s Hs.
  - exact Hs.
  - cbn [fold_left]. apply IH. now apply Hstep.
Qed.

End SqlNames.

Section ApiNames.
Import Py Re ApiCacheGenerator.

Lemma schemas_loop_words (n : nat) :
  forall (lines : list string) (i : Z) (started : bool)
         (schemas : Dict.t SchemaEntry),
    (List.length lines <= n)%nat ->
    word_keys schemas ->
    word_keys (schemas_loop lines i started schemas).
Proof.
  induction n as [|n IHn]; intros lines i started schemas Hn Hw.
  - destruct lines; [exact Hw | simpl in Hn; lia].
  - destruct lines as [|line rest]; [exact Hw|].
    cbn [List.length] in Hn. cbn [schemas_loop].
    destruct (negb started && String.eqb (strip line) "schemas:");
      [apply IHn; [lia | assumption]|].
    destruct (negb started); [apply IHn; [lia | assumption]|].
    destruct (match1 schema_header_re line) as [name|] eqn:E;
      [|apply IHn; [lia | assumption]].
    apply (match1_word _ _ _ schema_header_words (le_n 1)) in E.
    match goal with
    | |- context [?f rest (i + 1) (i + 1)] => set (inner := f)
    end.
    assert (Hinner :
              forall (ls : list string) (j e : Z),
                (List.length ls <= n)%nat -> word_keys (inner ls j e)).
    { induction ls as [|l2 r2 IHls]; intros j e Hlen.
      - simpl. now apply DictFacts.Forall_set.
      - cbn [List.length] in Hlen. subst inner. cbn beta iota.
        destruct (ends_schema l2).
        + apply IHn; [simpl; lia|]. now apply DictFacts.Forall_set.
        + apply IHls; lia. }
    apply Hinner; lia.
Qed.

Section EntityNames.
Variable file : string.
Variable lines : list string.

Lemma close_entity_words (st : entities_scan) (guard : bool) (e : Z) :
  entities_words st -> word_keys (close_entity file lines st guard e).
Proof.
  intros [Hkeys Hname]. unfold close_entity.
  destruct (current_name st) as [name|]; [|exact Hkeys].
  destruct (current_type st) as [type|]; [|exact Hkeys].
  destruct (nonempty name && nonempty type && guard); [|exact Hkeys].
  apply DictFacts.Forall_set; [exact Hkeys|]. now apply Hname.
Qed.

Lemma entities_step_words (i : Z) (st : entities_scan) (line : string) :
  entities_words st -> entities_words (entities_step file lines st i line).
Proof.
  intros Hst. unfold entities_step. cbv zeta.
  assert (Hopen :
            forall name type start bc guard e,
              word name = true ->
              entities_words
                (mkEntitiesScan (Some name) type start bc
                                (close_entity file lines st guard e))).
  { intros name type start bc guard e Hname. split; cbn.
    - now apply close_entity_words.
    - intros name' E. now inversion E; subst. }
  destruct (match_ func_re line) as [g|] eqn:E1.
  { apply Hopen. apply (match_groups_words _ _ _ 1 func_re_words E1).
    cbn. lia. }
  destruct (match_ struct_re line) as [g|] eqn:E2.
  { apply Hopen. apply (match_groups_words _ _ _ 1 struct_re_words E2).
    cbn. lia. }
  destruct (match_ const_var_re line) as [g|] eqn:E3.
  { apply Hopen. apply (match_groups_words _ _ _ 2 const_var_words E3).
    cbn. lia. }
  destruct (if matches struct_re line then None else match_ type_re line)
    as [g|] eqn:E4.
  { apply Hopen. destruct (matches struct_re line); [discriminate E4|].
    apply (match_groups_words _ _ _ 1 type_re_words E4). cbn. lia. }
  destruct (truthy (current_name st) && truthy (current_type st)
            && (brace_count st + brace_delta line =? 0)
            && nonempty (strip line)
            && negb (startswith "//" (strip line))).
  - split; cbn; [now apply close_entity_words | discriminate].
  - destruct Hst as [Hk Hn]. split; cbn; assumption.
Qed.

Lemma entities_loop_words (rest : list string) (i : Z) (st : entities_scan) :
  entities_words st -> entities_words (entities_loop file lines rest i st).
Proof.
  revert i st. induction rest as [|line rest IH]; intros i st Hst.
  - exact Hst.
  - cbn [entities_loop]. apply IH. now apply entities_step_words.
Qed.

End EntityNames.

End ApiNames.

Section FileNames.
Import Py.

(** A word followed by a suffix holds a [/] only if the suffix does. *)
Lemma word_then (q suffix : string) :
  every isword q = true ->
  contains "/" (q ++ suffix) = contains "/" suffix.
Proof.
  induction q as [|c q IH]; intros H; [reflexivity|].
  cbn [every] in H. apply andb_true_iff in H as [Hc Hq].
  cbn [append contains]. rewrite (IH Hq).
  cbn [String.prefix].
  destruct (Ascii.eqb_spec "/"%char c) as [<- | Hne]; [discriminate Hc|].
  destruct (ascii_dec "/" c); [contradiction | reflexivity].
Qed.

Lemma query_cache_name_plain (q : string) :
  word q = true ->
  contains "/" (CacheGenerator.cache_file_name q) = false.
Proof.
  intros H. unfold word in H. apply andb_true_iff in H as [_ H].
  unfold CacheGenerator.cache_file_name. now rewrite word_then.
Qed.

End FileNames.

(** X19: the names of the indices are words.  Whatever the file, every
    name entered by the scans of the schema, of the queries and of a
    generated file of [cache_generator.py], and by the scans of the
    schemas and of the generated file of [api_cache_generator.py], is
    one or more [\w] characters: no entry has an empty name, and the
    file name of the cache of a query holds no [/]. *)
Theorem indexed_names_are_words (file : string) (lines : list string) :
  word_keys (CacheGenerator.scan_schema lines)
  /\ word_keys (CacheGenerator.scan_queries lines)
  /\ word_keys (CacheGenerator.scan_generated lines)
  /\ word_keys (ApiCacheGenerator.scan_schemas lines)
  /\ word_keys (ApiCacheGenerator.scan_entities file lines)
  /\ Forall (fun unit =>
               Py.contains "/" (CacheGenerator.cache_file_name (fst unit))
               = false)
            (CacheGenerator.scan_queries lines).
Proof.
  assert (Hqueries : word_keys (CacheGenerator.scan_queries lines)).
  { unfold CacheGenerator.scan_queries, CacheGenerator.query_flush.
    apply (recorded_words _ Py.nonempty).
    apply fold_step_words; [exact query_step_words | exact scan_start_words]. }
  repeat split.
  - unfold CacheGenerator.scan_schema, CacheGenerator.scan_flush.
    apply (recorded_words _ (fun cur => Py.nonempty cur
                                        && CacheGenerator.in_entity _)).
    apply fold_step_words; [exact schema_step_words | exact scan_start_words].
  - exact Hqueries.
  - unfold CacheGenerator.scan_generated, CacheGenerator.scan_flush.
    apply (recorded_words _ (fun cur => Py.nonempty cur
                                        && CacheGenerator.in_entity _)).
    apply fold_step_words; [exact generated_step_words | exact scan_start_words].
  - unfold ApiCacheGenerator.scan_schemas.
    apply (schemas_loop_words (List.length lines)); [lia | constructor].
  - unfold ApiCacheGenerator.scan_entities. apply close_entity_words.
    apply entities_loop_words. split; [constructor | discriminate].
  - revert Hqueries. apply Forall_impl. intros unit.
    apply query_cache_name_plain.
Qed.

(* ================================================================== *)
(** * The ranges of the queries *)
(* ================================================================== *)

Section QueryScan.
Import Py Re CacheGenerator.

Lemma header_ranges_next (n m : Z) (name name' : string)
      (rest : list (Z * string)) (total : Z) :
  header_ranges ((n, name) :: (m, name') :: rest) total
  = (name, mkRange n (m - 1)) :: header_ranges ((m, name') :: rest) total.
Proof. reflexivity. Qed.

Lemma query_scan_from (lines : list string) (s : scan) :
  query_flush (fold_left query_step lines s)
  = fold_left assign
      (filter named
         (header_ranges (open_header s ++ query_headers lines (line_num s + 1))
                        (line_num s + Z.of_nat (List.length lines))))
      (index_ranges s).
Proof.
  revert s. induction lines as [|l lines IH]; intros s.
  - cbn [fold_left query_headers List.length Z.of_nat].
    rewrite app_nil_r, Z.add_0_r. unfold query_flush, open_header.
    destruct (current_entity_name s) as [cur|]; [|reflexivity].
    cbn [header_ranges filter]. unfold named at 1. cbn [fst].
    destruct (nonempty cur); reflexivity.
  - cbn [fold_left]. rewrite IH. clear IH.
    replace (line_num (query_step s l) + Z.of_nat (List.length lines))
      with (line_num s + Z.of_nat (List.length (l :: lines)))
      by (unfold query_step; destruct (match1 query_pattern l);
          cbn [line_num List.length]; lia).
    set (total := line_num s + Z.of_nat (List.length (l :: lines))).
    cbn [query_headers]. unfold query_step.
    destruct (match1 query_pattern l) as [name|]; cbn [line_num index_ranges].
    + set (later := query_headers lines (line_num s + 1 + 1)).
      unfold open_header. cbn [current_entity_name current_entity_start].
      destruct (current_entity_name s) as [cur|]; [|reflexivity].
      change ([(current_entity_start s, cur)] ++ (line_num s + 1, name) :: later)
        with ((current_entity_start s, cur) :: (line_num s + 1, name) :: later).
      rewrite header_ranges_next.
      change ([(line_num s + 1, name)] ++ later)
        with ((line_num s + 1, name) :: later).
      set (units := header_ranges ((line_num s + 1, name) :: later) total).
      cbn [filter]. unfold named at 2. cbn [fst].
      destruct (nonempty cur); reflexivity.
    + unfold open_header. cbn [current_entity_name current_entity_start].
      reflexivity.
Qed.

(** The name of a header is not empty. *)
Lemma query_headers_named (lines : list string) (n : Z) (total : Z) :
  filter named (header_ranges (query_headers lines n) total)
  = header_ranges (query_headers lines n) total.
Proof.
  assert (H : Forall (fun h => nonempty (snd h) = true)
                     (query_headers lines n)).
  { revert n. induction lines as [|l lines IH]; intros n; cbn [query_headers].
    - constructor.
    - destruct (match1 query_pattern l) as [name|] eqn:E; [|apply IH].
      constructor; [|apply IH]. cbn [snd]. apply word_nonempty.
      apply (match1_word _ _ _ query_pattern_words) in E; [exact E|].
      cbn. lia. }
  induction H as [|[m name] rest Hname _ IH]; [reflexivity|].
  cbn [header_ranges filter]. unfold named at 1. cbn [fst snd] in *.
  rewrite Hname. f_equal. exact IH.
Qed.

(** X6: the index of a query file, whatever the file.  Each header line
    [-- name: X :kind] opens the query [X], whose range runs from the
    header to the line before the next header, the last one to the end
    of the file; a name declared again keeps its place and takes the
    later range. *)
Theorem query_ranges_reach_next_header (lines : list string) :
  scan_queries lines
  = Dict.of_items
      (header_ranges (query_headers lines 1) (Z.of_nat (List.length lines))).
Proof.
  unfold scan_queries. rewrite query_scan_from.
  cbn [line_num scan_start open_header current_entity_name app Z.add].
  rewrite query_headers_named. reflexivity.
Qed.

End QueryScan.

(* ================================================================== *)
(** * The ranges of the definitions and of the schemas *)
(* ================================================================== *)

Section SchemaScan.
Import Py Re CacheGenerator.

Lemma schema_header_word (line name : string) :
  schema_header line = Some name -> word name = true.
Proof.
  unfold schema_header. intros H.
  destruct (match1 create_table_pattern line) as [n1|] eqn:E1.
  { inversion H; subst n1.
    apply (match1_word _ _ _ create_table_words (le_n 1) E1). }
  destruct (match1 create_type_pattern line) as [n2|] eqn:E2.
  { inversion H; subst n2.
    apply (match1_word _ _ _ create_type_words (le_n 1) E2). }
  apply (match1_word _ _ _ create_function_words (le_n 1) H).
Qed.

(** A step of the scan, by the kind of the line. *)
Lemma schema_step_header (s : scan) (line name : string) :
  schema_header line = Some name ->
  schema_step s line = schema_open s (line_num s + 1) name.
Proof.
  unfold schema_header, schema_step. cbv zeta. intros H.
  destruct (match1 create_table_pattern line) as [n1|];
    [now inversion H|].
  destruct (match1 create_type_pattern line) as [n2|];
    [now inversion H|].
  now rewrite H.
Qed.

Lemma schema_step_other (s : scan) (line : string) :
  schema_header line = None ->
  schema_step s line
  = if in_entity s && startswith ";" (strip line) then
      mkScan (line_num s + 1) None (current_entity_start s) false
             (brace_count s)
             match current_entity_name s with
             | Some cur =>
                 if nonempty cur then record_range s cur (line_num s + 1)
                 else index_ranges s
             | None => index_ranges s
             end
    else
      mkScan (line_num s + 1) (current_entity_name s) (current_entity_start s)
             (in_entity s) (brace_count s) (index_ranges s).
Proof.
  unfold schema_header, schema_step. cbv zeta. intros H.
  destruct (match1 create_table_pattern line) as [n1|]; [discriminate H|].
  destruct (match1 create_type_pattern line) as [n2|]; [discriminate H|].
  now rewrite H.
Qed.

Lemma schema_scan_from (lines : list string) :
  forall s : scan,
    scan_words s ->
    scan_flush (fold_left schema_step lines s)
    = fold_left assign
        (open_definition s lines ++ schema_units lines (line_num s + 1))
        (index_ranges s).
Proof.
  induction lines as [|l lines IH]; intros s Hs.
  - cbn [fold_left schema_units]. rewrite app_nil_r.
    unfold scan_flush, open_definition. cbn [definition_end].
    destruct (current_entity_name s) as [cur|] eqn:Ec; [|reflexivity].
    rewrite (word_nonempty cur (proj2 Hs cur Ec)). cbn [andb].
    destruct (in_entity s); reflexivity.
  - cbn [fold_left]. rewrite (IH _ (schema_step_words s l Hs)). clear IH.
    cbn [schema_units]. unfold open_definition at 2. cbn [definition_end].
    destruct (schema_header l) as [name|] eqn:Eh.
    + rewrite (schema_step_header s l name Eh).
      unfold open_definition, schema_open.
      cbn [current_entity_name in_entity current_entity_start line_num
           index_ranges].
      destruct (current_entity_name s) as [cur|] eqn:Ec; [|reflexivity].
      rewrite (word_nonempty cur (proj2 Hs cur Ec)). cbn [andb].
      destruct (in_entity s); [|reflexivity].
      cbn [app fold_left]. unfold assign at 3, record_range. cbn [fst snd].
      replace (line_num s + 1 - 1) with (line_num s) by lia. reflexivity.
    + rewrite (schema_step_other s l Eh). unfold open_definition.
      destruct (current_entity_name s) as [cur|] eqn:Ec.
      * destruct (in_entity s); cbn [andb].
        -- destruct (startswith ";" (strip l)).
           ++ cbn [current_entity_name in_entity line_num index_ranges app
                   fold_left].
              rewrite (word_nonempty cur (proj2 Hs cur Ec)).
              reflexivity.
           ++ cbn [current_entity_name in_entity line_num index_ranges
                   current_entity_start]. reflexivity.
        -- cbn [current_entity_name in_entity line_num index_ranges].
           reflexivity.
      * destruct (in_entity s && startswith ";" (strip l));
          cbn [current_entity_name in_entity line_num index_ranges];
          reflexivity.
Qed.

(** X20: the index of a schema file, whatever the file.  Each line
    [create table], [create type] or [create function] opens the
    definition it names, whose range runs from that line to the line
    before the next such line, to the first line that starts with
    [;], or to the end of the file, whichever comes first; a name
    declared again keeps its place and takes the later range. *)
Theorem schema_ranges_end_at_semicolon_lines (lines : list string) :
  scan_schema lines = Dict.of_items (schema_units lines 1).
Proof.
  unfold scan_schema. rewrite (schema_scan_from lines _ scan_start_words).
  reflexivity.
Qed.

End SchemaScan.

Section SchemasScan.
Import Py Re ApiCacheGenerator.

Lemma no_header_no_name (r : regex) (l : string) :
  matches r l = false -> match1 r l = None.
Proof.
  unfold matches, match1. destruct (match_ r l); [discriminate | reflexivity].
Qed.

Lemma schemas_loop_from (n : nat) :
  forall (lines : list string) (i : Z) (started : bool)
         (schemas : Dict.t SchemaEntry),
    (List.length lines <= n)%nat ->
    schemas_loop lines i started schemas
    = fold_left assign (schema_entries lines (i + 1) started) schemas.
Proof.
  induction n as [|n IHn]; intros lines i started schemas Hn.
  - destruct lines; [reflexivity | simpl in Hn; lia].
  - destruct lines as [|line rest]; [reflexivity|].
    cbn [List.length] in Hn. cbn [schemas_loop schema_entries].
    destruct started; cbn [negb andb].
    2:{ destruct (String.eqb (strip line) "schemas:"); apply IHn; lia. }
    destruct (match1 schema_header_re line) as [name|]; [|apply IHn; lia].
    match goal with
    | |- context [?f rest (i + 1) (i + 1)] => set (inner := f)
    end.
    cbn [fold_left]. unfold assign at 2. cbn [fst snd].
    assert (Hinner :
              forall (ls : list string) (j : Z),
                (List.length ls <= n)%nat ->
                inner ls j j
                = fold_left assign (schema_entries ls (j + 1) true)
                    (Dict.set name
                       (mkSchema name (mkRange (i + 1) (schema_end ls j)))
                       schemas)).
    { induction ls as [|l2 r2 IHls]; intros j Hlen.
      - reflexivity.
      - cbn [List.length] in Hlen. subst inner. cbn beta iota.
        cbn [schema_end]. destruct (ends_schema l2) eqn:E.
        + apply IHn. simpl. lia.
        + rewrite IHls by lia. cbn [schema_entries].
          unfold ends_schema in E. cbv zeta in E.
          apply orb_false_iff in E as [E _].
          now rewrite (no_header_no_name _ _ E). }
    apply Hinner. lia.
Qed.

(** X21: the schema index of a specification, whatever the file.
    After the first line [schemas:], each line of four spaces, a word
    and a colon opens the schema it names, whose range runs from that
    line to the line before the next such line or before the first
    line that is not blank and does not start with four spaces, or to
    the end of the file; nothing ends the section, and a name declared
    again keeps its place and takes the later range. *)
Theorem schemas_reach_next_header (lines : list string) :
  scan_schemas lines = Dict.of_items (schema_entries lines 1 false).
Proof.
  unfold scan_schemas.
  rewrite (schemas_loop_from (List.length lines)) by lia.
  reflexivity.
Qed.

End SchemasScan.

(* ================================================================== *)
(** * The ranges of the operations *)
(* ================================================================== *)

Section PathBlocks.
Import Py Re ApiCacheGenerator.

Lemma no_name_no_match (r : regex) (l : string) :
  match1 r l = None -> matches r l = false.
Proof.
  unfold matches, match1. destruct (match_ r l); [discriminate | reflexivity].
Qed.

(** The innermost loop stops before the next path key. *)
Lemma extend_range_block (r : list string) :
  forall k : Z,
  exists block rest,
    r = block ++ rest
    /\ inside_path block
    /\ match rest with
       | [] => True
       | l :: _ => ends_operation l = true
       end
    /\ extend_range r k k = k + Z.of_nat (List.length block).
Proof.
  induction r as [|l r IH]; intros k.
  - exists [], []. repeat split; [constructor | simpl; lia].
  - cbn [extend_range]. destruct (ends_operation l) eqn:E.
    + exists [], (l :: r). repeat split; [constructor | exact E | simpl; lia].
    + destruct (IH (k + 1)) as (block & rest & -> & Hb & Hr & He).
      exists (l :: block), rest.
      repeat split; [now constructor | exact Hr |].
      rewrite He. cbn [List.length]. lia.
Qed.

Section OneFile.
Variable all : list string.

Lemma scan_operation_block (pre : list string) (key cur m : string) :
  match1 path_re key = Some cur ->
  forall (rest seg : list string) (j : Z) (paths : Dict.t PathEntry),
    all = pre ++ key :: seg ++ rest ->
    inside_path seg ->
    j = Z.of_nat (List.length pre) + 1 + Z.of_nat (List.length seg) ->
    Forall (fun kv => path_block all (snd kv)) paths ->
    Forall (fun kv => path_block all (snd kv))
           (scan_operation rest j (Z.of_nat (List.length pre) + 1) cur m paths).
Proof.
  intros Hkey. induction rest as [|l2 r IH]; intros seg j paths Hall Hseg Hj Hp.
  - exact Hp.
  - cbn [scan_operation]. cbv zeta.
    destruct (ends_operation l2) eqn:E; [exact Hp|].
    assert (Hseg' : inside_path (seg ++ [l2])).
    { apply Forall_app. split; [exact Hseg | now constructor]. }
    destruct (startswith "operationId:" (strip l2)).
    + destruct (after_first "operationId:" (strip l2)) as [parts|];
        [|exact Hp].
      destruct (nonempty (strip parts)); [|exact Hp].
      apply DictFacts.Forall_set; [exact Hp|]. cbn [snd].
      destruct (extend_range_block r (j + 1))
        as (block & rest' & -> & Hb & Hr & He).
      exists pre, key, (seg ++ l2 :: block), rest'.
      cbn [path path_range]. repeat split.
      * rewrite Hall, <- app_assoc. reflexivity.
      * exact Hkey.
      * apply Forall_app. split; [exact Hseg | now constructor].
      * exact Hr.
      * rewrite He, List.length_app. cbn [List.length]. f_equal. lia.
    + apply (IH (seg ++ [l2])); [|exact Hseg'| | exact Hp].
      * rewrite Hall, <- app_assoc. reflexivity.
      * rewrite List.length_app. cbn [List.length]. lia.
Qed.

Lemma paths_loop_block (lines : list string) :
  forall (done : list string) (st : paths_scan),
    all = done ++ lines ->
    paths_inv all done st ->
    Forall (fun kv => path_block all (snd kv))
           (paths_loop lines (Z.of_nat (List.length done)) st).
Proof.
  induction lines as [|line rest IH]; intros done st Hall Hinv.
  - exact (blocks_entered _ _ _ Hinv).
  - assert (Hnext : all = (done ++ [line]) ++ rest)
      by (rewrite Hall, <- app_assoc; reflexivity).
    assert (Hlen : Z.of_nat (List.length done) + 1
                   = Z.of_nat (List.length (done ++ [line])))
      by (rewrite List.length_app; cbn [List.length]; lia).
    cbn [paths_loop]. cbv zeta. rewrite Hlen.
    destruct (paths_section_started st) eqn:Es; cbn [negb andb].
    2:{ pose proof (no_path_before _ _ _ Hinv Es) as Hnone.
        destruct (String.eqb (strip line) "paths:");
          (apply IH; [exact Hnext|]); split;
            cbn [paths paths_section_started current_path current_path_line].
        - exact (blocks_entered _ _ _ Hinv).
        - intros _. exact Hnone.
        - intros cur Hc. rewrite Hnone in Hc. discriminate Hc.
        - exact (blocks_entered _ _ _ Hinv).
        - intros _. exact Hnone.
        - intros cur Hc. rewrite Hnone in Hc. discriminate Hc. }
    destruct (startswith "components:" (strip line)) eqn:Ec;
      [exact (blocks_entered _ _ _ Hinv)|].
    destruct (match1 path_re line) as [p|] eqn:Ep.
    { apply IH; [exact Hnext|]. split;
        cbn [paths paths_section_started current_path current_path_line].
      - exact (blocks_entered _ _ _ Hinv).
      - discriminate.
      - intros cur Hc. inversion Hc; subst cur.
        exists done, line, []. repeat split;
          [exact Ep | constructor | symmetry; exact Hlen]. }
    assert (Hline : ends_operation line = false).
    { unfold ends_operation. now rewrite (no_name_no_match _ _ Ep), Ec. }
    assert (Hsame : paths_inv all (done ++ [line]) st).
    { split.
      - exact (blocks_entered _ _ _ Hinv).
      - exact (no_path_before _ _ _ Hinv).
      - intros cur Hc.
        destruct (path_current _ _ _ Hinv cur Hc)
          as (pre & key & seg & -> & Hk & Hseg & Hl).
        exists pre, key, (seg ++ [line]). repeat split.
        + now rewrite <- app_assoc.
        + exact Hk.
        + apply Forall_app. split; [exact Hseg | now constructor].
        + exact Hl. }
    destruct (match1 method_re line) as [m|]; [|now apply IH].
    destruct (current_path st) as [cur|] eqn:Ecur; [|now apply IH].
    destruct (nonempty cur); [|now apply IH].
    apply IH; [exact Hnext|].
    destruct (path_current _ _ _ Hsame cur Ecur)
      as (pre & key & seg & Hdone & Hk & Hseg & Hl).
    split; cbn [paths paths_section_started current_path current_path_line].
    + rewrite Hl.
      apply (scan_operation_block pre key cur (upper m) Hk rest seg).
      * rewrite Hnext, Hdone, <- app_assoc. reflexivity.
      * exact Hseg.
      * rewrite Hdone, List.length_app. cbn [List.length]. lia.
      * exact (blocks_entered _ _ _ Hinv).
    + discriminate.
    + intros cur' Hc. inversion Hc; subst cur'.
      exists pre, key, seg. repeat split; assumption.
Qed.

End OneFile.

(** X22: the range of an operation is the block of its path, whatever
    the file: it starts on the line of the path key whose path the
    entry holds and ends on the line before the next path key or
    [components:], or on the last line of the file.  The operations of
    one path key have one and the same range. *)
Theorem operations_span_their_path (lines : list string) :
  Forall (fun kv => path_block lines (snd kv)) (scan_paths lines).
Proof.
  unfold scan_paths.
  apply (paths_loop_block lines lines [] paths_scan_start eq_refl).
  split; cbn; [constructor | reflexivity | discriminate].
Qed.

End PathBlocks.

(* ================================================================== *)
(** * Units that share no line *)
(* ================================================================== *)

Section Units.

Lemma end_by_weaken {V} (range : V -> FileRange) (n m : Z) (d : Dict.t V) :
  n <= m -> end_by range n d -> end_by range m d.
Proof. intros Hle. apply Forall_impl. intros kv. lia. Qed.

(** An entry that starts after the others end. *)
Lemma apart_by_set {V} (range : V -> FileRange) (d : Dict.t V)
      (k : string) (v : V) (n : Z) :
  apart_by range d ->
  end_by range n d ->
  n < start_line (range v) ->
  apart_by range (Dict.set k v d).
Proof.
  intros Hd Hn Hv k1 v1 k2 v2 H1 H2 Hne.
  unfold end_by in Hn. rewrite Forall_forall in Hn.
  apply DictFacts.in_set in H1. apply DictFacts.in_set in H2.
  destruct H1 as [H1 | H1], H2 as [H2 | H2].
  - congruence.
  - inversion H1; subst. right. specialize (Hn _ H2). simpl in Hn. lia.
  - inversion H2; subst. left. specialize (Hn _ H1). simpl in Hn. lia.
  - now apply (Hd k1 v1 k2 v2).
Qed.

End Units.

Section SqlUnits.
Import Py CacheGenerator.

Lemma scan_start_apart : scan_apart scan_start.
Proof.
  split; simpl; [intros k1 r1 k2 r2 [] | constructor | constructor].
Qed.

(** The dictionary a block leaves: the open entity recorded up to line
    [e], or nothing new. *)
Lemma maybe_record_apart (s : scan) (guard : string -> bool) (e m : Z) :
  scan_apart s ->
  line_num s <= m -> e <= m ->
  let d := match current_entity_name s with
           | Some cur => if guard cur then record_range s cur e
                         else index_ranges s
           | None => index_ranges s
           end in
  apart_by (fun r => r) d /\ end_by (fun r => r) m d.
Proof.
  intros [Hu Hr Ho] Hm He. cbv zeta.
  assert (Hkeep : apart_by (fun r => r) (index_ranges s)
                  /\ end_by (fun r => r) m (index_ranges s))
    by (split; [assumption | now apply (end_by_weaken _ (line_num s))]).
  destruct (current_entity_name s) as [cur|]; [|exact Hkeep].
  destruct (guard cur); [|exact Hkeep].
  unfold record_range. split.
  - apply (apart_by_set _ _ _ _ (current_entity_start s - 1));
      [assumption | apply Ho; congruence | simpl; lia].
  - apply DictFacts.Forall_set; [apply Hkeep | exact He].
Qed.

Lemma opened_apart (s : scan) (name : string) (bc : Z) (d : Dict.t FileRange) :
  apart_by (fun r => r) d /\ end_by (fun r => r) (line_num s + 1 - 1) d ->
  scan_apart (mkScan (line_num s + 1) (Some name) (line_num s + 1) true bc d).
Proof.
  intros [Hu Hr]. split; simpl; [assumption | | intros _; assumption].
  apply (end_by_weaken _ (line_num s + 1 - 1)); [lia | assumption].
Qed.

Lemma closed_apart (s : scan) (start bc : Z) (b : bool) (d : Dict.t FileRange) :
  apart_by (fun r => r) d /\ end_by (fun r => r) (line_num s + 1) d ->
  scan_apart (mkScan (line_num s + 1) None start b bc d).
Proof.
  intros [Hu Hr]. split; simpl; [assumption | assumption | congruence].
Qed.

Lemma passed_apart (s : scan) (bc : Z) (b : bool) :
  scan_apart s ->
  scan_apart (mkScan (line_num s + 1) (current_entity_name s)
                     (current_entity_start s) b bc (index_ranges s)).
Proof.
  intros [Hu Hr Ho]. split; simpl; [assumption | | assumption].
  apply (end_by_weaken _ (line_num s)); [lia | assumption].
Qed.

Lemma schema_step_apart (s : scan) (line : string) :
  scan_apart s -> scan_apart (schema_step s line).
Proof.
  intros Hinv. unfold schema_step, schema_open.
  repeat match goal with
         | |- context [match Re.match1 ?r ?l with _ => _ end] =>
             destruct (Re.match1 r l)
         end;
    try (apply opened_apart;
         apply (maybe_record_apart s (fun cur => nonempty cur && in_entity s));
         [assumption | lia | lia]).
  destruct (in_entity s && startswith ";" (strip line)).
  - apply closed_apart.
    apply (maybe_record_apart s nonempty); [assumption | lia | lia].
  - now apply passed_apart.
Qed.

Lemma query_step_apart (s : scan) (line : string) :
  scan_apart s -> scan_apart (query_step s line).
Proof.
  intros Hinv. unfold query_step.
  destruct (Re.match1 query_pattern line).
  - destruct (maybe_record_apart s nonempty (line_num s + 1 - 1)
                (line_num s + 1 - 1) Hinv) as [Hu Hr]; [lia | lia |].
    split; simpl; [assumption | | intros _; assumption].
    apply (end_by_weaken _ (line_num s + 1 - 1)); [lia | assumption].
  - now apply passed_apart.
Qed.

Lemma generated_step_apart (s : scan) (line : string) :
  scan_apart s -> scan_apart (generated_step s line).
Proof.
  intros Hinv. unfold generated_step, generated_open.
  set (bc := brace_count s + brace_delta line).
  assert (Hopen :
            forall name guard bc',
              scan_apart
                (mkScan (line_num s + 1) (Some name) (line_num s + 1) true bc'
                   match current_entity_name s with
                   | Some cur =>
                       if nonempty cur && in_entity s && guard
                       then record_range s cur (line_num s + 1 - 1)
                       else index_ranges s
                   | None => index_ranges s
                   end)).
  { intros name guard bc'. apply opened_apart.
    apply (maybe_record_apart s
             (fun cur => nonempty cur && in_entity s && guard));
      [assumption | lia | lia]. }
  destruct (Re.match1 func_pattern (strip line)); [apply Hopen|].
  destruct (Re.match1 struct_pattern (strip line)); [apply Hopen|].
  destruct (Re.match1 interface_pattern (strip line)); [apply Hopen|].
  destruct (if negb (contains "struct" (strip line))
               && negb (contains "interface" (strip line))
            then Re.match1 type_pattern (strip line) else None);
    [apply Hopen|].
  destruct (in_entity s && (bc =? 0) && nonempty (strip line)
            && negb (startswith "//" (strip line))).
  - apply closed_apart.
    apply (maybe_record_apart s nonempty); [assumption | lia | lia].
  - now apply passed_apart.
Qed.

Lemma fold_step_apart (step : scan -> string -> scan) (lines : list string)
      (s : scan) :
  (forall s line, scan_apart s -> scan_apart (step s line)) ->
  scan_apart s -> scan_apart (fold_left step lines s).
Proof.
  intros Hstep. revert s. induction lines as [|l lines IH]; intros s Hinv.
  - exact Hinv.
  - cbn [fold_left]. apply IH. now apply Hstep.
Qed.

Lemma flushed_apart (s : scan) (guard : string -> bool) :
  scan_apart s ->
  apart_by (fun r => r)
           match current_entity_name s with
           | Some cur => if guard cur then record_range s cur (line_num s)
                         else index_ranges s
           | None => index_ranges s
           end.
Proof.
  intros Hinv.
  apply (maybe_record_apart s guard (line_num s) (line_num s) Hinv); lia.
Qed.

End SqlUnits.

Section ApiUnits.
Import Py ApiCacheGenerator.

Lemma schemas_loop_apart (n : nat) :
  forall (lines : list string) (i : Z) (started : bool)
         (schemas : Dict.t SchemaEntry),
    (List.length lines <= n)%nat ->
    apart_by schema_range schemas ->
    end_by schema_range i schemas ->
    apart_by schema_range (schemas_loop lines i started schemas).
Proof.
  induction n as [|n IHn]; intros lines i started schemas Hn Ha He.
  - destruct lines; [exact Ha | simpl in Hn; lia].
  - destruct lines as [|line rest]; [exact Ha|].
    cbn [List.length] in Hn. cbn [schemas_loop].
    assert (Hnext : end_by schema_range (i + 1) schemas)
      by (apply (end_by_weaken _ i); [lia | assumption]).
    destruct (negb started && String.eqb (strip line) "schemas:");
      [apply IHn; [lia | assumption | assumption]|].
    destruct (negb started); [apply IHn; [lia | assumption | assumption]|].
    destruct (Re.match1 schema_header_re line) as [name|];
      [|apply IHn; [lia | assumption | assumption]].
    match goal with
    | |- context [?f rest (i + 1) (i + 1)] => set (inner := f)
    end.
    assert (Hfound :
              forall e, i + 1 <= e ->
                apart_by schema_range
                  (Dict.set name (mkSchema name (mkRange (i + 1) e)) schemas)
                /\ end_by schema_range e
                     (Dict.set name (mkSchema name (mkRange (i + 1) e))
                               schemas)).
    { intros e Hle. split.
      - apply (apart_by_set _ _ _ _ i); [assumption | assumption |]. simpl. lia.
      - apply DictFacts.Forall_set; [|simpl; lia].
        apply (end_by_weaken _ i); [lia | assumption]. }
    assert (Hinner :
              forall (ls : list string) (j e : Z),
                (List.length ls <= n)%nat ->
                i + 1 <= e <= j ->
                apart_by schema_range (inner ls j e)).
    { induction ls as [|l2 r2 IHls]; intros j e Hlen Hj.
      - simpl. apply Hfound. lia.
      - cbn [List.length] in Hlen. subst inner. cbn beta iota.
        destruct (ends_schema l2).
        + destruct (Hfound e) as [Hfa Hfe]; [lia|].
          apply IHn; [simpl; lia | assumption |].
          apply (end_by_weaken _ e); [lia | assumption].
        + apply IHls; lia. }
    apply Hinner; lia.
Qed.

Section Entities.
Variable file : string.
Variable lines : list string.

Lemma close_entity_apart (st : entities_scan) (guard : bool) (e : Z) :
  entities_apart st ->
  apart_by entity_range (close_entity file lines st guard e).
Proof.
  intros [Ha Hopen]. unfold close_entity.
  destruct (current_name st) as [name|]; [|exact Ha].
  destruct (current_type st) as [type|]; [|exact Ha].
  destruct (nonempty name && nonempty type && guard); [|exact Ha].
  apply (apart_by_set _ _ _ _ (current_start st - 1)); [assumption | |].
  - apply Hopen. congruence.
  - simpl. lia.
Qed.

Lemma close_before_ends (i : Z) (st : entities_scan) (guard : bool) :
  entities_inv i st ->
  end_by entity_range i
         (close_entity file lines st guard (end_before st (i + 1))).
Proof.
  intros Hinv.
  destruct (close_entity_valid file lines i i (end_before st (i + 1)) st guard
              Hinv) as [_ Hok]; [lia | |].
  - intros Hn. pose proof (einv_current i st Hinv Hn). unfold end_before.
    destruct (current_start st <? i + 1) eqn:E; [lia|].
    apply Z.ltb_ge in E. lia.
  - revert Hok. apply Forall_impl. intros kv [_ Hr].
    unfold valid_range in Hr. lia.
Qed.

Lemma entities_step_apart (i : Z) (st : entities_scan) (line : string) :
  entities_inv i st ->
  entities_apart st ->
  entities_apart (entities_step file lines st i line).
Proof.
  intros Hinv Hap. unfold entities_step.
  assert (Hopen :
            forall name type bc guard,
              entities_apart
                (mkEntitiesScan name type (i + 1) bc
                   (close_entity file lines st guard
                                 (end_before st (i + 1))))).
  { intros name type bc guard. split; simpl.
    - now apply close_entity_apart.
    - intros _. replace (i + 1 - 1) with i by lia.
      now apply close_before_ends. }
  destruct (Re.match_ func_re line); [apply Hopen|].
  destruct (Re.match_ struct_re line); [apply Hopen|].
  destruct (Re.match_ const_var_re line); [apply Hopen|].
  destruct (if Re.matches struct_re line then None
            else Re.match_ type_re line); [apply Hopen|].
  destruct (truthy (current_name st) && truthy (current_type st)
            && (brace_count st + brace_delta line =? 0)
            && nonempty (strip line)
            && negb (startswith "//" (strip line))).
  - split; simpl; [now apply close_entity_apart | congruence].
  - exact Hap.
Qed.

Lemma entities_loop_apart (rest : list string) (i : Z) (st : entities_scan) :
  0 <= i ->
  entities_inv i st ->
  entities_apart st ->
  entities_apart (entities_loop file lines rest i st).
Proof.
  revert i st. induction rest as [|line rest IH]; intros i st Hi Hinv Hap.
  - exact Hap.
  - cbn [entities_loop]. apply IH; [lia | |].
    + now apply entities_step_inv.
    + now apply entities_step_apart.
Qed.

Lemma scan_entities_apart : apart_by entity_range (scan_entities file lines).
Proof.
  unfold scan_entities. apply close_entity_apart.
  apply entities_loop_apart; [lia | |].
  - split; simpl; [apply DictFacts.wf_empty | constructor | congruence].
  - split; simpl; [intros k1 v1 k2 v2 [] | congruence].
Qed.

End Entities.

End ApiUnits.

(** X7: the units of an index share no line: whatever the file, two names
    of the schema index, of the query index or of the index of a
    generated file of [cache_generator.py], two schemas or two entities
    of the generated file of [api_cache_generator.py] have disjoint
    ranges.  (The operations of one path key of the path index share
    their lines.) *)
Theorem units_share_no_line (file : string) (lines : list string) :
  apart_by (fun r => r) (CacheGenerator.scan_schema lines)
  /\ apart_by (fun r => r) (CacheGenerator.scan_queries lines)
  /\ apart_by (fun r => r) (CacheGenerator.scan_generated lines)
  /\ apart_by ApiCacheGenerator.schema_range
              (ApiCacheGenerator.scan_schemas lines)
  /\ apart_by ApiCacheGenerator.entity_range
              (ApiCacheGenerator.scan_entities file lines).
Proof.
  repeat split.
  - unfold CacheGenerator.scan_schema, CacheGenerator.scan_flush.
    apply (flushed_apart _ (fun cur => Py.nonempty cur
                                       && CacheGenerator.in_entity _)).
    apply fold_step_apart; [exact schema_step_apart | exact scan_start_apart].
  - unfold CacheGenerator.scan_queries, CacheGenerator.query_flush.
    apply (flushed_apart _ Py.nonempty).
    apply fold_step_apart; [exact query_step_apart | exact scan_start_apart].
  - unfold CacheGenerator.scan_generated, CacheGenerator.scan_flush.
    apply (flushed_apart _ (fun cur => Py.nonempty cur
                                       && CacheGenerator.in_entity _)).
    apply fold_step_apart;
      [exact generated_step_apart | exact scan_start_apart].
  - apply (schemas_loop_apart (List.length lines)); [lia | | constructor].
    intros k1 v1 k2 v2 [].
  - apply scan_entities_apart.
Qed.

(* ================================================================== *)
(** * What the steps of a run leave alone *)
(* ================================================================== *)

Section Steps.
Import Py Runtime.

Variable R : state -> state -> Prop.
Hypothesis R_refl : forall s, R s s.
Hypothesis R_trans : forall a b c, R a b -> R b c -> R a c.

Lemma keeps_ret {A} (a : A) : keeps R (ret a).
Proof. intros s. apply R_refl. Qed.

Lemma keeps_lift {A} (r : result A) : keeps R (lift r).
Proof. intros s. apply R_refl. Qed.

Lemma keeps_bind {A B} (m : M A) (k : A -> M B) :
  keeps R m -> (forall a, keeps R (k a)) -> keeps R (bindM m k).
Proof.
  intros Hm Hk s. unfold bindM. specialize (Hm s).
  destruct (m s) as [[a|e] s1]; [|exact Hm].
  apply (R_trans _ s1); [exact Hm | apply Hk].
Qed.

Lemma keeps_try_except {A} (m : M A) (h : exn -> M A) :
  keeps R m -> (forall e, keeps R (h e)) -> keeps R (try_except m h).
Proof.
  intros Hm Hh s. unfold try_except. specialize (Hm s).
  destruct (m s) as [[a|e] s1]; [exact Hm|].
  apply (R_trans _ s1); [exact Hm | apply Hh].
Qed.

Lemma raising_keeps_bind {A B} (m : M A) (k : A -> M B) :
  keeps R m -> (forall a, raising_keeps R (k a)) ->
  raising_keeps R (bindM m k).
Proof.
  intros Hm Hk s e s'. unfold bindM. specialize (Hm s).
  destruct (m s) as [[a|e1] s1].
  - intros H. apply (R_trans _ s1); [exact Hm | exact (Hk a s1 e s' H)].
  - intros H. inversion H; subst. exact Hm.
Qed.

Lemma keeps_raising {A} (m : M A) : keeps R m -> raising_keeps R m.
Proof. intros Hm s e s' H. specialize (Hm s). now rewrite H in Hm. Qed.

End Steps.

Section Untouched.
Import Py Runtime.

Lemma untouched_refl (s : state) : untouched s s.
Proof. split; reflexivity. Qed.

Lemma untouched_trans (a b c : state) :
  untouched a b -> untouched b c -> untouched a c.
Proof. intros [H1 H2] [H3 H4]. split; congruence. Qed.

Lemma same_stored_refl (s : state) : same_stored_hashes s s.
Proof. reflexivity. Qed.

Lemma same_stored_trans (a b c : state) :
  same_stored_hashes a b -> same_stored_hashes b c -> same_stored_hashes a c.
Proof. unfold same_stored_hashes. congruence. Qed.

Lemma untouched_same_stored {A} (m : M A) :
  keeps untouched m -> keeps same_stored_hashes m.
Proof. intros H s. apply H. Qed.

Variable sha : string -> string.
Variable fs : filesystem.

Lemma check_fingerprint_untouched (key path : string) :
  keeps untouched (check_fingerprint sha fs key path).
Proof.
  intros s. unfold check_fingerprint.
  destruct (should_reindex sha fs (hashes s) key path) as [[a t] o].
  split; reflexivity.
Qed.

Lemma write_document_untouched (name : string) (doc : json) :
  keeps untouched (write_document name doc).
Proof. intros s. split; reflexivity. Qed.

Lemma print_untouched (d : diagnostic) : keeps untouched (print d).
Proof. intros s. split; reflexivity. Qed.

Lemma write_cache_same_stored (name : string) (doc : json) :
  keeps same_stored_hashes (write_cache name doc).
Proof. intros s. reflexivity. Qed.

End Untouched.

Section QuietSteps.
Import Py Runtime.

Lemma untouched_ret {A} (a : A) : keeps untouched (ret a).
Proof. apply keeps_ret, untouched_refl. Qed.

Lemma untouched_lift {A} (r : result A) : keeps untouched (lift r).
Proof. apply keeps_lift, untouched_refl. Qed.

Lemma untouched_bind {A B} (m : M A) (k : A -> M B) :
  keeps untouched m -> (forall a, keeps untouched (k a)) ->
  keeps untouched (bindM m k).
Proof. apply keeps_bind, untouched_trans. Qed.

Lemma same_stored_bind {A B} (m : M A) (k : A -> M B) :
  keeps same_stored_hashes m -> (forall a, keeps same_stored_hashes (k a)) ->
  keeps same_stored_hashes (bindM m k).
Proof. apply keeps_bind, same_stored_trans. Qed.

(** A statement that touches nothing, followed by statements that keep
    the stored hashes when they raise. *)
Lemma raising_after {A B} (m : M A) (k : A -> M B) :
  keeps untouched m ->
  (forall a, raising_keeps same_stored_hashes (k a)) ->
  raising_keeps same_stored_hashes (bindM m k).
Proof.
  intros Hm. apply raising_keeps_bind; [exact same_stored_trans|].
  now apply untouched_same_stored.
Qed.

Lemma returning_bind {A B} (P : state -> Prop) (m : M A) (k : A -> M B) :
  (forall a, returning P (k a)) -> returning P (bindM m k).
Proof.
  intros Hk s b s'. unfold bindM.
  destruct (m s) as [[a|e] s1]; [apply Hk | discriminate].
Qed.

Lemma save_hashes_saved : returning hashes_saved _save_hashes.
Proof. intros s a s' H. inversion H. reflexivity. Qed.

Lemma load_hashes_untouched : keeps untouched _load_hashes.
Proof. intros s. split; reflexivity. Qed.

End QuietSteps.

Section SqlSteps.
Import Py Runtime CacheGenerator.

Variable sha : string -> string.
Variable set_order : list string -> list string.
Variable config : json.
Variable fs : filesystem.

Lemma index_file_untouched (scanner : list string -> Dict.t FileRange)
      (path : string) :
  keeps untouched (index_file sha fs scanner path).
Proof.
  unfold index_file. apply untouched_bind.
  - apply check_fingerprint_untouched.
  - intros changed. destruct (negb changed); [apply untouched_ret|].
    apply untouched_bind; [apply untouched_lift|].
    intros content. apply untouched_ret.
Qed.

Lemma load_index_untouched (filename : string) :
  keeps untouched (load_index filename).
Proof.
  intros s. unfold load_index.
  destruct (Dict.get filename (cache_dir s)) as [data|];
    [destruct (FileIndex_of_json data)|]; apply untouched_refl.
Qed.

Lemma or_load_untouched (o : option FileIndex) (filename : string) :
  keeps untouched (or_load o filename).
Proof.
  destruct o; [apply untouched_ret | apply load_index_untouched].
Qed.

Lemma saved_untouched (o : option FileIndex) (filename : string) :
  keeps untouched match o with
                  | Some index => save_index index filename
                  | None => ret tt
                  end.
Proof.
  destruct o; [apply write_document_untouched | apply untouched_ret].
Qed.

Lemma index_generated_untouched (items : list (string * json)) :
  forall indices, keeps untouched (index_generated sha fs items indices).
Proof.
  induction items as [|[key p] items IH]; intros indices;
    cbn [index_generated]; [apply untouched_ret|].
  apply untouched_bind; [apply untouched_lift|]. intros gen_path.
  destruct (exists_ fs gen_path); [|apply IH].
  apply untouched_bind; [apply index_file_untouched|]. intros [index|];
    [|apply IH].
  apply untouched_bind; [apply write_document_untouched|]. intros _.
  apply IH.
Qed.

Lemma load_generated_untouched (items : list (string * json)) :
  forall indices, keeps untouched (load_generated items indices).
Proof.
  induction items as [|[key p] items IH]; intros indices;
    cbn [load_generated]; [apply untouched_ret|].
  destruct (negb (Dict.mem key indices)); [|apply IH].
  apply untouched_bind; [apply untouched_lift|]. intros gen_path.
  apply untouched_bind; [apply load_index_untouched|]. intros [index|];
    apply IH.
Qed.

Lemma generate_caches_same_stored (queries : list (string * FileRange))
      (schema_index : FileIndex) (indices : Dict.t FileIndex) :
  keeps same_stored_hashes
        (generate_caches set_order config fs queries schema_index indices).
Proof.
  induction queries as [|[name r] queries IH]; cbn [generate_caches].
  - apply keeps_ret, same_stored_refl.
  - apply same_stored_bind; [|intros _; exact IH].
    apply keeps_try_except; [exact same_stored_trans | |].
    + apply same_stored_bind; [apply keeps_lift, same_stored_refl|].
      intros cache. apply write_cache_same_stored.
    + intros e. apply untouched_same_stored, print_untouched.
Qed.

Lemma generate_raising :
  raising_keeps same_stored_hashes (generate sha set_order config fs).
Proof.
  unfold generate, index_schema_file, index_query_file.
  apply raising_after.
  { apply untouched_bind; [apply untouched_lift|].
    intros p. apply index_file_untouched. }
  intros schema_index. apply raising_after; [apply saved_untouched|].
  intros _. apply raising_after.
  { apply untouched_bind; [apply untouched_lift|].
    intros p. apply index_file_untouched. }
  intros query_index. apply raising_after; [apply saved_untouched|].
  intros _. apply raising_after; [apply untouched_lift|].
  intros generated. apply raising_after; [apply index_generated_untouched|].
  intros indices. apply raising_after; [apply or_load_untouched|].
  intros schema_index'. apply raising_after; [apply or_load_untouched|].
  intros query_index'. apply raising_after; [apply load_generated_untouched|].
  intros indices'.
  apply raising_keeps_bind; [exact same_stored_trans | |].
  - destruct query_index' as [q|]; [|apply keeps_ret, same_stored_refl].
    destruct schema_index' as [sc|]; [|apply keeps_ret, same_stored_refl].
    apply generate_caches_same_stored.
  - intros _ s e s' H. discriminate H.
Qed.

Lemma generate_returning :
  returning hashes_saved (generate sha set_order config fs).
Proof.
  unfold generate. do 10 (apply returning_bind; intros ?).
  apply save_hashes_saved.
Qed.

Lemma init_untouched : keeps untouched (init config).
Proof.
  unfold init. apply untouched_bind; [apply untouched_lift|]. intros _.
  apply untouched_bind; [apply untouched_lift|]. intros _.
  apply load_hashes_untouched.
Qed.

End SqlSteps.

Section ApiSteps.
Import Py Runtime ApiCacheGenerator.

Variable sha : string -> string.
Variable fs : filesystem.
Variables spec_file boilerplate_file : string.

Lemma index_with_untouched {V} (rel_key path index_name : string)
      (load : json -> result (Dict.t V)) (scan : list string -> Dict.t V)
      (document : Z -> Dict.t V -> json) :
  keeps untouched
        (index_with sha fs rel_key path index_name load scan document).
Proof.
  unfold index_with. apply untouched_bind.
  - apply check_fingerprint_untouched.
  - intros changed s.
    destruct (if changed then None else Dict.get index_name (cache_dir s)).
    + apply untouched_lift.
    + apply untouched_bind; [apply untouched_lift|]. intros lines.
      apply untouched_bind; [apply write_document_untouched|]. intros _.
      apply untouched_ret.
Qed.

Lemma api_generate_caches_same_stored (operations : list (string * PathEntry))
      (schema_index : Dict.t SchemaEntry)
      (boilerplate_index : Dict.t BoilerplateEntity) :
  keeps same_stored_hashes
        (generate_caches fs spec_file boilerplate_file operations
                         schema_index boilerplate_index).
Proof.
  induction operations as [|[op_id entry] operations IH];
    cbn [generate_caches].
  - apply keeps_ret, same_stored_refl.
  - apply same_stored_bind; [|intros _; exact IH].
    apply keeps_try_except; [exact same_stored_trans | |].
    + unfold generate_operation_cache.
      apply same_stored_bind; [apply keeps_lift, same_stored_refl|].
      intros cache. apply write_cache_same_stored.
    + intros e. apply untouched_same_stored, print_untouched.
Qed.

Lemma api_generate_raising :
  raising_keeps same_stored_hashes
                (generate sha fs spec_file boilerplate_file).
Proof.
  unfold generate, index_paths, index_schemas, index_boilerplate.
  apply raising_after; [apply index_with_untouched|]. intros paths_index.
  apply raising_after; [apply index_with_untouched|]. intros schemas_index.
  apply raising_after; [apply index_with_untouched|]. intros entities_index.
  apply raising_keeps_bind; [exact same_stored_trans | |].
  - apply api_generate_caches_same_stored.
  - intros _ s e s' H. discriminate H.
Qed.

Lemma api_generate_returning :
  returning hashes_saved (generate sha fs spec_file boilerplate_file).
Proof.
  unfold generate. do 4 (apply returning_bind; intros ?).
  apply save_hashes_saved.
Qed.

End ApiSteps.

(** X8: [hashes.json] and [hashes_api.json] are written by the last
    statement of [generate] only: a run that ends without error leaves
    the table it has in memory there, and a run that raises leaves the
    file as it found it (the index documents it wrote before stay). *)
Theorem hashes_saved_on_success_only
        (sha : string -> string) (set_order : list string -> list string)
        (sql_config api_config : json) (fs : filesystem)
        (stored : option (Dict.t string)) (dir : Dict.t json) :
  let sql := CacheGenerator.run sha set_order sql_config fs stored dir in
  let api := ApiCacheGenerator.run sha api_config fs stored dir in
  (fst sql = Py.Ok tt ->
   Runtime.hashes_file (snd sql) = Some (Runtime.hashes (snd sql)))
  /\ (forall e, fst sql = Py.Raise e -> Runtime.hashes_file (snd sql) = stored)
  /\ (fst api = Py.Ok tt ->
      Runtime.hashes_file (snd api) = Some (Runtime.hashes (snd api)))
  /\ (forall e, fst api = Py.Raise e -> Runtime.hashes_file (snd api) = stored).
Proof.
  cbv zeta. repeat split.
  - unfold CacheGenerator.run.
    destruct (Runtime.bindM _ _ _) as [r s'] eqn:E. cbn [fst snd].
    intros ->.
    exact (returning_bind hashes_saved _ _
             (fun _ => generate_returning sha set_order sql_config fs)
             _ _ _ E).
  - intros e. unfold CacheGenerator.run.
    destruct (Runtime.bindM _ _ _) as [r s'] eqn:E. cbn [fst snd].
    intros ->.
    apply (raising_after _ _ (init_untouched sql_config)
             (fun _ => generate_raising sha set_order sql_config fs)) in E.
    exact E.
  - unfold ApiCacheGenerator.run.
    destruct (Runtime.bindM _ _ _) as [r s'] eqn:E. cbn [fst snd].
    intros ->. revert E.
    match goal with
    | |- ?m ?s = _ -> _ => assert (H : returning hashes_saved m)
    end.
    { do 4 (apply returning_bind; intros ?). apply api_generate_returning. }
    intros E. exact (H _ _ _ E).
  - intros e. unfold ApiCacheGenerator.run.
    destruct (Runtime.bindM _ _ _) as [r s'] eqn:E. cbn [fst snd].
    intros ->. revert E.
    match goal with
    | |- ?m ?s = _ -> _ =>
        assert (H : raising_keeps same_stored_hashes m)
    end.
    { apply raising_after; [apply untouched_lift|]. intros _.
      apply raising_after; [apply untouched_lift|]. intros spec_file.
      apply raising_after; [apply untouched_lift|]. intros boilerplate_file.
      apply raising_after; [apply load_hashes_untouched|]. intros _.
      apply api_generate_raising. }
    intros E. exact (H _ _ _ E).
Qed.

(* ================================================================== *)
(** * Configurations that lack a key *)
(* ================================================================== *)

Section RequiredKeys.
Import Py Runtime.

Variable sha : string -> string.
Variable fs : filesystem.





Lemma bindM_raise {A B} (m : M A) (k : A -> M B) (s s' : state) (e : exn) :
  m s = (Raise e, s') -> bindM m k s = (Raise e, s').
Proof. intros H. unfold bindM. now rewrite H. Qed.

Variable set_order : list string -> list string.
Variable stored : option (Dict.t string).
Variable dir : Dict.t json.




End RequiredKeys.


(* ================================================================== *)
(** * First runs of api_cache_generator.py *)
(* ================================================================== *)

Section ApiFirstRun.
Import Py Runtime ApiCacheGenerator.

Variable sha : string -> string.
Variable fs : filesystem.


(** ... and on a file that is missing, when no index document is
    stored. *)
Lemma index_with_missing {V} (rel_key path index_name : string)
      (load : json -> result (Dict.t V)) (scan : list string -> Dict.t V)
      (document : Z -> Dict.t V -> json) (s : state) :
  fs path = None ->
  Dict.get index_name (cache_dir s) = None ->
  index_with sha fs rel_key path index_name load scan document s
  = (Raise (FileNotFoundError path),
     mkState (hashes s) (hashes_file s) (cache_dir s) (written s)
             (printed s ++ [FileMissing path])).
Proof.
  intros Hfs Hget.
  unfold index_with, _should_reindex, check_fingerprint, should_reindex, bindM.
  rewrite Hfs. cbn [hashes hashes_file cache_dir written printed].
  rewrite Hget. unfold lift, _read_all_lines, open_text. rewrite Hfs.
  reflexivity.
Qed.


(** The next statement of a run, [tac] proving what it does. *)
Ltac next tac := erewrite bindM_ok; [| tac ].


(** X11: a missing specification stops the run when no path index is
    stored: [index_paths] reports the file, finds no index document and
    opens the file all the same.  Nothing is written, and the stored
    hashes stay. *)
Theorem missing_specification_stops_the_run
        (config base : json) (spec_file boilerplate_file : string)
        (stored : option (Dict.t string)) (dir : Dict.t json) :
  Json.item "base_path" config = Ok base ->
  bind (Json.item "spec_file" config) Json.as_str = Ok spec_file ->
  bind (Json.item "boilerplate_file" config) Json.as_str
  = Ok boilerplate_file ->
  fs spec_file = None ->
  Dict.get "taskflow.paths.index.json" dir = None ->
  run sha config fs stored dir
  = (Raise (FileNotFoundError spec_file),
     mkState match stored with
             | Some table => table
             | None => Dict.empty
             end stored dir [] [FileMissing spec_file]).
Proof.
  intros Hbase Hspec Hgo Hfs Hdir. unfold run.
  rewrite (bindM_lift_ok _ _ _ base Hbase).
  rewrite (bindM_lift_ok _ _ _ spec_file Hspec).
  rewrite (bindM_lift_ok _ _ _ boilerplate_file Hgo).
  next ltac:(reflexivity).
  cbn [fresh hashes hashes_file cache_dir written printed].
  unfold generate, index_paths. unfold bindM at 1.
  rewrite index_with_missing by assumption. reflexivity.
Qed.

End ApiFirstRun.

(* ================================================================== *)
(** * The loops over the units *)
(* ================================================================== *)

Section UnitLoops.
Import Py Runtime.

Variable set_order : list string -> list string.
Variable config : json.
Variable fs : filesystem.



End UnitLoops.

(* ================================================================== *)
(** * Dependency records *)
(* ================================================================== *)

Section Related.
Import Py ApiCacheGenerator.

Lemma prefix_refl (s : string) : String.prefix s s = true.
Proof.
  induction s as [|c s IH]; [reflexivity|]. simpl.
  destruct (ascii_dec c c); [exact IH | congruence].
Qed.

Lemma prefix_contains (p s : string) :
  String.prefix p s = true -> contains p s = true.
Proof. intros H. destruct s; simpl in *; now rewrite H. Qed.

Lemma related_contains (op_id name : string) :
  related op_id name = contains op_id name.
Proof.
  unfold related, startswith.
  destruct (String.eqb name op_id) eqn:E.
  - apply String.eqb_eq in E. subst name.
    now rewrite (prefix_contains _ _ (prefix_refl op_id)).
  - destruct (String.prefix op_id name) eqn:P; [|reflexivity].
    now rewrite (prefix_contains _ _ P).
Qed.

(** X13: the entities [_extract_boilerplate_entities_for_op] attaches to an
    operation are those whose name holds the operation identifier, in
    the order of the index; the tests for an equal name and for a
    prefix select nothing more. *)
Theorem entities_of_operation_hold_its_name
        (op_id : string) (boilerplate_index : Dict.t BoilerplateEntity) :
  _extract_boilerplate_entities_for_op op_id boilerplate_index
  = List.map (fun kv => BoilerplateEntity_to_dict (snd kv))
             (filter (fun kv => contains op_id (fst kv)) boilerplate_index).
Proof.
  unfold _extract_boilerplate_entities_for_op. f_equal.
  apply filter_ext. intros kv. apply related_contains.
Qed.

End Related.

Section DependencyRecords.
Import Py.

Lemma table_dependencies_records (fs : filesystem)
      (schema_index : CacheGenerator.FileIndex) (schema_path content : string)
      (names : list string) :
  fs schema_path = Some content ->
  (forall name r,
      Dict.get name (CacheGenerator.ranges schema_index) = Some r ->
      1 <= start_line r) ->
  exists deps,
    CacheGenerator.table_dependencies fs schema_path schema_index names
    = Ok deps
    /\ Forall
         (fun dep =>
            In (CacheGenerator.table_name dep) names
            /\ Dict.get (CacheGenerator.table_name dep)
                        (CacheGenerator.ranges schema_index)
               = Some (CacheGenerator.table_range dep)
            /\ CacheGenerator.table_file dep = schema_path
            /\ CacheGenerator.table_sql dep
               = join (String newline EmptyString)
                      (List.map rstrip_newline
                         (lines_from_to (readlines content)
                            (start_line (CacheGenerator.table_range dep))
                            (end_line (CacheGenerator.table_range dep)))))
         deps.
Proof.
  intros Hfs Hstart.
  induction names as [|n names [deps [Hdeps Hall]]]; simpl.
  - exists []. split; [reflexivity | constructor].
  - assert (Hmore : Forall
              (fun dep =>
                 In (CacheGenerator.table_name dep) (n :: names)
                 /\ Dict.get (CacheGenerator.table_name dep)
                             (CacheGenerator.ranges schema_index)
                    = Some (CacheGenerator.table_range dep)
                 /\ CacheGenerator.table_file dep = schema_path
                 /\ CacheGenerator.table_sql dep
                    = join (String newline EmptyString)
                           (List.map rstrip_newline
                              (lines_from_to (readlines content)
                                 (start_line (CacheGenerator.table_range dep))
                                 (end_line (CacheGenerator.table_range dep)))))
              deps).
    { revert Hall. apply Forall_impl. intros dep [H1 H2].
      split; [right; exact H1 | exact H2]. }
    destruct (Dict.get n (CacheGenerator.ranges schema_index)) as [r|] eqn:E.
    + unfold CacheGenerator._read_file_range_content.
      rewrite (read_file_lines_total fs schema_path content
                 (start_line r) (end_line r) Hfs (Hstart n r E)).
      cbn [bind]. rewrite Hdeps. cbn [bind]. eexists. split; [reflexivity|].
      constructor; [|exact Hmore]. simpl. repeat split; auto.
    + exists deps. split; assumption.
Qed.

Lemma schema_dependencies_records (fs : filesystem)
      (spec_file content : string)
      (schemas : Dict.t ApiCacheGenerator.SchemaEntry)
      (refs : list string) (seen : PySet.t) :
  fs spec_file = Some content ->
  exists deps,
    ApiCacheGenerator.schema_dependencies fs spec_file schemas refs seen
    = Ok deps
    /\ Forall
         (fun dep =>
            In (ApiCacheGenerator.dep_name dep) refs
            /\ (exists entry,
                   Dict.get (ApiCacheGenerator.dep_name dep) schemas
                   = Some entry
                   /\ ApiCacheGenerator.schema_range entry
                      = ApiCacheGenerator.dep_range dep)
            /\ ApiCacheGenerator.dep_file dep = spec_file
            /\ ApiCacheGenerator.dep_schema_yaml dep
               = ApiCacheGenerator.read_range_of
                   (readlines content) (ApiCacheGenerator.dep_range dep))
         deps.
Proof.
  intros Hfs. revert seen.
  induction refs as [|m refs IH]; intros seen; simpl.
  - exists []. split; [reflexivity | constructor].
  - assert (Hmore : forall seen', exists deps,
              ApiCacheGenerator.schema_dependencies fs spec_file schemas
                refs seen' = Ok deps
              /\ Forall
                   (fun dep =>
                      (m = ApiCacheGenerator.dep_name dep
                       \/ In (ApiCacheGenerator.dep_name dep) refs)
                      /\ (exists entry,
                             Dict.get (ApiCacheGenerator.dep_name dep) schemas
                             = Some entry
                             /\ ApiCacheGenerator.schema_range entry
                                = ApiCacheGenerator.dep_range dep)
                      /\ ApiCacheGenerator.dep_file dep = spec_file
                      /\ ApiCacheGenerator.dep_schema_yaml dep
                         = ApiCacheGenerator.read_range_of
                             (readlines content)
                             (ApiCacheGenerator.dep_range dep))
                   deps).
    { intros seen'. destruct (IH seen') as [deps [Hdeps Hall]].
      exists deps. split; [exact Hdeps|].
      revert Hall. apply Forall_impl. intros dep [H1 H2].
      split; [right; exact H1 | exact H2]. }
    destruct (PySet.mem m seen); [apply Hmore|].
    destruct (Hmore (PySet.add m seen)) as [deps [Hdeps Hall]].
    destruct (Dict.get m schemas) as [entry|] eqn:E.
    + unfold ApiCacheGenerator._read_range,
        ApiCacheGenerator._read_all_lines, Runtime.open_text.
      rewrite Hfs. cbn [bind]. rewrite Hdeps. cbn [bind].
      eexists. split; [reflexivity|].
      constructor; [|exact Hall]. simpl.
      split; [left; reflexivity|]. split; [|split; reflexivity].
      exists entry. split; [exact E | reflexivity].
    + exists deps. split; assumption.
Qed.


Lemma first_seen_from_in (l seen : list string) (x : string) :
  In x (first_seen_from seen l) -> In x l.
Proof.
  revert seen. induction l as [|y l IH]; intros seen; simpl; [tauto|].
  destruct (existsb (String.eqb y) seen).
  - intros H. right. exact (IH _ H).
  - intros [H | H]; [left; exact H | right; exact (IH _ H)].
Qed.

(** X14: the dependency records of a query and of an operation: each names
    a reference found in the text (for a query, one that is no SQL
    keyword), carries the range the index has for that name and the
    file that was indexed, and holds the text of exactly those lines. *)
Theorem dependencies_carry_indexed_ranges
        (set_order : list string -> list string) (config : json)
        (fs : filesystem) (schema_index : CacheGenerator.FileIndex)
        (schema_path schema query_sql : string)
        (spec_file spec op_block : string)
        (schemas : Dict.t ApiCacheGenerator.SchemaEntry) :
  (forall l, Permutation (set_order l) l) ->
  CacheGenerator.config_str config "schema_file" = Ok schema_path ->
  fs schema_path = Some schema ->
  (forall name r,
      Dict.get name (CacheGenerator.ranges schema_index) = Some r ->
      1 <= start_line r) ->
  fs spec_file = Some spec ->
  (exists deps,
      CacheGenerator.extract_table_dependencies set_order config fs
        query_sql schema_index = Ok deps
      /\ Forall
           (fun dep =>
              let name := CacheGenerator.table_name dep in
              let r := CacheGenerator.table_range dep in
              In name (List.map strip (table_captures query_sql))
              /\ is_table_name name = true
              /\ Dict.get name (CacheGenerator.ranges schema_index) = Some r
              /\ CacheGenerator.table_file dep = schema_path
              /\ CacheGenerator.table_sql dep
                 = join (String newline EmptyString)
                        (List.map rstrip_newline
                           (lines_from_to (readlines schema)
                                          (start_line r) (end_line r))))
           deps)
  /\ (exists deps,
         ApiCacheGenerator._extract_schema_dependencies fs spec_file op_block
           schemas = Ok deps
         /\ Forall
              (fun dep =>
                 let name := ApiCacheGenerator.dep_name dep in
                 let r := ApiCacheGenerator.dep_range dep in
                 In name (Re.findall ApiCacheGenerator.schema_ref_re op_block)
                 /\ (exists entry,
                        Dict.get name schemas = Some entry
                        /\ ApiCacheGenerator.schema_range entry = r)
                 /\ ApiCacheGenerator.dep_file dep = spec_file
                 /\ ApiCacheGenerator.dep_schema_yaml dep
                    = ApiCacheGenerator.read_range_of (readlines spec) r)
              deps).
Proof.
  intros Hperm Hconfig Hschema Hstart Hspec. split.
  - unfold CacheGenerator.extract_table_dependencies.
    rewrite Hconfig. cbn [bind].
    destruct (table_dependencies_records fs schema_index schema_path schema
                (set_order (CacheGenerator.table_candidates query_sql))
                Hschema Hstart) as [deps [Hdeps Hall]].
    exists deps. split; [exact Hdeps|].
    revert Hall. apply Forall_impl. intros dep [Hin Hrest]. cbv zeta.
    apply (Permutation_in _ (Hperm _)) in Hin.
    rewrite table_candidates_first_seen in Hin.
    apply first_seen_from_in, filter_In in Hin.
    destruct Hin as [Hin Hname]. repeat split; try assumption; apply Hrest.
  - apply schema_dependencies_records. exact Hspec.
Qed.

End DependencyRecords.

(* ================================================================== *)
(** * The sections of the specification *)
(* ================================================================== *)

Section Sections.
Import Py Re ApiCacheGenerator.

Lemma schemas_loop_before (lines : list string) (i : Z)
      (schemas : Dict.t SchemaEntry) :
  Forall (fun l => strip l <> "schemas:") lines ->
  schemas_loop lines i false schemas = schemas.
Proof.
  intros H. revert i. induction H as [|l lines Hl _ IH]; intros i.
  - reflexivity.
  - cbn [schemas_loop negb andb].
    destruct (String.eqb (strip l) "schemas:") eqn:E;
      [apply String.eqb_eq in E; contradiction|].
    apply IH.
Qed.

(** X15: both scans of the specification wait for the line that opens their
    section: without a [paths:] line no operation is indexed, without a
    [schemas:] line no schema, whatever the file holds. *)
Theorem nothing_indexed_before_the_section (lines : list string) :
  (Forall (fun l => strip l <> "paths:") lines -> scan_paths lines = [])
  /\ (Forall (fun l => strip l <> "schemas:") lines -> scan_schemas lines = []).
Proof.
  split; intros H.
  - unfold scan_paths.
    rewrite <- (app_nil_r lines).
    rewrite (paths_loop_before lines [] 0 paths_scan_start eq_refl H).
    reflexivity.
  - now apply schemas_loop_before.
Qed.

Section Stop.
Variables (stop : string) (rest : list string).
Hypothesis stop_components : startswith "components:" (strip stop) = true.

Lemma stop_ends_operation : ends_operation stop = true.
Proof. unfold ends_operation. rewrite stop_components. apply orb_true_r. Qed.

Lemma extend_range_stop (xs : list string) (k e : Z) :
  extend_range (xs ++ stop :: rest) k e = extend_range (xs ++ [stop]) k e.
Proof.
  revert k e. induction xs as [|l xs IH]; intros k e; simpl.
  - now rewrite stop_ends_operation.
  - destruct (ends_operation l); [reflexivity | apply IH].
Qed.

Lemma scan_operation_stop (xs : list string) (j line : Z) (p m : string)
      (paths : Dict.t PathEntry) :
  scan_operation (xs ++ stop :: rest) j line p m paths
  = scan_operation (xs ++ [stop]) j line p m paths.
Proof.
  revert j. induction xs as [|l xs IH]; intros j; simpl.
  - now rewrite stop_ends_operation.
  - destruct (ends_operation l); [reflexivity|].
    destruct (startswith "operationId:" (strip l)); [|apply IH].
    now rewrite extend_range_stop.
Qed.

Lemma paths_loop_stop (xs : list string) (i : Z) (st : paths_scan) :
  paths_section_started st = true
  \/ Exists (fun l => strip l = "paths:") xs ->
  paths_loop (xs ++ stop :: rest) i st = paths_loop (xs ++ [stop]) i st.
Proof.
  revert i st. induction xs as [|l xs IH]; intros i st Hst.
  - destruct Hst as [Hst | Hst]; [|inversion Hst].
    simpl. rewrite Hst, stop_components. reflexivity.
  - cbn [app paths_loop].
    destruct (paths_section_started st) eqn:Est; cbn [negb andb].
    + destruct (startswith "components:" (strip l)); [reflexivity|].
      destruct (match1 path_re l) as [p|]; [apply IH; left; reflexivity|].
      destruct (match1 method_re l) as [m|]; [|apply IH; left; exact Est].
      destruct (current_path st) as [cur|]; [|apply IH; left; exact Est].
      destruct (nonempty cur); [|apply IH; left; exact Est].
      rewrite scan_operation_stop. apply IH. left. reflexivity.
    + destruct (String.eqb (strip l) "paths:") eqn:E.
      * apply IH. left. reflexivity.
      * apply IH. right. destruct Hst as [Hst | Hst]; [discriminate|].
        inversion Hst as [? ? Hl | ? ? Hxs]; subst; [|exact Hxs].
        apply String.eqb_neq in E. contradiction.
Qed.

End Stop.

(** X16: the path index ends at [components:]: once the [paths:] line is
    passed, the first line that starts with [components:] ends the
    scan, and nothing after it counts. *)
Theorem paths_end_at_components (before : list string) (stop : string)
        (rest : list string) :
  Exists (fun l => strip l = "paths:") before ->
  startswith "components:" (strip stop) = true ->
  scan_paths (before ++ stop :: rest) = scan_paths (before ++ [stop]).
Proof.
  intros Hpaths Hstop. unfold scan_paths.
  apply paths_loop_stop; [exact Hstop | right; exact Hpaths].
Qed.

End Sections.

(* ================================================================== *)
(** * Two runs of cache_generator.py from a clean start *)
(* ================================================================== *)

Section FoldSome.
Context {A V : Type}.
Variable key : A -> string.
Variable value : A -> option V.

Lemma fold_some_other (l : list A) (d : Dict.t V) (k : string) :
  (forall x, In x l -> key x <> k) ->
  Dict.get k (fold_left (fun d x => set_some d (key x) (value x)) l d) = Dict.get k d.
Proof.
  revert d. induction l as [|x l IH]; intros d H; [reflexivity|].
  cbn [fold_left]. rewrite IH by (intros y Hy; apply H; right; exact Hy).
  unfold set_some. destruct (value x); [|reflexivity].
  apply DictFacts.get_set_other. intros E. apply (H x); [left; reflexivity|].
  now symmetry.
Qed.

Lemma fold_some_at (l : list A) (d : Dict.t V) (x : A) :
  NoDup (List.map key l) ->
  In x l ->
  Dict.get (key x) (fold_left (fun d x => set_some d (key x) (value x)) l d)
  = match value x with
    | Some v => Some v
    | None => Dict.get (key x) d
    end.
Proof.
  revert d. induction l as [|y l IH]; intros d Hnd Hin; [destruct Hin|].
  cbn [List.map] in Hnd. inversion Hnd as [|? ? Hy Hl]; subst.
  cbn [fold_left]. destruct Hin as [-> | Hin].
  - rewrite fold_some_other.
    + unfold set_some. destruct (value x); [|reflexivity].
      apply DictFacts.get_set_same.
    + intros z Hz E. apply Hy. rewrite <- E. now apply in_map.
  - rewrite (IH _ Hl Hin). destruct (value x); [reflexivity|].
    unfold set_some. destruct (value y); [|reflexivity].
    apply DictFacts.get_set_other. intros E. apply Hy. rewrite <- E.
    now apply in_map.
Qed.

End FoldSome.

Section GeneratedFiles.
Import Py Runtime CacheGenerator.

Variable sha : string -> string.
Variable fs : filesystem.

Lemma generated_index_wf (path : string) (index : FileIndex) :
  generated_index fs path = Some index -> Dict.wf (ranges index).
Proof.
  unfold generated_index. destruct (fs path) as [content|]; [|discriminate].
  intros [= <-]. apply index_of_wf. intros lines.
  apply scan_generated_valid.
Qed.

(** The first loop of [generate] over the generated files when none of
    them has a digest in the table: each file that exists is indexed,
    its digest entered and its index document written. *)
Lemma index_generated_clean (gen : list (string * string)) :
  forall (acc : Dict.t FileIndex) (h : Dict.t string)
         (hf : option (Dict.t string)) (d : Dict.t json)
         (w : list (string * json)) (p : list diagnostic),
    (forall kp, In kp gen -> Dict.get (snd kp) h = None) ->
    NoDup (List.map snd gen) ->
    index_generated sha fs (generated_items gen) acc (mkState h hf d w p)
    = (Ok (fold_left (fun acc kp =>
                        set_some acc (fst kp) (generated_index fs (snd kp)))
                     gen acc),
       mkState (fold_left (fun h kp =>
                             set_some h (snd kp)
                                      (option_map sha (fs (snd kp))))
                          gen h)
               hf
               (fold_left (fun d kp =>
                             set_some d (index_file_name (snd kp))
                               (option_map FileIndex_to_dict
                                           (generated_index fs (snd kp))))
                          gen d)
               w p).
Proof.
  induction gen as [|[k path] gen IH]; intros acc h hf d w p Hnew Hnd;
    [reflexivity|].
  cbn [generated_items List.map fst snd] in *.
  inversion Hnd as [|? ? Hpath Hrest]; subst.
  cbn [index_generated fold_left fst snd].
  rewrite (bindM_lift_ok _ _ _ path eq_refl).
  change (generated_index fs path)
    with (option_map (index_of scan_generated path) (fs path)).
  unfold exists_.
  destruct (fs path) as [content|] eqn:E; cbn [option_map set_some].
  - unfold index_generated_file.
    erewrite bindM_ok;
      [|apply (index_file_new sha fs scan_generated path content);
        [exact E | apply (Hnew (k, path)); left; reflexivity]].
    cbv beta iota.
    erewrite bindM_ok; [|apply save_index_run].
    cbn [hashes hashes_file cache_dir written printed].
    apply IH; [|exact Hrest].
    intros kp Hin. rewrite DictFacts.get_set_other.
    + apply Hnew. right. exact Hin.
    + intros Heq. apply Hpath. rewrite <- Heq. now apply in_map.
  - apply IH; [|exact Hrest].
    intros kp Hin. apply Hnew. right. exact Hin.
Qed.

(** The same loop when every file that exists has its digest in the
    table: nothing is indexed. *)
Lemma index_generated_unchanged (gen : list (string * string)) :
  forall (acc : Dict.t FileIndex) (h : Dict.t string)
         (hf : option (Dict.t string)) (d : Dict.t json)
         (w : list (string * json)) (p : list diagnostic),
    (forall kp content,
        In kp gen -> fs (snd kp) = Some content ->
        Dict.get (snd kp) h = Some (sha content)) ->
    index_generated sha fs (generated_items gen) acc (mkState h hf d w p)
    = (Ok acc, mkState h hf d w p).
Proof.
  induction gen as [|[k path] gen IH]; intros acc h hf d w p Hsame;
    [reflexivity|].
  cbn [generated_items List.map fst snd] in *.
  cbn [index_generated].
  rewrite (bindM_lift_ok _ _ _ path eq_refl).
  unfold exists_.
  destruct (fs path) as [content|] eqn:E.
  - unfold index_generated_file.
    erewrite bindM_ok;
      [|apply (index_file_same sha fs scan_generated path content);
        [exact E | apply (Hsame (k, path)); [left; reflexivity | exact E]]].
    cbv beta iota. cbn [hashes hashes_file cache_dir written printed].
    apply IH. intros kp content' Hin. apply Hsame. right. exact Hin.
  - apply IH. intros kp content' Hin. apply Hsame. right. exact Hin.
Qed.

(** The second loop when every file has its index already or has no
    index document. *)
Lemma load_generated_skips (gen : list (string * string))
      (acc : Dict.t FileIndex) (s : state) :
  (forall kp, In kp gen ->
              Dict.mem (fst kp) acc = true
              \/ Dict.get (index_file_name (snd kp)) (cache_dir s) = None) ->
  load_generated (generated_items gen) acc s = (Ok acc, s).
Proof.
  induction gen as [|[k path] gen IH]; intros Hskip; [reflexivity|].
  cbn [generated_items List.map fst snd] in *. cbn [load_generated].
  assert (Hrest : load_generated (generated_items gen) acc s = (Ok acc, s))
    by (apply IH; intros kp Hin; apply Hskip; right; exact Hin).
  destruct (Hskip (k, path)) as [Hmem | Hdoc]; [left; reflexivity | |].
  - cbn [fst] in Hmem. rewrite Hmem. exact Hrest.
  - cbn [snd] in Hdoc. destruct (negb (Dict.mem k acc)); [|exact Hrest].
    rewrite (bindM_lift_ok _ _ _ path eq_refl).
    erewrite bindM_ok; [|apply load_index_absent; exact Hdoc].
    exact Hrest.
Qed.

(** The second loop when no file has its index yet and the index
    documents stored are those of the files that exist. *)
Lemma load_generated_all (gen : list (string * string)) (s : state) :
  forall acc : Dict.t FileIndex,
    NoDup (List.map fst gen) ->
    (forall kp, In kp gen -> Dict.mem (fst kp) acc = false) ->
    (forall kp, In kp gen ->
                Dict.get (index_file_name (snd kp)) (cache_dir s)
                = option_map FileIndex_to_dict (generated_index fs (snd kp))) ->
    load_generated (generated_items gen) acc s
    = (Ok (fold_left (fun acc kp =>
                        set_some acc (fst kp) (generated_index fs (snd kp)))
                     gen acc), s).
Proof.
  induction gen as [|[k path] gen IH]; intros acc Hnd Hfree Hdocs;
    [reflexivity|].
  cbn [generated_items List.map fst snd] in *.
  inversion Hnd as [|? ? Hkey Hrest]; subst.
  cbn [load_generated fold_left fst snd].
  pose proof (Hfree (k, path) (or_introl eq_refl)) as Hk. cbn [fst] in Hk.
  rewrite Hk. cbn [negb].
  rewrite (bindM_lift_ok _ _ _ path eq_refl).
  pose proof (Hdocs (k, path) (or_introl eq_refl)) as Hdoc. cbn [snd] in Hdoc.
  destruct (generated_index fs path) as [index|] eqn:E;
    cbn [option_map set_some] in *.
  - erewrite bindM_ok;
      [|apply (load_index_current index);
        [exact Hdoc | exact (generated_index_wf path index E)]].
    cbv beta iota. apply IH; [exact Hrest | |].
    + intros kp Hin. unfold Dict.mem.
      rewrite DictFacts.get_set_other.
      * apply (Hfree kp). right. exact Hin.
      * intros Heq. apply Hkey. rewrite <- Heq. now apply in_map.
    + intros kp Hin. apply Hdocs. right. exact Hin.
  - erewrite bindM_ok; [|apply load_index_absent; exact Hdoc].
    cbv beta iota. apply IH; [exact Hrest | |].
    + intros kp Hin. apply Hfree. right. exact Hin.
    + intros kp Hin. apply Hdocs. right. exact Hin.
Qed.

End GeneratedFiles.

Section SqlCaches.
Import Py Runtime CacheGenerator.

Variable set_order : list string -> list string.
Variable config : json.
Variable fs : filesystem.

(** An index document and a cache document never have the same name. *)
Lemma index_name_not_cache (stem query : string) :
  (stem ++ ".index.json")%string <> cache_file_name query.
Proof.
  unfold cache_file_name. intros E.
  assert (Hlen : String.length stem = String.length query).
  { apply (f_equal String.length) in E.
    rewrite !string_length_append in E. simpl in E. lia. }
  apply (f_equal (drop (String.length stem))) in E.
  rewrite drop_append, Hlen, drop_append in E. discriminate E.
Qed.

(** The loop of [generate] over the queries: what it writes depends on
    the indices alone, and it leaves the table of hashes and the index
    documents as they are. *)
Lemma sql_caches_outcome (schema_index : FileIndex)
      (generated_indices : Dict.t FileIndex)
      (queries : list (string * FileRange)) :
  forall s,
  exists s',
    generate_caches set_order config fs queries schema_index
                    generated_indices s = (Ok tt, s')
    /\ written s'
       = written s
         ++ assembled
              (fun unit =>
                 cache <- generate_query_cache set_order config fs (fst unit)
                            (snd unit) schema_index generated_indices ;;
                 Ok (cache_file_name (query_name cache),
                     QueryCache_to_dict cache))
              queries
    /\ hashes s' = hashes s
    /\ hashes_file s' = hashes_file s
    /\ (forall name,
           (forall query, name <> cache_file_name query) ->
           Dict.get name (cache_dir s') = Dict.get name (cache_dir s)).
Proof.
  induction queries as [|[name r] rest IH]; intros s.
  - exists s. cbn. rewrite app_nil_r. repeat split; reflexivity.
  - cbn [generate_caches assembled fst snd].
    unfold bindM at 1, try_except, bindM at 1, lift.
    destruct (generate_query_cache set_order config fs name r schema_index
                generated_indices) as [cache|e]; cbn [bind].
    + unfold save_query_cache, write_cache.
      match goal with
      | |- context [generate_caches _ _ _ rest _ _ ?s1] =>
          destruct (IH s1) as [s' [E [Hw [Hh [Hf Hd]]]]]
      end.
      exists s'. split; [exact E|].
      cbn [written hashes hashes_file cache_dir] in Hw, Hh, Hf, Hd.
      rewrite Hw, <- app_assoc.
      split; [reflexivity|]. split; [exact Hh|]. split; [exact Hf|].
      intros key Hkey. rewrite (Hd key Hkey).
      apply DictFacts.get_set_other. apply Hkey.
    + unfold print.
      match goal with
      | |- context [generate_caches _ _ _ rest _ _ ?s1] =>
          destruct (IH s1) as [s' [E [Hw [Hh [Hf Hd]]]]]
      end.
      exists s'. split; [exact E|].
      cbn [written hashes hashes_file cache_dir] in Hw, Hh, Hf, Hd.
      repeat split; assumption.
Qed.

End SqlCaches.

Section SqlCleanStart.
Import Py Runtime CacheGenerator.

Variable sha : string -> string.
Variable set_order : list string -> list string.
Variable config : json.
Variable fs : filesystem.
Variables base cache : json.
Variables schema_path query_path schema queries : string.
Variable gen : list (string * string).

Hypothesis base_configured : Json.item "base_path" config = Ok base.
Hypothesis cache_configured : Json.item "cache_dir" config = Ok cache.
Hypothesis schema_configured : config_str config "schema_file" = Ok schema_path.
Hypothesis query_configured : config_str config "query_file" = Ok query_path.
Hypothesis generated_configured :
  Json.item "generated" config = Ok (JObj (generated_items gen)).
Hypothesis schema_exists : fs schema_path = Some schema.
Hypothesis query_exists : fs query_path = Some queries.
Hypothesis keys_differ : NoDup (List.map fst gen).
Hypothesis paths_differ :
  NoDup (schema_path :: query_path :: List.map snd gen).
Hypothesis names_differ :
  NoDup ("schema.sql.index.json" :: "query.sql.index.json"
           :: List.map (fun kp => index_file_name (snd kp)) gen).

Lemma paths_apart :
  schema_path <> query_path
  /\ (forall kp, In kp gen -> snd kp <> schema_path)
  /\ (forall kp, In kp gen -> snd kp <> query_path)
  /\ NoDup (List.map snd gen).
Proof.
  inversion paths_differ as [|? ? Hs Hrest]; subst.
  inversion Hrest as [|? ? Hq Hgen]; subst.
  split; [|split; [|split]].
  - intros E. apply Hs. left. now symmetry.
  - intros kp Hin E. apply Hs. right. rewrite <- E. now apply in_map.
  - intros kp Hin E. apply Hq. rewrite <- E. now apply in_map.
  - exact Hgen.
Qed.

Lemma names_apart :
  (forall kp, In kp gen -> index_file_name (snd kp) <> "schema.sql.index.json")
  /\ (forall kp, In kp gen ->
                 index_file_name (snd kp) <> "query.sql.index.json")
  /\ NoDup (List.map (fun kp => index_file_name (snd kp)) gen).
Proof.
  inversion names_differ as [|? ? Hs Hrest]; subst.
  inversion Hrest as [|? ? Hq Hgen]; subst.
  split; [|split].
  - intros kp Hin E. apply Hs. right. rewrite <- E.
    now apply (in_map (fun kp => index_file_name (snd kp))).
  - intros kp Hin E. apply Hq. rewrite <- E.
    now apply (in_map (fun kp => index_file_name (snd kp))).
  - exact Hgen.
Qed.

Lemma eqb_differ (a b : string) : a <> b -> String.eqb a b = false.
Proof. apply String.eqb_neq. Qed.

(** The table of hashes a first run leaves, at the three kinds of
    keys. *)
Lemma clean_hashes_schema :
  Dict.get schema_path
           (clean_hashes sha fs schema_path query_path schema queries gen)
  = Some (sha schema).
Proof.
  destruct paths_apart as [_ [Hs _]]. unfold clean_hashes.
  rewrite (fold_some_other snd) by exact Hs.
  simpl. now rewrite String.eqb_refl.
Qed.

Lemma clean_hashes_query :
  Dict.get query_path
           (clean_hashes sha fs schema_path query_path schema queries gen)
  = Some (sha queries).
Proof.
  destruct paths_apart as [Hsq [_ [Hq _]]]. unfold clean_hashes.
  rewrite (fold_some_other snd) by exact Hq.
  simpl. rewrite (eqb_differ _ _ Hsq). now rewrite String.eqb_refl.
Qed.

Lemma clean_hashes_generated (kp : string * string) (content : string) :
  In kp gen -> fs (snd kp) = Some content ->
  Dict.get (snd kp)
           (clean_hashes sha fs schema_path query_path schema queries gen)
  = Some (sha content).
Proof.
  intros Hin Hfs. destruct paths_apart as [_ [_ [_ Hnd]]].
  unfold clean_hashes.
  rewrite (fold_some_at snd (fun kp => option_map sha (fs (snd kp))))
    by assumption.
  now rewrite Hfs.
Qed.

(** The index documents it leaves. *)
Lemma clean_documents_schema :
  Dict.get "schema.sql.index.json"
           (clean_documents fs schema_path query_path schema queries gen)
  = Some (FileIndex_to_dict (index_of scan_schema schema_path schema)).
Proof.
  destruct names_apart as [Hs _]. unfold clean_documents.
  rewrite (fold_some_other (fun kp => index_file_name (snd kp)))
    by exact Hs.
  reflexivity.
Qed.

Lemma clean_documents_query :
  Dict.get "query.sql.index.json"
           (clean_documents fs schema_path query_path schema queries gen)
  = Some (FileIndex_to_dict (index_of scan_queries query_path queries)).
Proof.
  destruct names_apart as [_ [Hq _]]. unfold clean_documents.
  rewrite (fold_some_other (fun kp => index_file_name (snd kp)))
    by exact Hq.
  reflexivity.
Qed.

Lemma clean_documents_generated (kp : string * string) :
  In kp gen ->
  Dict.get (index_file_name (snd kp))
           (clean_documents fs schema_path query_path schema queries gen)
  = option_map FileIndex_to_dict (generated_index fs (snd kp)).
Proof.
  intros Hin. destruct names_apart as [Hs [Hq Hnd]]. unfold clean_documents.
  rewrite (fold_some_at (fun kp => index_file_name (snd kp))
             (fun kp => option_map FileIndex_to_dict
                                   (generated_index fs (snd kp))))
    by assumption.
  destruct (option_map FileIndex_to_dict (generated_index fs (snd kp)));
    [reflexivity|].
  cbn [Dict.get]. rewrite (eqb_differ _ _ (not_eq_sym (Hs kp Hin))).
  now rewrite (eqb_differ _ _ (not_eq_sym (Hq kp Hin))).
Qed.

Lemma clean_indices_generated (kp : string * string) :
  In kp gen ->
  Dict.get (fst kp) (clean_indices fs gen) = generated_index fs (snd kp).
Proof.
  intros Hin. unfold clean_indices.
  rewrite (fold_some_at fst (fun kp => generated_index fs (snd kp)))
    by assumption.
  now destruct (generated_index fs (snd kp)).
Qed.


Ltac next tac := erewrite bindM_ok; [| tac ].

(** The first run, from an empty cache directory. *)
Lemma first_run_clean :
  exists s1,
    run sha set_order config fs None Dict.empty = (Ok tt, s1)
    /\ written s1
       = assembled
           (query_unit set_order config fs
                       (index_of scan_schema schema_path schema)
                       (clean_indices fs gen))
           (ranges (index_of scan_queries query_path queries))
    /\ hashes_file s1
       = Some (clean_hashes sha fs schema_path query_path schema queries gen)
    /\ (forall name,
           (forall query, name <> cache_file_name query) ->
           Dict.get name (cache_dir s1)
           = Dict.get name
               (clean_documents fs schema_path query_path schema queries gen)).
Proof.
  destruct paths_apart as [Hsq [Hs [Hq Hnd]]].
  unfold run.
  next ltac:(apply (init_ok config base cache); assumption).
  unfold generate, index_schema_file, index_query_file.
  rewrite (bindM_bind_lift _ schema_path) by exact schema_configured.
  next ltac:(apply (index_file_new sha fs scan_schema schema_path schema);
             [exact schema_exists | reflexivity]).
  next ltac:(apply save_index_run).
  cbn [hashes hashes_file cache_dir written printed Dict.set Dict.empty].
  rewrite (bindM_bind_lift _ query_path) by exact query_configured.
  next ltac:(apply (index_file_new sha fs scan_queries query_path queries);
             [exact query_exists
             | cbn [hashes Dict.get]; now rewrite (eqb_differ _ _ Hsq)]).
  next ltac:(apply save_index_run).
  cbn [hashes hashes_file cache_dir written printed Dict.set Dict.empty
       String.eqb Ascii.eqb Bool.eqb].
  rewrite (eqb_differ _ _ Hsq).
  rewrite (bindM_lift_ok _ _ _ (generated_items gen))
    by (now rewrite generated_configured).
  next ltac:(apply index_generated_clean; [|exact Hnd]).
  2:{ intros kp Hin. cbn [Dict.get].
      rewrite (eqb_differ _ _ (not_eq_sym (Hs kp Hin))).
      now rewrite (eqb_differ _ _ (not_eq_sym (Hq kp Hin))). }
  fold (clean_hashes sha fs schema_path query_path schema queries gen).
  fold (clean_documents fs schema_path query_path schema queries gen).
  fold (clean_indices fs gen).
  cbn [or_load]. next ltac:(reflexivity). next ltac:(reflexivity).
  next ltac:(apply load_generated_skips).
  2:{ intros kp Hin. cbn [cache_dir]. unfold Dict.mem.
      rewrite (clean_indices_generated kp Hin).
      rewrite (clean_documents_generated kp Hin).
      destruct (generated_index fs (snd kp)); [left | right]; reflexivity. }
  match goal with
  | |- context [bindM (generate_caches _ _ _ ?qs ?sc ?gi) _ ?s] =>
      destruct (sql_caches_outcome set_order config fs sc gi qs s)
        as [s' [E [Hw [Hh [Hf Hd]]]]]
  end.
  rewrite (bindM_ok _ _ _ _ _ E). unfold _save_hashes.
  cbn [hashes hashes_file cache_dir written printed] in *.
  eexists. split; [reflexivity|].
  cbn [hashes hashes_file cache_dir written printed].
  split; [exact Hw|]. split; [now rewrite Hh | exact Hd].
Qed.

(** The second run, from what the first one left. *)
Lemma second_run_clean (dir : Dict.t json) :
  (forall name,
      (forall query, name <> cache_file_name query) ->
      Dict.get name dir
      = Dict.get name
          (clean_documents fs schema_path query_path schema queries gen)) ->
  exists s2,
    run sha set_order config fs
        (Some (clean_hashes sha fs schema_path query_path schema queries gen))
        dir = (Ok tt, s2)
    /\ written s2
       = assembled
           (query_unit set_order config fs
                       (index_of scan_schema schema_path schema)
                       (clean_indices fs gen))
           (ranges (index_of scan_queries query_path queries)).
Proof.
  intros Hdir. unfold run.
  next ltac:(apply (init_ok config base cache); assumption).
  unfold generate, index_schema_file, index_query_file.
  rewrite (bindM_bind_lift _ schema_path) by exact schema_configured.
  next ltac:(apply (index_file_same sha fs scan_schema schema_path schema);
             [exact schema_exists | exact clean_hashes_schema]).
  next ltac:(reflexivity).
  cbn [hashes hashes_file cache_dir written printed].
  rewrite (bindM_bind_lift _ query_path) by exact query_configured.
  next ltac:(apply (index_file_same sha fs scan_queries query_path queries);
             [exact query_exists | exact clean_hashes_query]).
  next ltac:(reflexivity).
  cbn [hashes hashes_file cache_dir written printed].
  rewrite (bindM_lift_ok _ _ _ (generated_items gen))
    by (now rewrite generated_configured).
  next ltac:(apply index_generated_unchanged).
  2:{ intros kp content Hin Hfs. now apply clean_hashes_generated. }
  cbn [or_load].
  next ltac:(apply (load_index_current
                      (index_of scan_schema schema_path schema))).
  2:{ cbn [cache_dir].
      rewrite (Hdir "schema.sql.index.json")
        by (intros query; apply (index_name_not_cache "schema.sql")).
      exact clean_documents_schema. }
  2:{ apply index_of_wf. intros lines. apply scan_schema_valid. }
  next ltac:(apply (load_index_current
                      (index_of scan_queries query_path queries))).
  2:{ cbn [cache_dir].
      rewrite (Hdir "query.sql.index.json")
        by (intros query; apply (index_name_not_cache "query.sql")).
      exact clean_documents_query. }
  2:{ apply index_of_wf. intros lines. apply scan_queries_valid. }
  next ltac:(apply (load_generated_all fs gen); [exact keys_differ | |]).
  2:{ intros kp Hin. reflexivity. }
  2:{ intros kp Hin. cbn [cache_dir]. rewrite Hdir.
      - now apply clean_documents_generated.
      - intros query. apply index_name_not_cache. }
  fold (clean_indices fs gen).
  match goal with
  | |- context [bindM (generate_caches _ _ _ ?qs ?sc ?gi) _ ?s] =>
      destruct (sql_caches_outcome set_order config fs sc gi qs s)
        as [s' [E [Hw _]]]
  end.
  rewrite (bindM_ok _ _ _ _ _ E). unfold _save_hashes.
  eexists. split; [reflexivity|]. exact Hw.
Qed.

End SqlCleanStart.

(** X17: two runs of [cache_generator.py] in a row, the first from an
    empty cache directory and no stored hashes, over a schema file and
    a query file that exist, when the configured files are different
    files and their index documents have different names: both runs end
    without error and the second writes the cache documents of the
    first, query for query. *)
Theorem sql_second_run_after_clean_start
        (sha : string -> string) (set_order : list string -> list string)
        (config : json) (fs : filesystem) (base cache : json)
        (schema_path query_path schema queries : string)
        (gen : list (string * string)) :
  Json.item "base_path" config = Py.Ok base ->
  Json.item "cache_dir" config = Py.Ok cache ->
  CacheGenerator.config_str config "schema_file" = Py.Ok schema_path ->
  CacheGenerator.config_str config "query_file" = Py.Ok query_path ->
  Json.item "generated" config = Py.Ok (JObj (generated_items gen)) ->
  fs schema_path = Some schema ->
  fs query_path = Some queries ->
  NoDup (List.map fst gen) ->
  NoDup (schema_path :: query_path :: List.map snd gen) ->
  NoDup ("schema.sql.index.json" :: "query.sql.index.json"
           :: List.map (fun kp => CacheGenerator.index_file_name (snd kp)) gen) ->
  let first := CacheGenerator.run sha set_order config fs None Dict.empty in
  let second := CacheGenerator.run sha set_order config fs
                  (Runtime.hashes_file (snd first))
                  (Runtime.cache_dir (snd first)) in
  fst first = Py.Ok tt
  /\ fst second = Py.Ok tt
  /\ Runtime.written (snd second) = Runtime.written (snd first).
Proof.
  intros Hbase Hcache Hschema Hquery Hgen Hfs_s Hfs_q Hkeys Hpaths Hnames.
  cbv zeta.
  destruct (first_run_clean sha set_order config fs base cache schema_path
              query_path schema queries gen Hbase Hcache Hschema Hquery Hgen
              Hfs_s Hfs_q Hkeys Hpaths Hnames)
    as [s1 [E1 [Hw1 [Hh1 Hd1]]]].
  rewrite E1. cbn [fst snd]. rewrite Hh1.
  destruct (second_run_clean sha set_order config fs base cache schema_path
              query_path schema queries gen Hbase Hcache Hschema Hquery Hgen
              Hfs_s Hfs_q Hkeys Hpaths Hnames (Runtime.cache_dir s1) Hd1)
    as [s2 [E2 Hw2]].
  rewrite E2. cbn [fst snd]. rewrite Hw1, Hw2. repeat split.
Qed.

(* ================================================================== *)
(** * A schema index that is lost *)
(* ================================================================== *)

Section LostIndex.
Import Py Runtime CacheGenerator.

Variable sha : string -> string.
Variable fs : filesystem.
Variables name lost_path content : string.
Hypothesis lost_exists : fs lost_path = Some content.

Lemma quiet_refl (s : state) : quiet sha name lost_path content s s.
Proof. split; [apply untouched_refl | tauto]. Qed.

Lemma quiet_trans (a b c : state) :
  quiet sha name lost_path content a b -> quiet sha name lost_path content b c ->
  quiet sha name lost_path content a c.
Proof.
  intros [H1 H2] [H3 H4]. split; [now apply (untouched_trans a b c) | tauto].
Qed.

Lemma quiet_bind {A B} (m : M A) (k : A -> M B) :
  keeps (quiet sha name lost_path content) m -> (forall a, keeps (quiet sha name lost_path content) (k a)) ->
  keeps (quiet sha name lost_path content) (bindM m k).
Proof. apply keeps_bind, quiet_trans. Qed.

Lemma quiet_ret {A} (a : A) : keeps (quiet sha name lost_path content) (ret a).
Proof. apply keeps_ret, quiet_refl. Qed.

Lemma quiet_lift {A} (r : result A) : keeps (quiet sha name lost_path content) (lift r).
Proof. apply keeps_lift, quiet_refl. Qed.

(** A fingerprint check leaves the digest of the file whose index is
    lost: under another key it enters another digest, under the key
    of the file it finds the digest current. *)
Lemma index_file_quiet (scanner : list string -> Dict.t FileRange)
      (path : string) :
  keeps (quiet sha name lost_path content) (index_file sha fs scanner path).
Proof.
  intros s. split; [apply index_file_untouched|].
  intros [Hdoc Hhash].
  unfold index_file, _should_update_file, check_fingerprint, should_reindex,
    bindM.
  destruct (fs path) as [text|] eqn:E; cbn [negb ret snd].
  - destruct (differs (Dict.get path (hashes s)) (sha text)) eqn:D;
      cbn [negb]; [|split; assumption].
    unfold lift, open_text. rewrite E. cbn [ret snd].
    split; [exact Hdoc|]. cbn [hashes].
    destruct (String.eqb path lost_path) eqn:Ep.
    + apply String.eqb_eq in Ep. subst path.
      rewrite lost_exists in E. inversion E; subst text.
      rewrite Hhash in D. simpl in D. rewrite String.eqb_refl in D.
      discriminate D.
    + apply String.eqb_neq in Ep.
      rewrite DictFacts.get_set_other; [exact Hhash|].
      intros Heq. apply Ep. now symmetry.
  - split; assumption.
Qed.

Lemma save_index_quiet (index : FileIndex) (filename : string) :
  filename <> name -> keeps (quiet sha name lost_path content) (save_index index filename).
Proof.
  intros Hne s. split; [apply write_document_untouched|].
  intros [Hdoc Hhash]. split; [|exact Hhash]. cbn.
  rewrite DictFacts.get_set_other; [exact Hdoc|].
  intros E. apply Hne. now symmetry.
Qed.

Lemma saved_quiet (o : option FileIndex) (filename : string) :
  filename <> name ->
  keeps (quiet sha name lost_path content) match o with
                     | Some index => save_index index filename
                     | None => ret tt
                     end.
Proof.
  intros Hne. destruct o; [now apply save_index_quiet | apply quiet_ret].
Qed.

Lemma load_index_quiet (filename : string) :
  keeps (quiet sha name lost_path content) (load_index filename).
Proof.
  intros s. unfold load_index.
  destruct (Dict.get filename (cache_dir s)) as [data|];
    [destruct (FileIndex_of_json data)|]; apply quiet_refl.
Qed.

Lemma or_load_quiet (o : option FileIndex) (filename : string) :
  keeps (quiet sha name lost_path content) (or_load o filename).
Proof. destruct o; [apply quiet_ret | apply load_index_quiet]. Qed.

Lemma index_generated_quiet (items : list (string * json)) :
  (forall kv p, In kv items -> snd kv = JStr p -> index_file_name p <> name) ->
  forall indices, keeps (quiet sha name lost_path content) (index_generated sha fs items indices).
Proof.
  induction items as [|[key v] items IH]; intros Hnames indices;
    cbn [index_generated]; [apply quiet_ret|].
  assert (Hrest : forall indices,
             keeps (quiet sha name lost_path content) (index_generated sha fs items indices))
    by (apply IH; intros kv p Hin; apply Hnames; right; exact Hin).
  destruct v as [ | z | p | l | d];
    try (intros s; apply quiet_refl).
  assert (Hp : index_file_name p <> name)
    by (apply (Hnames (key, JStr p)); [left|]; reflexivity).
  intros s. unfold bindM at 1, lift. cbn [Json.as_str].
  revert s. fold (keeps (quiet sha name lost_path content)
                        (if exists_ fs p
                         then gen_index <~ index_generated_file sha fs p ;;
                              match gen_index with
                              | Some index =>
                                  _ <~ save_index index (index_file_name p) ;;
                                  index_generated sha fs items
                                    (Dict.set key index indices)
                              | None => index_generated sha fs items indices
                              end
                         else index_generated sha fs items indices)).
  destruct (exists_ fs p); [|apply Hrest].
  apply quiet_bind; [apply index_file_quiet|]. intros [index|];
    [|apply Hrest].
  apply quiet_bind; [now apply save_index_quiet|]. intros _. apply Hrest.
Qed.

Lemma load_generated_quiet (items : list (string * json)) :
  forall indices, keeps (quiet sha name lost_path content) (load_generated items indices).
Proof.
  induction items as [|[key v] items IH]; intros indices;
    cbn [load_generated]; [apply quiet_ret|].
  destruct (negb (Dict.mem key indices)); [|apply IH].
  apply quiet_bind; [apply quiet_lift|]. intros gen_path.
  apply quiet_bind; [apply load_index_quiet|]. intros [index|]; apply IH.
Qed.

End LostIndex.

Section LostSchemaIndex.
Import Py Runtime CacheGenerator.

Variable sha : string -> string.
Variable set_order : list string -> list string.
Variable config : json.
Variable fs : filesystem.
Variables schema_path schema : string.

Hypothesis schema_configured : config_str config "schema_file" = Ok schema_path.
Hypothesis schema_exists : fs schema_path = Some schema.
Hypothesis other_names :
  forall items kv p,
    bind (Json.item "generated" config) Json.items = Ok items ->
    In kv items -> snd kv = JStr p ->
    index_file_name p <> "schema.sql.index.json".

(** The next statement of [generate], which keeps the index lost: it
    raises, and the run is over, or it returns. *)
Ltac proceed tac a s' Hq :=
  match goal with
  | |- context [bindM ?m ?k ?s] =>
      let E := fresh "E" in
      let K := fresh "K" in
      assert (K : keeps (quiet sha "schema.sql.index.json" schema_path schema) m) by tac;
      pose proof (K s) as Hq; clear K;
      destruct (m s) as [[a|?e] s'] eqn:E; cbn [snd] in Hq;
      [ rewrite (bindM_ok _ _ _ _ _ E)
      | rewrite (bindM_raise _ _ _ _ _ E) ]
  end.

Ltac chain :=
  repeat (eapply quiet_trans; [|eassumption]); apply quiet_refl.

Lemma generate_without_schema_index (s : state) :
  index_lost sha "schema.sql.index.json" schema_path schema s ->
  let out := generate sha set_order config fs s in
  written (snd out) = written s
  /\ index_lost sha "schema.sql.index.json" schema_path schema (snd out)
  /\ (hashes_file (snd out) = hashes_file s
      \/ hashes_file (snd out) = Some (hashes (snd out))).
Proof.
  intros Hlost. cbv zeta.
  assert (Hend : forall s',
            quiet sha "schema.sql.index.json" schema_path schema s s' ->
            written s' = written s
            /\ index_lost sha "schema.sql.index.json" schema_path schema s'
            /\ (hashes_file s' = hashes_file s
                \/ hashes_file s' = Some (hashes s'))).
  { intros s' [[Hf Hw] Hl]. split; [exact Hw|].
    split; [now apply Hl | left; exact Hf]. }
  unfold generate, index_schema_file, index_query_file.
  rewrite (bindM_bind_lift _ schema_path) by exact schema_configured.
  rewrite (bindM_ok _ _ _ _ _
             (index_file_same sha fs scan_schema schema_path schema s
                              schema_exists (proj2 Hlost))).
  cbv beta iota.
  rewrite (bindM_ok (ret tt) _ _ _ tt eq_refl).
  set (s1 := mkState (hashes s) (hashes_file s) (cache_dir s) (written s)
                     (printed s)).
  assert (H1 : quiet sha "schema.sql.index.json" schema_path schema s s1)
    by (split; [split; reflexivity | intros H; exact H]).
  proceed ltac:(apply quiet_bind;
                [ apply quiet_lift
                | intros ?; apply index_file_quiet; exact schema_exists ])
          query_index s2 H2.
  2:{ apply Hend; cbn [snd]. chain. }
  proceed ltac:(apply saved_quiet; discriminate) u s3 H3.
  2:{ apply Hend; cbn [snd]. chain. }
  destruct (bind (Json.item "generated" config) Json.items)
    as [items|e] eqn:Eitems.
  2:{ unfold bindM at 1, lift. cbn [snd]. apply Hend; cbn [snd].
      chain. }
  rewrite (bindM_lift_ok _ _ _ items eq_refl).
  proceed ltac:(apply index_generated_quiet;
                [ exact schema_exists
                | intros kv p; apply (other_names items kv p eq_refl) ])
          indices s4 H4.
  2:{ apply Hend; cbn [snd]. chain. }
  assert (H14 : quiet sha "schema.sql.index.json" schema_path schema s s4)
    by chain.
  cbn [or_load].
  rewrite (bindM_ok _ _ _ _ _
             (load_index_absent "schema.sql.index.json" s4
                                (proj1 (proj2 H14 Hlost)))).
  proceed ltac:(apply or_load_quiet) loaded s5 H5.
  2:{ apply Hend; cbn [snd]. chain. }
  proceed ltac:(apply load_generated_quiet) indices' s6 H6.
  2:{ apply Hend; cbn [snd]. chain. }
  assert (H16 : quiet sha "schema.sql.index.json" schema_path schema s s6)
    by chain.
  destruct H16 as [[Hf Hw] Hl]. specialize (Hl Hlost).
  destruct loaded; cbn; (split; [exact Hw|]); (split; [exact Hl|]);
    right; reflexivity.
Qed.

End LostSchemaIndex.

Section LostSchemaRun.
Import Py Runtime CacheGenerator.

(** X18: when the stored hashes hold the digest of the schema file as
    it is, and the cache directory has no [schema.sql.index.json], a
    run of [cache_generator.py] writes no query cache and no schema
    index, whatever the query file and the generated files are; the
    hashes it leaves still hold that digest, so the next run starts
    from the same situation. *)
Theorem lost_schema_index_is_not_rebuilt
        (sha : string -> string) (set_order : list string -> list string)
        (config : json) (fs : filesystem) (base cache : json)
        (schema_path schema : string)
        (table : Dict.t string) (dir : Dict.t json) :
  Json.item "base_path" config = Ok base ->
  Json.item "cache_dir" config = Ok cache ->
  config_str config "schema_file" = Ok schema_path ->
  fs schema_path = Some schema ->
  (forall items kv p,
      bind (Json.item "generated" config) Json.items = Ok items ->
      In kv items -> snd kv = JStr p ->
      index_file_name p <> "schema.sql.index.json") ->
  Dict.get schema_path table = Some (sha schema) ->
  Dict.get "schema.sql.index.json" dir = None ->
  let out := run sha set_order config fs (Some table) dir in
  written (snd out) = []
  /\ Dict.get "schema.sql.index.json" (cache_dir (snd out)) = None
  /\ exists table',
      hashes_file (snd out) = Some table'
      /\ Dict.get schema_path table' = Some (sha schema).
Proof.
  intros Hbase Hcache Hpath Hfs Hnames Hdigest Hlost. cbv zeta.
  unfold run.
  rewrite (bindM_ok _ _ _ _ _
             (init_ok config base cache (Some table) dir Hbase Hcache)).
  set (s := mkState table (Some table) dir [] []).
  destruct (generate_without_schema_index sha set_order config fs
              schema_path schema Hpath Hfs Hnames s)
    as [Hw [[Hdoc Hhash] Hfile]].
  { split; [exact Hlost | exact Hdigest]. }
  split; [exact Hw|]. split; [exact Hdoc|].
  destruct Hfile as [Hfile | Hfile].
  - exists table. split; [exact Hfile | exact Hdigest].
  - eexists. split; [exact Hfile | exact Hhash].
Qed.

End LostSchemaRun.

(* ================================================================== *)
(** * The index documents of api_cache_generator.py *)
(* ================================================================== *)

Section Documents.
Import Py Runtime.

Lemma stay_refl (s : state) : documents_stay s s.
Proof. intros name H. exact H. Qed.

Lemma stay_trans (a b c : state) :
  documents_stay a b -> documents_stay b c -> documents_stay a c.
Proof. intros H1 H2 name H. apply H2, H1, H. Qed.

Lemma mem_set_same {V} (d : Dict.t V) (k : string) (v : V) :
  Dict.mem k (Dict.set k v d) = true.
Proof. unfold Dict.mem. now rewrite DictFacts.get_set_same. Qed.

Lemma mem_set_stays {V} (d : Dict.t V) (k name : string) (v : V) :
  Dict.mem name d = true -> Dict.mem name (Dict.set k v d) = true.
Proof.
  intros H. destruct (String.eqb_spec k name) as [-> | Hne].
  - apply mem_set_same.
  - unfold Dict.mem in *. now rewrite DictFacts.get_set_other.
Qed.

Lemma write_document_stays (name : string) (doc : json) :
  keeps documents_stay (write_document name doc).
Proof. intros s n H. now apply mem_set_stays. Qed.

Lemma write_cache_stays (name : string) (doc : json) :
  keeps documents_stay (write_cache name doc).
Proof. intros s n H. now apply mem_set_stays. Qed.

Lemma print_stays (d : diagnostic) : keeps documents_stay (print d).
Proof. intros s n H. exact H. Qed.

Lemma save_hashes_stays : keeps documents_stay _save_hashes.
Proof. intros s n H. exact H. Qed.

Lemma check_fingerprint_stays (sha : string -> string) (fs : filesystem)
      (rel_key path : string) :
  keeps documents_stay (check_fingerprint sha fs rel_key path).
Proof.
  intros s n H. unfold check_fingerprint.
  destruct (should_reindex sha fs (hashes s) rel_key path) as [[answer table] out].
  exact H.
Qed.

End Documents.

Section ApiDocuments.
Import Py Runtime ApiCacheGenerator.

Variable sha : string -> string.
Variable fs : filesystem.

Section Index.
Context {V : Type}.
Variables rel_key path index_name : string.
Variable load : json -> result (Dict.t V).
Variable scan : list string -> Dict.t V.
Variable document : Z -> Dict.t V -> json.

(** The document of an index is there when the index is returned:
    it was loaded from it, or it has been written. *)
Lemma index_with_holds :
  returning (holds index_name)
            (index_with sha fs rel_key path index_name load scan document).
Proof.
  intros s a s'. unfold index_with, _should_reindex, bindM at 1.
  pose proof (check_fingerprint_stays sha fs rel_key path s) as Hstay.
  destruct (check_fingerprint sha fs rel_key path s) as [[changed|e] s1];
    [|discriminate].
  cbn [snd] in Hstay.
  destruct (if changed then None else Dict.get index_name (cache_dir s1))
    as [data|] eqn:E.
  - destruct changed; [discriminate E|].
    unfold lift. intros H. inversion H; subst s'.
    unfold holds, Dict.mem. now rewrite E.
  - unfold bindM, lift.
    destruct (_read_all_lines fs path) as [lines|e]; [|discriminate].
    cbn. intros H. inversion H; subst s'. apply mem_set_same.
Qed.

Lemma index_with_stays :
  keeps documents_stay
        (index_with sha fs rel_key path index_name load scan document).
Proof.
  unfold index_with, _should_reindex.
  apply (keeps_bind _ stay_trans); [apply check_fingerprint_stays|].
  intros changed s.
  destruct (if changed then None else Dict.get index_name (cache_dir s)).
  - apply (keeps_lift _ stay_refl).
  - revert s.
    apply (keeps_bind _ stay_trans); [apply (keeps_lift _ stay_refl)|].
    intros lines. cbv zeta.
    apply (keeps_bind _ stay_trans); [apply write_document_stays|].
    intros _. apply (keeps_ret _ stay_refl).
Qed.

End Index.

Variables spec_file boilerplate_file : string.

Lemma api_generate_caches_stay (operations : list (string * PathEntry))
      (schemas : Dict.t SchemaEntry) (entities : Dict.t BoilerplateEntity) :
  keeps documents_stay
        (generate_caches fs spec_file boilerplate_file operations schemas
                         entities).
Proof.
  induction operations as [|[op_id entry] rest IH]; cbn [generate_caches].
  - apply (keeps_ret _ stay_refl).
  - apply (keeps_bind _ stay_trans); [|intros _; exact IH].
    apply (keeps_try_except _ stay_trans).
    + unfold generate_operation_cache.
      apply (keeps_bind _ stay_trans); [apply (keeps_lift _ stay_refl)|].
      intros doc. apply write_cache_stays.
    + intros e. apply print_stays.
Qed.

Lemma api_generate_documents (s s' : state) :
  generate sha fs spec_file boilerplate_file s = (Ok tt, s') ->
  holds "taskflow.paths.index.json" s'
  /\ holds "taskflow.schemas.index.json" s'
  /\ holds "boilerplate.gen.go.index.json" s'.
Proof.
  unfold generate, index_paths, index_schemas, index_boilerplate.
  unfold bindM at 1.
  match goal with
  | |- context [index_with ?a ?b ?c ?d ?e ?f ?g ?h s] =>
      pose proof (index_with_holds c d e f g h s) as H1;
      destruct (index_with a b c d e f g h s) as [[paths|e1] s1];
      [|discriminate]
  end.
  specialize (H1 paths s1 eq_refl).
  unfold bindM at 1.
  match goal with
  | |- context [index_with ?a ?b ?c ?d ?e ?f ?g ?h s1] =>
      pose proof (index_with_holds c d e f g h s1) as H2;
      pose proof (index_with_stays c d e f g h s1) as K2;
      destruct (index_with a b c d e f g h s1) as [[schemas|e2] s2];
      [|discriminate]
  end.
  specialize (H2 schemas s2 eq_refl). cbn [snd] in K2.
  unfold bindM at 1.
  match goal with
  | |- context [index_with ?a ?b ?c ?d ?e ?f ?g ?h s2] =>
      pose proof (index_with_holds c d e f g h s2) as H3;
      pose proof (index_with_stays c d e f g h s2) as K3;
      destruct (index_with a b c d e f g h s2) as [[entities|e3] s3];
      [|discriminate]
  end.
  specialize (H3 entities s3 eq_refl). cbn [snd] in K3.
  unfold bindM at 1.
  pose proof (api_generate_caches_stay paths schemas entities s3) as K4.
  destruct (generate_caches fs spec_file boilerplate_file paths schemas
                            entities s3) as [[u|e4] s4]; [|discriminate].
  cbn [snd] in K4. intros H. inversion H; subst s'.
  repeat split; apply (save_hashes_stays s4); apply K4.
  - apply K3, K2, H1.
  - apply K3, H2.
  - exact H3.
Qed.

End ApiDocuments.

(** X23: a run of [api_cache_generator.py] that ends without error
    leaves the three index documents in the cache directory, whatever
    the directory held: an index is returned from its document or its
    document is written, so a document that was lost is written again
    even if the file has not changed. *)
Theorem api_run_leaves_the_index_documents
        (sha : string -> string) (config : json) (fs : filesystem)
        (stored : option (Dict.t string)) (dir : Dict.t json) :
  let out := ApiCacheGenerator.run sha config fs stored dir in
  fst out = Py.Ok tt ->
  holds "taskflow.paths.index.json" (snd out)
  /\ holds "taskflow.schemas.index.json" (snd out)
  /\ holds "boilerplate.gen.go.index.json" (snd out).
Proof.
  cbv zeta. unfold ApiCacheGenerator.run, Runtime.bindM, Runtime.lift.
  destruct (Json.item "base_path" config) as [base|e]; [|discriminate].
  destruct (Py.bind (Json.item "spec_file" config) Json.as_str)
    as [spec_file|e]; [|discriminate].
  destruct (Py.bind (Json.item "boilerplate_file" config) Json.as_str)
    as [boilerplate_file|e]; [|discriminate].
  cbn [Runtime._load_hashes].
  match goal with
  | |- context [ApiCacheGenerator.generate ?a ?b ?c ?d ?s] =>
      destruct (ApiCacheGenerator.generate a b c d s) as [[[]|e] s'] eqn:E;
      [|discriminate]
  end.
  intros _. cbn [snd].
  exact (api_generate_documents sha fs spec_file boilerplate_file _ _ E).
Qed.

(* ================================================================== *)
(** * The later statements at concrete inputs *)
(* ================================================================== *)

(** A file of three lines read from line 0 (the last line comes
    first), from a line too far before the first, and over an empty
    range. *)
Lemma read_file_lines_before_first_line_witness :
  CacheGenerator._read_file_lines
    (Scenarios.files [("f", Scenarios.three_lines)]) "f" 0 2
  = Py.Ok ["c"; "a"; "b"]
  /\ CacheGenerator._read_file_lines
       (Scenarios.files [("f", Scenarios.three_lines)]) "f" (-3) 2
     = Py.Raise Py.IndexError
  /\ CacheGenerator._read_file_lines
       (Scenarios.files [("f", Scenarios.three_lines)]) "f" 3 2
     = Py.Ok [].
Proof.
  split; [|split].
  - destruct (read_file_lines_before_first_line
                (Scenarios.files [("f", Scenarios.three_lines)]) "f"
                Scenarios.three_lines 0 2 eq_refl) as [_ [H _]].
    rewrite H; [reflexivity | simpl; lia | lia].
  - destruct (read_file_lines_before_first_line
                (Scenarios.files [("f", Scenarios.three_lines)]) "f"
                Scenarios.three_lines (-3) 2 eq_refl) as [_ [_ H]].
    apply H; simpl; lia.
  - destruct (read_file_lines_before_first_line
                (Scenarios.files [("f", Scenarios.three_lines)]) "f"
                Scenarios.three_lines 3 2 eq_refl) as [H _].
    apply H. simpl. lia.
Defined.

(** The three lines of a file, read as one range. *)
Lemma read_range_whole_file_witness :
  ApiCacheGenerator._read_range
    (Scenarios.files [("f", Scenarios.three_lines)]) "f" (mkRange 1 3)
  = Py.Ok Scenarios.three_lines.
Proof.
  apply (read_range_whole_file
           (Scenarios.files [("f", Scenarios.three_lines)]) "f"
           Scenarios.three_lines 1 3); [reflexivity | lia | simpl; lia].
Defined.

(** Line 1 and lines 2 to 3 of a file of three lines. *)
Lemma adjacent_ranges_concatenate_witness :
  (exists upper lower,
      ApiCacheGenerator._read_range
        (Scenarios.files [("f", Scenarios.three_lines)]) "f" (mkRange 1 1)
      = Py.Ok upper
      /\ ApiCacheGenerator._read_range
           (Scenarios.files [("f", Scenarios.three_lines)]) "f" (mkRange 2 3)
         = Py.Ok lower
      /\ ApiCacheGenerator._read_range
           (Scenarios.files [("f", Scenarios.three_lines)]) "f" (mkRange 1 3)
         = Py.Ok (upper ++ lower)%string)
  /\ (exists upper lower,
         CacheGenerator._read_file_lines
           (Scenarios.files [("f", Scenarios.three_lines)]) "f" 1 1
         = Py.Ok upper
         /\ CacheGenerator._read_file_lines
              (Scenarios.files [("f", Scenarios.three_lines)]) "f" 2 3
            = Py.Ok lower
         /\ CacheGenerator._read_file_lines
              (Scenarios.files [("f", Scenarios.three_lines)]) "f" 1 3
            = Py.Ok (upper ++ lower)).
Proof.
  apply (adjacent_ranges_concatenate
           (Scenarios.files [("f", Scenarios.three_lines)]) "f"
           Scenarios.three_lines 1 1 3); [reflexivity | lia | lia | lia].
Defined.

(** A run whose configuration lacks [generated], and a run over a
    missing specification: [hashes.json] and [hashes_api.json] are not
    created. *)
Lemma hashes_saved_on_success_only_witness :
  Runtime.hashes_file
    (snd (CacheGenerator.run Scenarios.digest (fun l => l)
            Scenarios.config_without_generated Scenarios.users_fs
            None Dict.empty)) = None
  /\ Runtime.hashes_file
       (snd (ApiCacheGenerator.run Scenarios.digest Scenarios.api_config
               (Scenarios.files [("api/server.gen.go", Scenarios.tasks_go)])
               None Dict.empty)) = None.
Proof.
  destruct (hashes_saved_on_success_only Scenarios.digest (fun l => l)
              Scenarios.config_without_generated Scenarios.api_config
              Scenarios.users_fs None Dict.empty) as [_ [Hsql _]].
  destruct (hashes_saved_on_success_only Scenarios.digest (fun l => l)
              Scenarios.config_without_generated Scenarios.api_config
              (Scenarios.files [("api/server.gen.go", Scenarios.tasks_go)])
              None Dict.empty) as [_ [_ [_ Hapi]]].
  split.
  - apply (Hsql (Py.KeyError "generated")). vm_compute. reflexivity.
  - apply (Hapi (Py.FileNotFoundError "taskflow.yaml")). vm_compute.
    reflexivity.
Defined.



(** A run over the server code alone, the specification missing. *)
Lemma missing_specification_stops_the_run_witness :
  ApiCacheGenerator.run Scenarios.digest Scenarios.api_config
    (Scenarios.files [("api/server.gen.go", Scenarios.tasks_go)])
    None Dict.empty
  = (Py.Raise (Py.FileNotFoundError "taskflow.yaml"),
     Runtime.mkState Dict.empty None Dict.empty []
                     [FileMissing "taskflow.yaml"]).
Proof.
  apply (missing_specification_stops_the_run Scenarios.digest
           (Scenarios.files [("api/server.gen.go", Scenarios.tasks_go)])
           Scenarios.api_config (JStr ".") "taskflow.yaml"
           "api/server.gen.go" None Dict.empty); reflexivity.
Defined.

(** A query joining two tables and an operation referring to two
    schemas. *)
Lemma dependencies_carry_indexed_ranges_witness :
  (exists deps,
      CacheGenerator.extract_table_dependencies (fun l => l)
        Scenarios.sql_config
        (Scenarios.files [("taskflow.yaml", Scenarios.refs_spec);
                          ("schema.sql", Scenarios.two_tables_schema)])
        Scenarios.join_sql Scenarios.two_tables_index = Py.Ok deps
      /\ Forall (fun dep => CacheGenerator.table_file dep = "schema.sql") deps)
  /\ (exists deps,
         ApiCacheGenerator._extract_schema_dependencies
           (Scenarios.files [("taskflow.yaml", Scenarios.refs_spec);
                             ("schema.sql", Scenarios.two_tables_schema)])
           "taskflow.yaml" Scenarios.refs_block Scenarios.refs_index
         = Py.Ok deps
         /\ Forall (fun dep => ApiCacheGenerator.dep_file dep = "taskflow.yaml")
                   deps).
Proof.
  destruct (dependencies_carry_indexed_ranges (fun l => l) Scenarios.sql_config
              (Scenarios.files [("taskflow.yaml", Scenarios.refs_spec);
                                ("schema.sql", Scenarios.two_tables_schema)])
              Scenarios.two_tables_index "schema.sql"
              Scenarios.two_tables_schema Scenarios.join_sql
              "taskflow.yaml" Scenarios.refs_spec Scenarios.refs_block
              Scenarios.refs_index)
    as [[tables [Ht Htables]] [refs [Hr Hrefs]]].
  - intros l. apply Permutation_refl.
  - reflexivity.
  - reflexivity.
  - intros name r H. apply DictFacts.get_in in H.
    destruct (scan_schema_valid (Py.readlines Scenarios.two_tables_schema))
      as [_ Hall].
    rewrite Forall_forall in Hall. apply (Hall _ H).
  - reflexivity.
  - split.
    + exists tables. split; [exact Ht|].
      revert Htables. apply Forall_impl. intros dep H. apply H.
    + exists refs. split; [exact Hr|].
      revert Hrefs. apply Forall_impl. intros dep H. apply H.
Defined.

(** The document of the extraction scenario, with and without the line
    after [components:]. *)
Lemma paths_end_at_components_witness :
  ApiCacheGenerator.scan_paths
    (firstn 8 Scenarios.tasks_example
       ++ Scenarios.components_line :: skipn 9 Scenarios.tasks_example)
  = ApiCacheGenerator.scan_paths
      (firstn 8 Scenarios.tasks_example ++ [Scenarios.components_line]).
Proof.
  apply paths_end_at_components; [|reflexivity].
  apply Exists_cons_tl, Exists_cons_hd. reflexivity.
Defined.

(** Strings that are given differ from one another. *)
Ltac strings_differ :=
  repeat (constructor;
          [simpl; intros H;
           repeat (destruct H as [H | H]; [discriminate H|]); exact H|]);
  constructor.

(** Two runs over a schema, a query file and two generated files whose
    index documents have names of their own, sets iterated in insertion
    order. *)
Lemma sql_second_run_after_clean_start_witness :
  let first := CacheGenerator.run Scenarios.digest (fun l => l)
                 Scenarios.apart_config Scenarios.apart_fs
                 None Dict.empty in
  let second := CacheGenerator.run Scenarios.digest (fun l => l)
                  Scenarios.apart_config Scenarios.apart_fs
                  (Runtime.hashes_file (snd first))
                  (Runtime.cache_dir (snd first)) in
  fst first = Py.Ok tt
  /\ fst second = Py.Ok tt
  /\ Runtime.written (snd second) = Runtime.written (snd first).
Proof.
  apply (sql_second_run_after_clean_start Scenarios.digest (fun l => l)
           Scenarios.apart_config Scenarios.apart_fs
           (JStr ".") (JStr "cache") "schema.sql" "query.sql"
           Scenarios.users_schema Scenarios.users_queries
           Scenarios.apart_generated); try reflexivity.
  - strings_differ.
  - strings_differ.
  - strings_differ.
Defined.

(** A run over a schema whose digest is stored, in a cache directory
    that is empty. *)
Lemma lost_schema_index_is_not_rebuilt_witness :
  let out := CacheGenerator.run Scenarios.digest (fun l => l)
               Scenarios.apart_config Scenarios.apart_fs
               (Some [("schema.sql", Scenarios.digest Scenarios.users_schema)])
               Dict.empty in
  Runtime.written (snd out) = []
  /\ Dict.get "schema.sql.index.json" (Runtime.cache_dir (snd out)) = None
  /\ exists table',
      Runtime.hashes_file (snd out) = Some table'
      /\ Dict.get "schema.sql" table'
         = Some (Scenarios.digest Scenarios.users_schema).
Proof.
  apply (lost_schema_index_is_not_rebuilt Scenarios.digest (fun l => l)
           Scenarios.apart_config Scenarios.apart_fs
           (JStr ".") (JStr "cache") "schema.sql" Scenarios.users_schema);
    try reflexivity.
  intros items kv p Hitems Hin Hp.
  injection Hitems as <-.
  repeat (destruct Hin as [<- | Hin];
          [injection Hp as <-; vm_compute; discriminate|]).
  destruct Hin.
Defined.

(** A first run over the specification and the server code. *)
Lemma api_run_leaves_the_index_documents_witness :
  let out := ApiCacheGenerator.run Scenarios.digest Scenarios.api_config
               Scenarios.api_fs None Dict.empty in
  holds "taskflow.paths.index.json" (snd out)
  /\ holds "taskflow.schemas.index.json" (snd out)
  /\ holds "boilerplate.gen.go.index.json" (snd out).
Proof.
  apply (api_run_leaves_the_index_documents Scenarios.digest
           Scenarios.api_config Scenarios.api_fs None Dict.empty).
  reflexivity.
Defined.
